(** * CSV processing utility: filter, aggregate, sort

    A shallow embedding of the two implementations of the repository,

    - [Main]: the functions of [main.py], working on rows of raw text;
    - [CSVProcessor]: the class of the second script, working on rows whose
      cells were coerced at load time;
    - [Main.main] and [Script.main]: the two command-line programs, from the
      rows read from the file and the parsed options on; reading the file,
      [argparse] and the layout of the printed table are outside the model;

    over a model of the Python built-ins they call ([Py]).

    - A Python [float] is an IEEE 754 binary64 value: Rocq's primitive
      [float].
    - A [str] is a [string] whose characters are read as the code points
      0..255; text with code points above 255 is outside the model.
    - A row ([dict]) is a finite map from column names to cells.
    - A function that can raise returns a [result]: its value, or the
      exception.  Exceptions are told apart by class and, for [ValueError],
      by the statement that raises them. *)

From Stdlib Require Import ZArith List String Ascii Bool Floats Permutation Lia.
From Stdlib Require Import Sorted.
From stdpp Require Import gmap strings list sorting.

Local Open Scope string_scope.
Local Open Scope Z_scope.

(** ** The Python built-ins used by the program *)

Module Py.

(** The exceptions the program can raise.  The text of a message is replaced
    by a constructor naming the [raise] statement (or the built-in) it comes
    from. *)
Inductive message : Type :=
  | BadCondition          (* parse_condition / _parse_condition: last line *)
  | BadOrderFormat        (* parse_order: no '=' *)
  | BadAggregateFormat    (* aggregate (main.py): no '=' *)
  | UnsupportedFunction (func : string)  (* aggregate (main.py) *)
  | ColumnNotNumeric (col : string)      (* aggregate (main.py) *)
  | UnknownOperation (operation : string) (* CSVProcessor.aggregate *)
  | BadDirection          (* CSVProcessor.sort_data *)
  | CouldNotConvert       (* built-in float() on a string *)
  | EmptySequence         (* built-in min() / max() on an empty list *)
  | Unpack.               (* a, b = xs with len(xs) <> 2 *)

Inductive exn : Type :=
  | ValueError (m : message)
  | TypeError
  | KeyError (key : string).

Inductive result (A : Type) : Type :=
  | Ok (a : A)
  | Raise (e : exn).
Arguments Ok {A} a.
Arguments Raise {A} e.

Definition bind {A B} (r : result A) (k : A -> result B) : result B :=
  match r with
  | Ok a => k a
  | Raise e => Raise e
  end.

(** [try: r except ValueError: h] *)
Definition except_ValueError {A} (r : result A) (h : result A) : result A :=
  match r with
  | Raise (ValueError _) => h
  | _ => r
  end.

(** A list comprehension [[f x for x in l]] whose body may raise: the
    elements are evaluated from left to right and the first exception ends
    the evaluation. *)
Fixpoint mapM {A B} (f : A -> result B) (l : list A) : result (list B) :=
  match l with
  | [] => Ok []
  | x :: l' =>
      bind (f x) (fun y => bind (mapM f l') (fun ys => Ok (y :: ys)))
  end.

(** [[x for x in l if p x]] with a condition that may raise. *)
Fixpoint filterM {A} (p : A -> result bool) (l : list A) : result (list A) :=
  match l with
  | [] => Ok []
  | x :: l' =>
      bind (p x) (fun b =>
      bind (filterM p l') (fun xs => Ok (if b then x :: xs else xs)))
  end.

(** *** str *)

Definition code (c : ascii) : Z := Z.of_N (N_of_ascii c).

(** Characters removed by [str.strip()]. *)
Definition is_space (c : ascii) : bool :=
  let n := code c in
  ((9 <=? n) && (n <=? 13)) || ((28 <=? n) && (n <=? 32))
  || (n =? 133) || (n =? 160).

Fixpoint lstrip (s : string) : string :=
  match s with
  | String c s' => if is_space c then lstrip s' else s
  | EmptyString => EmptyString
  end.

Fixpoint rstrip (s : string) : string :=
  match s with
  | String c s' =>
      match rstrip s' with
      | EmptyString => if is_space c then EmptyString else String c EmptyString
      | r => String c r
      end
  | EmptyString => EmptyString
  end.

Definition strip (s : string) : string := rstrip (lstrip s).

Definition lower_char (c : ascii) : ascii :=
  let n := code c in
  if ((65 <=? n) && (n <=? 90))
     || ((192 <=? n) && (n <=? 222) && negb (n =? 215))
  then ascii_of_N (Z.to_N (n + 32)) else c.

Fixpoint lower (s : string) : string :=
  match s with
  | String c s' => String (lower_char c) (lower s')
  | EmptyString => EmptyString
  end.

(** [c in s] for a one-character string [c]. *)
Fixpoint contains (c : ascii) (s : string) : bool :=
  match s with
  | String d s' => if Ascii.eqb d c then true else contains c s'
  | EmptyString => false
  end.

(** [s.split(c)]: all the pieces between the occurrences of [c]; the result
    is never empty. *)
Fixpoint split (c : ascii) (s : string) : list string :=
  match s with
  | EmptyString => [EmptyString]
  | String d s' =>
      if Ascii.eqb d c then EmptyString :: split c s'
      else match split c s' with
           | p :: ps => String d p :: ps
           | [] => [String d EmptyString]
           end
  end.

(** [s.split(c, 1)]: at most one cut, at the first occurrence of [c]. *)
Fixpoint split1 (c : ascii) (s : string) : list string :=
  match s with
  | EmptyString => [EmptyString]
  | String d s' =>
      if Ascii.eqb d c then [EmptyString; s']
      else match split1 c s' with
           | p :: ps => String d p :: ps
           | [] => [String d EmptyString]
           end
  end.

(** [d.get(k)] for a dict literal with string keys, given as the list of
    its items. *)
Fixpoint lookup_assoc {V} (k : string) (l : list (string * V)) : option V :=
  match l with
  | [] => None
  | (k', v) :: l' => if String.eqb k k' then Some v else lookup_assoc k l'
  end.

(** [a, b = xs] *)
Definition unpack2 {A} (xs : list A) : result (A * A) :=
  match xs with
  | [a; b] => Ok (a, b)
  | _ => Raise (ValueError Unpack)
  end.

(** Comparison of two [str]: lexicographic on code points. *)
Definition str_lt (a b : string) : bool :=
  match String.compare a b with Lt => true | _ => false end.

(** *** float *)

(** [float(s)] for a [str].  CPython reads the text as follows
    ([PyFloat_FromString], [_Py_string_to_number_with_underscores],
    [float_from_string_inner], [_Py_dg_strtod], [_Py_parse_inf_or_nan]):
    - an underscore is accepted only between two digits, and dropped;
    - white space is removed at both ends, and the rest must not be empty;
    - what is left is an optional sign followed by either a decimal number
      (digits with an optional point, at least one digit, and an optional
      exponent [e] or [E], optional sign, at least one digit), or one of
      [inf], [infinity], [nan] in any letter case;
    - the decimal number is rounded to the nearest binary64 value, ties to
      even; a number too large gives an infinity and one too small a zero. *)

Definition is_digit (c : ascii) : bool := (48 <=? code c) && (code c <=? 57).

Definition digit_value (c : ascii) : Z := code c - 48.

(** White space for [float]: [Py_ISSPACE] on ASCII, and the two other
    Unicode spaces below 256. *)
Definition is_float_space (c : ascii) : bool :=
  let n := code c in
  ((9 <=? n) && (n <=? 13)) || (n =? 32) || (n =? 133) || (n =? 160).

Definition is_underscore (c : ascii) : bool := code c =? 95.

(** [prev_digit]: the previous character is a digit; [prev_us]: it is an
    underscore. *)
Fixpoint drop_underscores (prev_digit prev_us : bool) (s : list ascii)
  : option (list ascii) :=
  match s with
  | [] => if prev_us then None else Some []
  | c :: s' =>
      if is_underscore c then
        if prev_digit then drop_underscores false true s' else None
      else if prev_us && negb (is_digit c) then None
      else option_map (cons c) (drop_underscores (is_digit c) false s')
  end.

Fixpoint drop_while (p : ascii -> bool) (s : list ascii) : list ascii :=
  match s with
  | c :: s' => if p c then drop_while p s' else s
  | [] => []
  end.

Definition strip_float_space (s : list ascii) : list ascii :=
  rev (drop_while is_float_space (rev (drop_while is_float_space s))).

(** The longest prefix of digits, and the rest. *)
Fixpoint span_digits (s : list ascii) : list ascii * list ascii :=
  match s with
  | c :: s' =>
      if is_digit c then let '(d, r) := span_digits s' in (c :: d, r)
      else ([], s)
  | [] => ([], [])
  end.

Definition digits_value (d : list ascii) : Z :=
  fold_left (fun acc c => 10 * acc + digit_value c) d 0.

(** An optional sign: [true] for [-]. *)
Definition read_sign (s : list ascii) : bool * list ascii :=
  match s with
  | c :: s' =>
      if code c =? 45 then (true, s')
      else if code c =? 43 then (false, s')
      else (false, s)
  | [] => (false, [])
  end.

(** The exponent part; when no digit follows the [e], nothing is read. *)
Definition read_exponent (s : list ascii) : Z * list ascii :=
  match s with
  | c :: s' =>
      if (code c =? 101) || (code c =? 69) then
        let '(neg, s1) := read_sign s' in
        let '(d, r) := span_digits s1 in
        match d with
        | [] => (0, s)
        | _ => ((if neg then - digits_value d else digits_value d), r)
        end
      else (0, s)
  | [] => (0, [])
  end.

(** [neg], mantissa and decimal exponent of a decimal number, and the text
    left unread. *)
Definition read_decimal (s : list ascii)
  : option (Z * Z * list ascii) :=
  let '(int_part, r) := span_digits s in
  let '(frac_part, r) :=
    match r with
    | c :: r' => if code c =? 46 then span_digits r' else ([], r)
    | [] => ([], r)
    end in
  match (int_part ++ frac_part)%list with
  | [] => None
  | ds =>
      let '(e, r) := read_exponent r in
      Some (digits_value ds, e - Z.of_nat (length frac_part), r)
  end.

(** ASCII lower case, as [Py_TOLOWER]. *)
Definition ascii_lower (c : ascii) : ascii :=
  if (65 <=? code c) && (code c <=? 90)
  then ascii_of_N (Z.to_N (code c + 32)) else c.

Fixpoint match_word (w : list ascii) (s : list ascii) : option (list ascii) :=
  match w, s with
  | [], _ => Some s
  | a :: w', c :: s' =>
      if Ascii.eqb (ascii_lower c) a then match_word w' s' else None
  | _ :: _, [] => None
  end.

(** [m * 10^e], correctly rounded. *)
Definition float_of_decimal (neg : bool) (m e : Z) : float :=
  if m =? 0 then (if neg then neg_zero else zero)
  else
    let num := m * 10 ^ Z.max e 0 in
    let den := 10 ^ Z.max (- e) 0 in
    let '(q, e2, loc) := SFdiv_core_binary prec emax num 0 den 0 in
    SF2Prim (binary_round_aux prec emax neg q e2 loc).

Definition read_inf_nan (neg : bool) (s : list ascii)
  : option (float * list ascii) :=
  match match_word (list_ascii_of_string "inf") s with
  | Some r =>
      let r' := match match_word (list_ascii_of_string "inity") r with
                | Some r' => r'
                | None => r
                end in
      Some ((if neg then neg_infinity else infinity), r')
  | None =>
      match match_word (list_ascii_of_string "nan") s with
      | Some r => Some (nan, r)
      | None => None
      end
  end.

Definition float_of_string (s : string) : option float :=
  match drop_underscores false false (list_ascii_of_string s) with
  | None => None
  | Some s1 =>
      let s2 := strip_float_space s1 in
      let '(neg, s3) := read_sign s2 in
      let parsed :=
        match read_decimal s3 with
        | Some (m, e, r) => Some (float_of_decimal neg m e, r)
        | None => read_inf_nan neg s3
        end in
      match parsed with
      | Some (x, []) => Some x
      | _ => None
      end
  end.

(** [float(s)] raising [ValueError] on failure. *)
Definition to_float (s : string) : result float :=
  match float_of_string s with
  | Some x => Ok x
  | None => Raise (ValueError CouldNotConvert)
  end.

(** *** Values, comparisons, min, max, sum, sorted *)

(** A cell after coercion is a [float] or a [str]. *)
Inductive value : Type :=
  | VFloat (x : float)
  | VStr (s : string).

Definition isinstance_number (v : value) : bool :=
  match v with VFloat _ => true | VStr _ => false end.

(** [a == b]: a number and a text are never equal. *)
Definition py_eq (a b : value) : bool :=
  match a, b with
  | VFloat x, VFloat y => PrimFloat.eqb x y
  | VStr s, VStr t => String.eqb s t
  | _, _ => false
  end.

(** [a < b] and [a > b]: ordering a number with a text raises [TypeError]. *)
Definition py_lt (a b : value) : result bool :=
  match a, b with
  | VFloat x, VFloat y => Ok (PrimFloat.ltb x y)
  | VStr s, VStr t => Ok (str_lt s t)
  | _, _ => Raise TypeError
  end.

Definition py_gt (a b : value) : result bool := py_lt b a.

(** [float(n)] for the length of a list. *)
Definition float_of_nat (n : nat) : float :=
  SF2Prim (binary_normalize prec emax (Z.of_nat n) 0 false).

(** [min(values)] and [max(values)]: the first item is the candidate, and a
    later item replaces it when it compares strictly below (above). *)
Definition min (values : list float) : result float :=
  match values with
  | [] => Raise (ValueError EmptySequence)
  | x :: rest =>
      Ok (fold_left (fun best y => if PrimFloat.ltb y best then y else best)
                    rest x)
  end.

Definition max (values : list float) : result float :=
  match values with
  | [] => Raise (ValueError EmptySequence)
  | x :: rest =>
      Ok (fold_left (fun best y => if PrimFloat.ltb best y then y else best)
                    rest x)
  end.

(** [sum(values)] for a non-empty list of floats, as CPython 3.12 and later
    compute it: the first item is added to the integer 0, the others are
    accumulated with Neumaier's compensated summation [(total, c)], and the
    compensation is added at the end when it is finite and not zero. *)
Definition sum_step (acc : float * float) (x : float) : float * float :=
  let '(total, c) := acc in
  let t := (total + x)%float in
  if PrimFloat.leb (abs x) (abs total)
  then (t, (c + ((total - t) + x))%float)
  else (t, (c + ((x - t) + total))%float).

Definition is_finite (x : float) : bool :=
  negb (is_nan x) && negb (is_infinity x).

Definition sum (values : list float) : float :=
  match values with
  | [] => zero
  | x :: rest =>
      let '(total, c) := fold_left sum_step rest ((zero + x)%float, zero) in
      if negb (PrimFloat.eqb c zero) && is_finite c
      then (total + c)%float else total
  end.

(** The plain left-to-right sum of CPython before 3.12. *)
Definition sum_plain (values : list float) : float :=
  fold_left PrimFloat.add values zero.

(** [sorted(data, key=key, reverse=reverse)].  The keys are computed first,
    for every item.  The list is then sorted by a stable insertion sort that
    only asks whether a later item is strictly below an earlier one, as
    CPython's does; on keys that [lt] orders totally every stable sort gives
    the same list.  With [reverse] the list is reversed, sorted, and reversed
    again. *)
Section Sorted.
Context {K A : Type}.
Variable lt : K -> K -> result bool.

Fixpoint insert (x : K * A) (l : list (K * A)) : result (list (K * A)) :=
  match l with
  | [] => Ok [x]
  | y :: l' =>
      bind (lt (fst x) (fst y)) (fun b =>
      if b then Ok (x :: y :: l')
      else bind (insert x l') (fun r => Ok (y :: r)))
  end.

Definition sort (l : list (K * A)) : result (list (K * A)) :=
  fold_left (fun acc x => bind acc (insert x)) l (Ok []).

Definition sorted (key : A -> result K) (reverse : bool) (data : list A)
  : result (list A) :=
  bind (mapM key data) (fun keys =>
  let items := combine keys data in
  bind (sort (if reverse then rev items else items)) (fun r =>
  Ok (map snd (if reverse then rev r else r)))).
End Sorted.

End Py.

Import Py.

(** ** main.py *)

Module Main.

(** A row as [csv.DictReader] gives it: column name to raw text. *)
Abbreviation row := (gmap string string).

(** [row[col]] *)
Definition getitem {V} (r : gmap string V) (col : string) : result V :=
  match r !! col with
  | Some v => Ok v
  | None => Raise (KeyError col)
  end.

(** The functions of the [operator] module stored in [OPERATORS]. *)
Inductive operator : Type := gt | lt | eq.

Definition OPERATORS : list (ascii * operator) :=
  [(">"%char, gt); ("<"%char, lt); ("="%char, eq)].

Definition call (op : operator) (a b : value) : result bool :=
  match op with
  | gt => py_gt a b
  | lt => py_lt a b
  | eq => Ok (py_eq a b)
  end.

(** [avg] gives [None] on an empty list, [min] and [max] are the built-ins. *)
Definition AGGREGATIONS
  : list (string * (list float -> result (option float))) :=
  [("avg", fun values =>
             match values with
             | [] => Ok None
             | _ => Ok (Some (sum values / float_of_nat (length values))%float)
             end);
   ("min", fun values => bind (Py.min values) (fun x => Ok (Some x)));
   ("max", fun values => bind (Py.max values) (fun x => Ok (Some x)))].

Fixpoint parse_condition_from (ops : list (ascii * operator)) (cond : string)
  : result (string * operator * string) :=
  match ops with
  | [] => Raise (ValueError BadCondition)
  | (op, f) :: ops' =>
      if contains op cond then
        bind (unpack2 (split1 op cond)) (fun '(col, val) =>
        Ok (strip col, f, strip val))
      else parse_condition_from ops' cond
  end.

Definition parse_condition (cond : string)
  : result (string * operator * string) :=
  parse_condition_from OPERATORS cond.

Definition parse_order (order_str : string) : result (string * bool) :=
  if negb (contains "="%char order_str) then Raise (ValueError BadOrderFormat)
  else
    bind (unpack2 (split1 "="%char order_str)) (fun '(col, direction) =>
    Ok (strip col, String.eqb (lower (strip direction)) "asc")).

(** In the [except] branch [val] is the number when [float(val)] had
    succeeded and the error came from a cell, and the text otherwise. *)
Definition filter_rows (data : list row) (condition : option string)
  : result (list row) :=
  match condition with
  | None | Some EmptyString => Ok data   (* if not condition *)
  | Some cond =>
      bind (parse_condition cond) (fun '(col, op, val) =>
      match to_float val with
      | Ok v =>
          except_ValueError
            (filterM (fun r => bind (getitem r col) (fun cell =>
                               bind (to_float cell) (fun x =>
                               call op (VFloat x) (VFloat v)))) data)
            (filterM (fun r => bind (getitem r col) (fun cell =>
                               call op (VStr cell) (VFloat v))) data)
      | Raise (ValueError _) =>
          filterM (fun r => bind (getitem r col) (fun cell =>
                            call op (VStr cell) (VStr val))) data
      | Raise e => Raise e
      end)
  end.

Definition aggregate (data : list row) (instruction : string)
  : result (gmap string (option float)) :=
  if negb (contains "="%char instruction)
  then Raise (ValueError BadAggregateFormat)
  else
    bind (unpack2 (split1 "="%char instruction)) (fun '(col, func) =>
    let func := lower (strip func) in
    match lookup_assoc func AGGREGATIONS with
    | None => Raise (ValueError (UnsupportedFunction func))
    | Some f =>
        bind (match mapM (fun r => bind (getitem r (strip col)) to_float) data
              with
              | Raise (ValueError _) =>
                  Raise (ValueError (ColumnNotNumeric col))
              | r => r
              end) (fun values =>
        bind (f values) (fun x => Ok {[ func := x ]}))
    end).

Definition sort_data (data : list row) (order : option string)
  : result (list row) :=
  match order with
  | None | Some EmptyString => Ok data   (* if not order *)
  | Some order =>
      bind (parse_order order) (fun '(col, asc) =>
      except_ValueError
        (sorted (fun a b => Ok (PrimFloat.ltb a b))
                (fun x => bind (getitem x col) to_float) (negb asc) data)
        (sorted (fun a b => Ok (str_lt a b))
                (fun x => getitem x col) (negb asc) data))
  end.

(** The parsed command line ([argparse.Namespace]): the three optional
    expressions.  [--file] is used by [read_csv] only. *)
Record args : Type := {
  arg_where : option string;
  arg_aggregate : option string;
  arg_order_by : option string
}.

(** What is handed to [tabulate]: the rows, or the one-entry result of an
    aggregation. *)
Inductive table : Type :=
  | Rows (rows : list row)
  | Aggregate (result : gmap string (option float)).

(** The end of a run: a table printed (status 0), or [sys.exit(status)]. *)
Inductive outcome : Type :=
  | Printed (t : table)
  | Exit (status : Z).

(** [main] from the rows [read_csv] returned: filter, then aggregate or
    sort; a [ValueError] ends the run with status 2, any other exception
    with status 1. *)
Definition main (rows : list row) (a : args) : outcome :=
  match
    bind (filter_rows rows (arg_where a)) (fun rows =>
    match arg_aggregate a with
    | None | Some EmptyString =>      (* if args.aggregate: ... else: *)
        bind (sort_data rows (arg_order_by a)) (fun rows => Ok (Rows rows))
    | Some agg =>
        bind (aggregate rows agg) (fun result => Ok (Aggregate result))
    end)
  with
  | Ok t => Printed t
  | Raise (ValueError _) => Exit 2
  | Raise _ => Exit 1
  end.

End Main.

(** ** The CSVProcessor class *)

Module CSVProcessor.

(** A row after loading: column name to number or text. *)
Abbreviation row := (gmap string value).

(** The object: [self.data] (the file name plays no part once loaded). *)
Record t : Type := { data : list row }.

Definition _convert_numeric_values (r : gmap string string) : row :=
  (fun cell => match float_of_string cell with
               | Some x => VFloat x
               | None => VStr cell
               end) <$> r.

(** [__init__] after the file was read into raw rows whose cells are all
    text, as [csv.DictReader] gives them for lines with as many fields as the
    header.  A shorter line gives [None] cells, on which [float] raises
    [TypeError] and the constructor fails: such files are outside the
    model. *)
Definition init (raw : list (gmap string string)) : t :=
  {| data := map _convert_numeric_values raw |}.

Definition operators : list ascii := [">"%char; "<"%char; "="%char].

Fixpoint _parse_condition_from (ops : list ascii) (condition : string)
  : result (string * string * value) :=
  match ops with
  | [] => Raise (ValueError BadCondition)
  | op :: ops' =>
      if contains op condition then
        match split op condition with
        | [p0; p1] =>
            let column := strip p0 in
            let v := strip p1 in
            Ok (column, String op EmptyString,
                match float_of_string v with
                | Some x => VFloat x
                | None => VStr v
                end)
        | _ => _parse_condition_from ops' condition
        end
      else _parse_condition_from ops' condition
  end.

Definition _parse_condition (condition : string)
  : result (string * string * value) :=
  _parse_condition_from operators condition.

(** The test of one row in the loop of [filter_data]; [row.get(column)] is
    [None] exactly when the column is absent. *)
Definition matches (column operator : string) (v : value) (r : row)
  : result bool :=
  match r !! column with
  | None => Ok false
  | Some row_value =>
      if String.eqb operator "=" && py_eq row_value v then Ok true
      else
        bind (if String.eqb operator ">" && isinstance_number row_value
              then py_gt row_value v else Ok false) (fun above =>
        if above then Ok true
        else if String.eqb operator "<" && isinstance_number row_value
             then py_lt row_value v else Ok false)
  end.

Definition filter_data (self : t) (condition : string) : result (list row) :=
  bind (_parse_condition condition) (fun '(column, operator, v) =>
  filterM (matches column operator v) (data self)).

(** [data if data else self.data]: the stored rows are used when no list is
    passed and also when the list passed is empty. *)
Definition data_or_self (self : t) (d : option (list row)) : list row :=
  match d with
  | None | Some [] => data self
  | Some rows => rows
  end.

(** [[row[column] for row in rows if isinstance(row.get(column), (int, float))]] *)
Fixpoint numeric_values (column : string) (rows : list row) : list float :=
  match rows with
  | [] => []
  | r :: rows' =>
      match r !! column with
      | Some (VFloat x) => x :: numeric_values column rows'
      | _ => numeric_values column rows'
      end
  end.

Definition operations (values : list float)
  : list (string * result float) :=
  [("avg", Ok (sum values / float_of_nat (length values))%float);
   ("min", Py.min values);
   ("max", Py.max values)].

Definition aggregate (self : t) (aggregation : string)
  (d : option (list row)) : result (gmap string float) :=
  bind (unpack2 (split "="%char aggregation)) (fun '(column, operation) =>
  let column := strip column in
  let operation := lower (strip operation) in
  let values := numeric_values column (data_or_self self d) in
  match values with
  | [] => Ok {[ operation := zero ]}
  | _ =>
      match lookup_assoc operation (operations values) with
      | None => Raise (ValueError (UnknownOperation operation))
      | Some f => bind f (fun x => Ok {[ operation := x ]})
      end
  end).

(** [float(value)] in [sort_key]: [None] is a [TypeError]. *)
Definition float_of_value (v : option value) : result float :=
  match v with
  | None => Raise TypeError
  | Some (VFloat x) => Ok x
  | Some (VStr s) => to_float s
  end.

(** The sort keys are pairs [(value is None, value)]. *)
Definition key : Type := bool * option value.

(** Equality and order of the second components, which are both [None] or
    both values when they get compared. *)
Definition opt_eq (a b : option value) : bool :=
  match a, b with
  | None, None => true
  | Some x, Some y => py_eq x y
  | _, _ => false
  end.

Definition opt_lt (a b : option value) : result bool :=
  match a, b with
  | Some x, Some y => py_lt x y
  | _, _ => Raise TypeError
  end.

(** [k1 < k2] on tuples: the first components that differ decide. *)
Definition key_lt (k1 k2 : key) : result bool :=
  if negb (Bool.eqb (fst k1) (fst k2)) then Ok (negb (fst k1) && fst k2)
  else if opt_eq (snd k1) (snd k2) then Ok false
  else opt_lt (snd k1) (snd k2).

Definition is_numeric (column : string) (rows : list row) : bool :=
  forallb (fun r => match r !! column with
                    | Some v => isinstance_number v
                    | None => true
                    end) rows.

Definition sort_key (column : string) (numeric : bool) (r : row)
  : result key :=
  let v := r !! column in
  let is_none := match v with None => true | Some _ => false end in
  if negb numeric then Ok (is_none, v)
  else bind (float_of_value v) (fun x => Ok (is_none, Some (VFloat x))).

Definition sort_data (self : t) (order_by : string) (d : option (list row))
  : result (list row) :=
  bind (unpack2 (split "="%char order_by)) (fun '(column, direction) =>
  let column := strip column in
  let direction := lower (strip direction) in
  if negb (String.eqb direction "asc" || String.eqb direction "desc")
  then Raise (ValueError BadDirection)
  else
    let data_to_sort := data_or_self self d in
    let numeric := is_numeric column data_to_sort in
    sorted key_lt (sort_key column numeric) (String.eqb direction "desc")
           data_to_sort).

End CSVProcessor.

(** ** The script around the class *)

Module Script.

Record args : Type := {
  arg_where : option string;
  arg_aggregate : option string;
  arg_order_by : option string
}.

(** What the script prints: the result of the aggregation, the rows, or the
    message that no row is left. *)
Inductive output : Type :=
  | Aggregate (result : gmap string float)
  | Rows (rows : list CSVProcessor.row)
  | NoData.

(** [main] from the object built on the file: filter, then sort, then
    aggregate or print; no exception is caught. *)
Definition main (processor : CSVProcessor.t) (a : args) : result output :=
  let data := CSVProcessor.data processor in
  bind (match arg_where a with
        | None | Some EmptyString => Ok data
        | Some w => CSVProcessor.filter_data processor w
        end) (fun data =>
  bind (match arg_order_by a with
        | None | Some EmptyString => Ok data
        | Some o => CSVProcessor.sort_data processor o (Some data)
        end) (fun data =>
  match arg_aggregate a with
  | None | Some EmptyString =>
      Ok (match data with [] => NoData | _ => Rows data end)
  | Some g =>
      bind (CSVProcessor.aggregate processor g (Some data))
           (fun result => Ok (Aggregate result))
  end)).

End Script.

(** ** Vocabulary of the statements *)

Section FloatVocabulary.

(** The place of a value that is not a NaN in the order, as a triple
    compared from left to right. *)
Definition rank (x : spec_float) : Z * Z * Z :=
  match x with
  | S754_zero _ | S754_nan => (0, 0, 0)
  | S754_infinity false => (2, 0, 0)
  | S754_infinity true => (-2, 0, 0)
  | S754_finite false m e => (1, e, Zpos m)
  | S754_finite true m e => (-1, - e, Zneg m)
  end.

Definition lex_lt (p q : Z * Z * Z) : Prop :=
  let '(a, b, c) := p in
  let '(a', b', c') := q in
  a < a' \/ (a = a' /\ (b < b' \/ (b = b' /\ c < c'))).

Definition lex_le (p q : Z * Z * Z) : Prop :=
  let '(a, b, c) := p in
  let '(a', b', c') := q in
  a < a' \/ (a = a' /\ (b < b' \/ (b = b' /\ c <= c'))).

Definition not_nan (x : float) : Prop := is_nan x = false.

End FloatVocabulary.

Section MainVocabulary.
Import Main.

(** [sum(values) / len(values)] *)
Definition average (values : list float) : float :=
  (sum values / float_of_nat (length values))%float.

(** What a function of the aggregation tables gives on a list. *)
Definition function_result (operation : string) (values : list float)
  (x : float) : Prop :=
  (operation = "avg" -> x = average values)
  /\ (operation = "min" -> Py.min values = Ok x)
  /\ (operation = "max" -> Py.max values = Ok x).

(** The cells of a column of raw rows that are numbers. *)
Fixpoint coerced_cells (col : string) (rows : list Main.row) : list float :=
  match rows with
  | [] => []
  | r :: rows' =>
      match r !! col with
      | Some cell =>
          match float_of_string cell with
          | Some x => x :: coerced_cells col rows'
          | None => coerced_cells col rows'
          end
      | None => coerced_cells col rows'
      end
  end.

(** The tests [filter_rows] applies to a row. *)
Definition float_test (op : operator) (x v : float) : bool :=
  match op with
  | gt => PrimFloat.ltb v x
  | lt => PrimFloat.ltb x v
  | eq => PrimFloat.eqb x v
  end.

Definition str_test (op : operator) (cell lit : string) : bool :=
  match op with
  | gt => str_lt lit cell
  | lt => str_lt cell lit
  | eq => String.eqb cell lit
  end.

(** Comparison of the number in the cell with the number [v]. *)
Definition number_test (col : string) (op : operator) (v : float) (r : row)
  : bool :=
  match r !! col with
  | Some cell =>
      match float_of_string cell with
      | Some x => float_test op x v
      | None => false
      end
  | None => false
  end.

(** Comparison of the text of the cell with the text [lit]. *)
Definition text_test (col : string) (op : operator) (lit : string) (r : row)
  : bool :=
  match r !! col with
  | Some cell => str_test op cell lit
  | None => false
  end.

(** [c] occurs exactly once in [s], between [a] and [b]. *)
Definition cut_once (c : ascii) (s a b : string) : Prop :=
  s = (a ++ String c b)%string /\ contains c a = false /\ contains c b = false.

Definition occurs_once (c : ascii) (s : string) : Prop :=
  exists a b, cut_once c s a b.

(** The literal after coercion, as [_parse_condition] and the loader do it. *)
Definition coerce (text : string) : value :=
  match float_of_string text with
  | Some x => VFloat x
  | None => VStr text
  end.

End MainVocabulary.

Section CSVProcessorVocabulary.
Import CSVProcessor.

(** The test of [filter_data] for [>] and [<] against the number [v]: the
    cell must be a number. *)
Definition number_cell_test (column operator : string) (v : float) (r : row)
  : bool :=
  match r !! column with
  | Some (VFloat x) =>
      if String.eqb operator ">" then PrimFloat.ltb v x else PrimFloat.ltb x v
  | _ => false
  end.

(** The keys of a column that holds text: [(True, None)] for a row without
    the column, [(False, text)] for the others. *)
Definition missing_item (it : key * row) : bool := fst (fst it).

Definition text_item (it : key * row) : Prop :=
  exists s, fst it = (false, Some (VStr s)).

Definition none_item (it : key * row) : Prop := fst it = (true, None).

(** The rows without the column, and the sort key of a row of a column that
    is not numeric. *)
Definition lacks (column : string) (r : row) : bool :=
  match r !! column with None => true | Some _ => false end.

Definition text_key (column : string) (r : row) : key :=
  (lacks column r, r !! column).

Definition keyed (column : string) (rows : list row) : list (key * row) :=
  map (fun r => (text_key column r, r)) rows.

End CSVProcessorVocabulary.

Section SortVocabulary.

(** The order of two items of a sort, [ltb] being the strict order of the
    keys: [y] is not below [x]. *)
Definition item_le {K A : Type} (ltb : K -> K -> bool) (x y : K * A) : Prop :=
  ltb (fst y) (fst x) = false.

(** The key of an item is one the order is defined on. *)
Definition valid_item {K A : Type} (P : K -> Prop) (x : K * A) : Prop :=
  P (fst x).

(** [l] is in the order of the keys [kf]: ascending, or descending when
    [reverse]; no item is strictly below (above) an earlier one. *)
Definition key_sorted {K A : Type} (ltb : K -> K -> bool) (kf : A -> K)
  (reverse : bool) (l : list A) : Prop :=
  StronglySorted (fun a b => if reverse then ltb (kf a) (kf b) = false
                             else ltb (kf b) (kf a) = false) l.

End SortVocabulary.

Section MainRowsVocabulary.

(** The number, and the text, in the cell of a raw row. *)
Definition number_of (col : string) (r : Main.row) : float :=
  match r !! col with
  | Some cell => match float_of_string cell with Some x => x | None => nan end
  | None => nan
  end.

Definition text_of (col : string) (r : Main.row) : string :=
  match r !! col with Some cell => cell | None => EmptyString end.

(** The row has a cell in the column that reads as a number. *)
Definition reads_as_number (col : string) (r : Main.row) : Prop :=
  exists cell x, r !! col = Some cell /\ float_of_string cell = Some x.

(** Every row has a cell in the column that reads as a number, not a NaN. *)
Definition all_numbers (col : string) (rows : list Main.row) : Prop :=
  forall r, In r rows ->
    exists cell x, r !! col = Some cell /\ float_of_string cell = Some x
                   /\ not_nan x.

(** Every row has a cell in the column, and one of them does not read as a
    number. *)
Definition some_text (col : string) (rows : list Main.row) : Prop :=
  (forall r, In r rows -> r !! col <> None)
  /\ exists r cell, In r rows /\ r !! col = Some cell
                    /\ float_of_string cell = None.

End MainRowsVocabulary.

Section CSVProcessorRowsVocabulary.
Import CSVProcessor.

(** The test of [filter_data] for [=]: the cell equals the literal, number
    to number or text to text. *)
Definition equal_cell_test (column : string) (v : value) (r : row) : bool :=
  match r !! column with
  | Some cell => py_eq cell v
  | None => false
  end.

(** A row holds a number, or a text, in the column. *)
Definition has_number (column : string) (r : row) : Prop :=
  exists x, r !! column = Some (VFloat x).

Definition holds_text (column : string) (r : row) : Prop :=
  exists s, r !! column = Some (VStr s).

(** The number in the cell of a loaded row. *)
Definition number_in (column : string) (r : row) : float :=
  match r !! column with Some (VFloat x) => x | _ => nan end.

(** The rows a method works on, as its docstring has it: the list passed,
    or the stored rows when none is passed. *)
Definition rows_in_use (self : t) (d : option (list row)) : list row :=
  match d with
  | Some rows => rows
  | None => data self
  end.

(** The cell of the row in the column is a number. *)
Definition holds_number (column : string) (r : row) : bool :=
  match r !! column with
  | Some (VFloat _) => true
  | _ => false
  end.

(** The numbers of a column, as the claims word them: one for each row that
    holds a number in the column, in the order of the rows, a number that
    occurs in several rows occurring as often. *)
Definition number_cells (column : string) (rows : list row) : list float :=
  map (number_in column) (List.filter (holds_number column) rows).

(** The sort keys of the rows that have the column: [kind] tells numbers
    from text. *)
Definition present_of (kind : bool) (it : key * row) : Prop :=
  exists v, fst it = (false, Some v) /\ isinstance_number v = kind.

(** The keys of a column of numbers, none a NaN, and the keys of a column of
    text with rows that lack it. *)
Definition number_key_ok (k : key) : Prop :=
  exists x, k = (false, Some (VFloat x)) /\ not_nan x.

Definition text_key_ok (k : key) : Prop :=
  (exists s, k = (false, Some (VStr s))) \/ k = (true, None).

(** [k1 < k2] on sort keys that can be compared. *)
Definition key_ltb (k1 k2 : key) : bool :=
  match key_lt k1 k2 with Ok b => b | Raise _ => false end.

(** The order of the rows of a text column: by the text of the cells, the
    rows without the column after the others. *)
Definition text_le (column : string) (a b : row) : Prop :=
  match a !! column, b !! column with
  | Some (VStr s), Some (VStr t) => String.leb s t = true
  | _, None => True
  | _, _ => False
  end.

(** The rows [sort_data] cannot order: numbers with text, or, no cell being
    text, a row without the column. *)
Definition unorderable (column : string) (rows : list row) : Prop :=
  ((exists r, In r rows /\ has_number column r)
   /\ (exists r, In r rows /\ holds_text column r))
  \/ ((forall r, In r rows -> ~ holds_text column r)
      /\ (exists r, In r rows /\ r !! column = None)).

End CSVProcessorRowsVocabulary.

(** ** The tests of the repository *)

Section Tests.
Import Main.

Definition TEST_DATA : list row :=
  [ {[ "name" := "iphone 15 pro"; "brand" := "apple";
       "price" := "999"; "rating" := "4.9" ]};
    {[ "name" := "galaxy s23 ultra"; "brand" := "samsung";
       "price" := "1199"; "rating" := "4.8" ]};
    {[ "name" := "redmi note 12"; "brand" := "xiaomi";
       "price" := "199"; "rating" := "4.6" ]};
    {[ "name" := "poco x5 pro"; "brand" := "xiaomi";
       "price" := "299"; "rating" := "4.4" ]} ].

Definition project (col : string) (r : result (list row))
  : result (list (option string)) :=
  bind r (fun rows => Ok (map (fun x : row => x !! col) rows)).

Example test_filter_numeric :
  project "price" (filter_rows TEST_DATA (Some "price>500"))
  = Ok [Some "999"; Some "1199"].
Proof. vm_compute. reflexivity. Qed.

Example test_filter_text :
  project "name" (filter_rows TEST_DATA (Some "brand=xiaomi"))
  = Ok [Some "redmi note 12"; Some "poco x5 pro"].
Proof. vm_compute. reflexivity. Qed.

Example test_aggregate_avg :
  aggregate TEST_DATA "price=avg" = Ok {[ "avg" := Some 674%float ]}.
Proof. vm_compute. reflexivity. Qed.

Example test_aggregate_min :
  aggregate TEST_DATA "rating=min" = Ok {[ "min" := float_of_string "4.4" ]}.
Proof. vm_compute. reflexivity. Qed.

Example test_aggregate_max :
  aggregate TEST_DATA "price=max" = Ok {[ "max" := Some 1199%float ]}.
Proof. vm_compute. reflexivity. Qed.

Example test_sort_asc :
  project "price" (sort_data TEST_DATA (Some "price=asc"))
  = Ok [Some "199"; Some "299"; Some "999"; Some "1199"].
Proof. vm_compute. reflexivity. Qed.

Example test_sort_desc :
  project "rating" (sort_data TEST_DATA (Some "rating=desc"))
  = Ok [Some "4.9"; Some "4.8"; Some "4.6"; Some "4.4"].
Proof. vm_compute. reflexivity. Qed.

Example test_parse_condition :
  parse_condition "price>100" = Ok ("price", gt, "100").
Proof. reflexivity. Qed.

Example test_parse_order : parse_order "price=asc" = Ok ("price", true).
Proof. reflexivity. Qed.

Example aggregate_unknown_function :
  aggregate TEST_DATA "price=bogus"
  = Raise (ValueError (UnsupportedFunction "bogus")).
Proof. vm_compute. reflexivity. Qed.

Example filter_without_operator :
  filter_rows TEST_DATA (Some "price") = Raise (ValueError BadCondition).
Proof. vm_compute. reflexivity. Qed.

(** The same requests on the class. *)
Example processor_filter_sort_aggregate :
  let self := CSVProcessor.init TEST_DATA in
  bind (CSVProcessor.filter_data self "price>500")
       (fun rows => Ok (map (fun x : CSVProcessor.row => x !! "price") rows))
  = Ok [Some (VFloat 999); Some (VFloat 1199)]
  /\ bind (CSVProcessor.sort_data self "price=desc" None)
          (fun rows => Ok (map (fun x : CSVProcessor.row => x !! "name") rows))
     = Ok [Some (VStr "galaxy s23 ultra"); Some (VStr "iphone 15 pro");
           Some (VStr "poco x5 pro"); Some (VStr "redmi note 12")]
  /\ CSVProcessor.aggregate self "price=avg" None = Ok {[ "avg" := 674%float ]}.
Proof. vm_compute. auto. Qed.

(** [float] on a few texts. *)
Example float_of_string_examples :
  map float_of_string
      ["999"; " 4.5 "; "-0"; "1e3"; "1_000"; ".5"; "Infinity"; "nan";
       "1e999"; ""; "abc"; "1 2"; "1__0"; "0x10"; "1e"; "n/a"]
  = [Some 999; Some 4.5; Some (-0); Some 1000; Some 1000; Some 0.5;
     Some infinity; Some nan; Some infinity; None; None; None; None; None;
     None; None]%float.
Proof. vm_compute. reflexivity. Qed.

(** Rounding to the nearest binary64 value, ties to even, with overflow to
    an infinity and underflow to the subnormal numbers and zero. *)
Example float_of_string_rounding :
  map float_of_string
      ["0.1"; "4.4"; "1e23"; "9007199254740993"; "5e-324";
       "2.4703282292062327e-324"; "2.4703282292062328e-324";
       "1.7976931348623157e308"; "1.7976931348623159e308"]
  = [Some 0x1.999999999999ap-4; Some 0x1.199999999999ap+2;
     Some 0x1.52d02c7e14af6p+76; Some 0x1p+53; Some 0x0.0000000000001p-1022;
     Some 0; Some 0x0.0000000000001p-1022;
     Some 0x1.fffffffffffffp+1023; Some infinity]%float.
Proof. vm_compute. reflexivity. Qed.

End Tests.

(** ** Facts about the built-ins *)

Section Strings.

Lemma contains_app c a b :
  contains c (a ++ b)%string = contains c a || contains c b.
Proof.
  induction a as [|d a IH]; simpl; [reflexivity|].
  destruct (Ascii.eqb d c); [reflexivity | exact IH].
Qed.

Lemma contains_cons_same c b : contains c (String c b) = true.
Proof. simpl. now rewrite Ascii.eqb_refl. Qed.

Lemma split_ne_nil c s : split c s <> [].
Proof.
  destruct s as [|d s]; simpl; [discriminate|].
  destruct (Ascii.eqb d c); [discriminate|].
  destruct (split c s); discriminate.
Qed.

Lemma split_absent c s : contains c s = false -> split c s = [s].
Proof.
  induction s as [|d s IH]; simpl; [reflexivity|].
  destruct (Ascii.eqb d c); [discriminate|].
  intros H. now rewrite (IH H).
Qed.

Lemma split_app c a s :
  contains c a = false ->
  split c (a ++ String c s)%string = a :: split c s.
Proof.
  induction a as [|d a IH]; simpl.
  - intros _. now rewrite Ascii.eqb_refl.
  - destruct (Ascii.eqb d c); [discriminate|].
    intros H. now rewrite (IH H).
Qed.

Lemma split_once c a b :
  contains c a = false -> contains c b = false ->
  split c (a ++ String c b)%string = [a; b].
Proof.
  intros Ha Hb. rewrite (split_app _ _ _ Ha). now rewrite (split_absent _ _ Hb).
Qed.

Lemma split1_app c a b :
  contains c a = false ->
  split1 c (a ++ String c b)%string = [a; b].
Proof.
  induction a as [|d a IH]; simpl.
  - intros _. now rewrite Ascii.eqb_refl.
  - destruct (Ascii.eqb d c); [discriminate|].
    intros H. now rewrite (IH H).
Qed.

(** A string that contains [c] is cut by [split1] at its first [c]. *)
Lemma split1_present c s :
  contains c s = true ->
  exists a b, s = (a ++ String c b)%string /\ contains c a = false
              /\ split1 c s = [a; b].
Proof.
  induction s as [|d s IH]; simpl; [discriminate|].
  destruct (Ascii.eqb d c) eqn:E.
  - intros _. apply Ascii.eqb_eq in E. subst d.
    exists EmptyString, s. now repeat split.
  - intros H. destruct (IH H) as (a & b & -> & Ha & Hs).
    exists (String d a), b. simpl. rewrite E, Hs. now repeat split.
Qed.

End Strings.


(** *** Order of floats *)

Section FloatOrder.

Lemma Prim2SF_not_nan x : is_nan x = false -> Prim2SF x <> S754_nan.
Proof.
  intros H. unfold Prim2SF. rewrite H.
  destruct (is_zero x); [discriminate|].
  destruct (is_infinity x); [discriminate|].
  destruct (Z.frexp x) as [r e].
  destruct (shr_fexp _ _ _ _ _) as [s e'].
  destruct (shr_m s); discriminate.
Qed.

Lemma SFltb_rank x y :
  x <> S754_nan -> y <> S754_nan ->
  (SFltb x y = true <-> lex_lt (rank x) (rank y)).
Proof.
  intros Hx Hy. unfold SFltb.
  destruct x as [sx|sx| |sx mx ex], y as [sy|sy| |sy my ey]; try congruence;
    try destruct sx; try destruct sy; simpl; try (split; [discriminate | lia]);
    try (split; [intros _; lia | reflexivity]);
    change (Pos.compare_cont Eq mx my) with (Pos.compare mx my);
    destruct (Z.compare_spec ex ey); destruct (Pos.compare_spec mx my); simpl;
    split; try discriminate; try lia; auto.
Qed.

Lemma SFleb_rank x y :
  x <> S754_nan -> y <> S754_nan ->
  (SFleb x y = true <-> lex_le (rank x) (rank y)).
Proof.
  intros Hx Hy. unfold SFleb.
  destruct x as [sx|sx| |sx mx ex], y as [sy|sy| |sy my ey]; try congruence;
    try destruct sx; try destruct sy; simpl; try (split; [discriminate | lia]);
    try (split; [intros _; lia | reflexivity]);
    change (Pos.compare_cont Eq mx my) with (Pos.compare mx my);
    destruct (Z.compare_spec ex ey); destruct (Pos.compare_spec mx my); simpl;
    split; try discriminate; try lia; auto.
Qed.

Lemma lex_le_trans p q r : lex_le p q -> lex_le q r -> lex_le p r.
Proof. destruct p as [[a b] c], q as [[a' b'] c'], r as [[a'' b''] c'']. simpl. lia. Qed.

Lemma lex_le_refl p : lex_le p p.
Proof. destruct p as [[a b] c]. simpl. lia. Qed.

Lemma lex_lt_le p q : lex_lt p q -> lex_le p q.
Proof. destruct p as [[a b] c], q as [[a' b'] c']. simpl. lia. Qed.

Lemma not_lex_lt_le p q : ~ lex_lt q p -> lex_le p q.
Proof. destruct p as [[a b] c], q as [[a' b'] c']. simpl. lia. Qed.

Lemma leb_rank x y :
  not_nan x -> not_nan y ->
  (PrimFloat.leb x y = true <-> lex_le (rank (Prim2SF x)) (rank (Prim2SF y))).
Proof.
  intros Hx Hy. rewrite leb_spec.
  apply SFleb_rank; now apply Prim2SF_not_nan.
Qed.

Lemma ltb_rank x y :
  not_nan x -> not_nan y ->
  (PrimFloat.ltb x y = true <-> lex_lt (rank (Prim2SF x)) (rank (Prim2SF y))).
Proof.
  intros Hx Hy. rewrite ltb_spec.
  apply SFltb_rank; now apply Prim2SF_not_nan.
Qed.

Lemma leb_refl x : not_nan x -> PrimFloat.leb x x = true.
Proof. intros Hx. apply leb_rank; auto. apply lex_le_refl. Qed.

Lemma leb_trans x y z :
  not_nan x -> not_nan y -> not_nan z ->
  PrimFloat.leb x y = true -> PrimFloat.leb y z = true ->
  PrimFloat.leb x z = true.
Proof.
  intros Hx Hy Hz Hxy Hyz. apply leb_rank; auto.
  apply lex_le_trans with (rank (Prim2SF y)); now apply leb_rank.
Qed.

Lemma ltb_leb x y :
  not_nan x -> not_nan y ->
  PrimFloat.ltb x y = true -> PrimFloat.leb x y = true.
Proof.
  intros Hx Hy H. apply leb_rank; auto. apply lex_lt_le. now apply ltb_rank.
Qed.

Lemma not_ltb_leb x y :
  not_nan x -> not_nan y ->
  PrimFloat.ltb y x = false -> PrimFloat.leb x y = true.
Proof.
  intros Hx Hy H. apply leb_rank; auto. apply not_lex_lt_le.
  intros Hlt. apply ltb_rank in Hlt; auto. congruence.
Qed.

(** [min] and [max] of numbers none of which is a NaN: an item of the list,
    below (above) every item. *)
Lemma fold_min_spec rest :
  forall best, not_nan best -> Forall not_nan rest ->
  let m := fold_left (fun best y => if PrimFloat.ltb y best then y else best)
                     rest best in
  not_nan m /\ In m (best :: rest)
  /\ forall y, In y (best :: rest) -> PrimFloat.leb m y = true.
Proof.
  induction rest as [|y rest IH]; intros best Hb Hr; simpl.
  - split; [exact Hb|]. split; [now left|].
    intros z [<-|[]]. now apply leb_refl.
  - apply Forall_cons in Hr as [Hy Hr].
    destruct (PrimFloat.ltb y best) eqn:E.
    + destruct (IH y Hy Hr) as (Hm & Hin & Hle).
      split; [exact Hm|]. split; [now right|].
      intros z [<-|Hz]; [|now apply Hle].
      apply leb_trans with y; auto; [apply Hle; now left | now apply ltb_leb].
    + destruct (IH best Hb Hr) as (Hm & Hin & Hle).
      split; [exact Hm|]. split; [destruct Hin; [now left | now right; right]|].
      intros z [<-|[<-|Hz]].
      * apply Hle. now left.
      * apply leb_trans with best; auto;
          [apply Hle; now left | now apply not_ltb_leb].
      * apply Hle. now right.
Qed.

Lemma fold_max_spec rest :
  forall best, not_nan best -> Forall not_nan rest ->
  let m := fold_left (fun best y => if PrimFloat.ltb best y then y else best)
                     rest best in
  not_nan m /\ In m (best :: rest)
  /\ forall y, In y (best :: rest) -> PrimFloat.leb y m = true.
Proof.
  induction rest as [|y rest IH]; intros best Hb Hr; simpl.
  - split; [exact Hb|]. split; [now left|].
    intros z [<-|[]]. now apply leb_refl.
  - apply Forall_cons in Hr as [Hy Hr].
    destruct (PrimFloat.ltb best y) eqn:E.
    + destruct (IH y Hy Hr) as (Hm & Hin & Hle).
      split; [exact Hm|]. split; [now right|].
      intros z [<-|Hz]; [|now apply Hle].
      apply leb_trans with y; auto; [now apply ltb_leb | apply Hle; now left].
    + destruct (IH best Hb Hr) as (Hm & Hin & Hle).
      split; [exact Hm|]. split; [destruct Hin; [now left | now right; right]|].
      intros z [<-|[<-|Hz]].
      * apply Hle. now left.
      * apply leb_trans with best; auto;
          [now apply not_ltb_leb | apply Hle; now left].
      * apply Hle. now right.
Qed.

Lemma min_max_spec values :
  values <> [] -> Forall not_nan values ->
  exists mn mx,
    Py.min values = Ok mn /\ Py.max values = Ok mx
    /\ In mn values /\ In mx values
    /\ (forall x, In x values ->
          PrimFloat.leb mn x = true /\ PrimFloat.leb x mx = true)
    /\ PrimFloat.leb mn mx = true.
Proof.
  intros Hne Hall. destruct values as [|x rest]; [congruence|].
  apply Forall_cons in Hall as [Hx Hr].
  destruct (fold_min_spec rest x Hx Hr) as (Hn & Hin & Hle).
  destruct (fold_max_spec rest x Hx Hr) as (Hn' & Hin' & Hle').
  eexists. eexists. split; [reflexivity|]. split; [reflexivity|].
  split; [exact Hin|]. split; [exact Hin'|]. split.
  - intros z Hz. split; [now apply Hle | now apply Hle'].
  - now apply Hle'.
Qed.

End FloatOrder.

(** *** sorted *)

Section SortedFacts.
Context {K A : Type}.
Variable lt : K -> K -> result bool.

Lemma insert_Permutation (x : K * A) l r :
  insert lt x l = Ok r -> Permutation (x :: l) r.
Proof.
  revert r. induction l as [|y l IH]; simpl; intros r H.
  - injection H as <-. apply Permutation_refl.
  - destruct (lt (fst x) (fst y)) as [[|]|e]; simpl in H; try discriminate.
    + injection H as <-. apply Permutation_refl.
    + destruct (insert lt x l) as [r'|e]; simpl in H; try discriminate.
      injection H as <-.
      apply Permutation_trans with (y :: x :: l); [apply perm_swap|].
      apply perm_skip. now apply IH.
Qed.

Lemma fold_insert_Raise l e :
  fold_left (fun acc x => bind acc (@insert K A lt x)) l (Raise e) = Raise e.
Proof. induction l as [|x l IH]; simpl; [reflexivity | exact IH]. Qed.

Lemma fold_insert_Permutation (l acc r : list (K * A)) :
  fold_left (fun acc x => bind acc (insert lt x)) l (Ok acc) = Ok r ->
  Permutation (acc ++ l)%list r.
Proof.
  revert acc. induction l as [|x l IH]; simpl; intros acc H.
  - injection H as <-. rewrite app_nil_r. apply Permutation_refl.
  - destruct (insert lt x acc) as [acc'|e] eqn:E.
    + apply Permutation_trans with (acc' ++ l)%list; [|now apply IH].
      apply Permutation_trans with ((x :: acc) ++ l)%list.
      * apply Permutation_sym, Permutation_middle.
      * apply Permutation_app_tail. now apply insert_Permutation.
    + rewrite fold_insert_Raise in H. discriminate.
Qed.

Lemma sort_Permutation (l r : list (K * A)) : sort lt l = Ok r -> Permutation l r.
Proof. intros H. exact (fold_insert_Permutation l [] r H). Qed.

Lemma mapM_length {B C} (f : B -> result C) l ys :
  mapM f l = Ok ys -> length ys = length l.
Proof.
  revert ys. induction l as [|x l IH]; simpl; intros ys H.
  - now injection H as <-.
  - destruct (f x) as [y|e]; simpl in H; try discriminate.
    destruct (mapM f l) as [ys'|e]; simpl in H; try discriminate.
    injection H as <-. simpl. now rewrite (IH ys').
Qed.

Lemma map_snd_combine (ks : list K) (l : list A) :
  length ks = length l -> map snd (combine ks l) = l.
Proof.
  revert l. induction ks as [|k ks IH]; intros [|x l]; simpl; try discriminate.
  - reflexivity.
  - intros H. injection H as H. now rewrite IH.
Qed.

(** Whenever [sorted] returns, what it returns is a rearrangement of the
    list it was given. *)
Lemma sorted_Permutation key reverse (data out : list A) :
  sorted lt key reverse data = Ok out -> Permutation data out.
Proof.
  unfold sorted. intros H.
  destruct (mapM key data) as [keys|e] eqn:Ek; simpl in H; try discriminate.
  destruct (sort lt _) as [r|e] eqn:Es; simpl in H; try discriminate.
  injection H as <-.
  apply sort_Permutation in Es.
  rewrite <- (map_snd_combine keys data (mapM_length _ _ _ Ek)) at 1.
  apply Permutation_map.
  destruct reverse.
  - apply Permutation_trans with (rev (combine keys data));
      [apply Permutation_rev|].
    apply Permutation_trans with r; [exact Es | apply Permutation_rev].
  - exact Es.
Qed.

End SortedFacts.

(** ** Aggregation *)

Section Aggregation.
Import CSVProcessor.




(** What [aggregate] computes on a well-formed [column=function]. *)
Lemma aggregate_spec self column function d :
  contains "="%char column = false ->
  contains "="%char function = false ->
  aggregate self (column ++ "=" ++ function)%string d =
  let operation := lower (strip function) in
  let values := numeric_values (strip column) (data_or_self self d) in
  match values with
  | [] => Ok {[ operation := zero ]}
  | _ =>
      match lookup_assoc operation (operations values) with
      | None => Raise (ValueError (UnknownOperation operation))
      | Some f => bind f (fun x => Ok {[ operation := x ]})
      end
  end.
Proof.
  intros Hc Hf. unfold aggregate.
  change (column ++ "=" ++ function)%string
    with (column ++ String "="%char function)%string.
  rewrite (split_once _ _ _ Hc Hf). reflexivity.
Qed.

Lemma min_nonempty x rest : exists m, Py.min (x :: rest) = Ok m.
Proof. eexists. reflexivity. Qed.

Lemma max_nonempty x rest : exists m, Py.max (x :: rest) = Ok m.
Proof. eexists. reflexivity. Qed.

(** Either table, applied to a function name it knows and to a list that is
    not empty, gives a number. *)
Lemma operations_nonempty operation x rest :
  In operation ["avg"; "min"; "max"] ->
  exists f y,
    lookup_assoc operation (operations (x :: rest)) = Some f
    /\ f = Ok y /\ function_result operation (x :: rest) y.
Proof.
  unfold function_result.
  intros [<-|[<-|[<-|[]]]]; eexists; eexists;
    (split; [reflexivity | split; [reflexivity|]]);
    repeat split; try discriminate; reflexivity.
Qed.

Lemma AGGREGATIONS_nonempty operation x rest :
  In operation ["avg"; "min"; "max"] ->
  exists f y,
    lookup_assoc operation Main.AGGREGATIONS = Some f
    /\ f (x :: rest) = Ok (Some y)
    /\ function_result operation (x :: rest) y.
Proof.
  unfold function_result.
  intros [<-|[<-|[<-|[]]]]; eexists; eexists;
    (split; [reflexivity | split; [reflexivity|]]);
    repeat split; try discriminate; reflexivity.
Qed.

Lemma mapM_cells_numbers col (rows : list Main.row) :
  (forall r, In r rows ->
     exists cell x, r !! col = Some cell /\ float_of_string cell = Some x) ->
  mapM (fun r => bind (Main.getitem r col) to_float) rows
  = Ok (coerced_cells col rows).
Proof.
  induction rows as [|r rows IH]; simpl; intros H; [reflexivity|].
  destruct (H r (or_introl eq_refl)) as (cell & x & Hc & Hx).
  unfold Main.getitem at 1, to_float at 1. rewrite Hc. cbn [bind].
  rewrite Hx. cbn [bind].
  rewrite IH by (intros r' Hr'; apply H; now right). reflexivity.
Qed.

Lemma mapM_cells_not_number col (rows : list Main.row) :
  (forall r, In r rows -> r !! col <> None) ->
  (exists r cell, In r rows /\ r !! col = Some cell
                  /\ float_of_string cell = None) ->
  mapM (fun r => bind (Main.getitem r col) to_float) rows
  = Raise (ValueError CouldNotConvert).
Proof.
  induction rows as [|r rows IH]; simpl; intros Hall (r0 & c0 & Hin & Hc & Hx);
    [tauto|].
  pose proof (Hall r (or_introl eq_refl)) as Hr.
  unfold Main.getitem at 1, to_float at 1.
  destruct (r !! col) as [cell|] eqn:E; [|congruence]. cbn [bind].
  destruct (float_of_string cell) as [x|] eqn:Ex; [|reflexivity]. cbn [bind].
  rewrite IH; [reflexivity| |].
  - intros r' Hr'. apply Hall. now right.
  - destruct Hin as [->|Hin]; [congruence|]. now exists r0, c0.
Qed.

Lemma main_aggregate_spec rows col func :
  contains "="%char col = false ->
  Main.aggregate rows (col ++ "=" ++ func)%string =
  let operation := lower (strip func) in
  match lookup_assoc operation Main.AGGREGATIONS with
  | None => Raise (ValueError (UnsupportedFunction operation))
  | Some f =>
      bind (match mapM (fun r => bind (Main.getitem r (strip col)) to_float)
                       rows with
            | Raise (ValueError _) => Raise (ValueError (ColumnNotNumeric col))
            | r => r
            end) (fun values =>
      bind (f values) (fun x => Ok {[ operation := x ]}))
  end.
Proof.
  intros Hc. unfold Main.aggregate.
  change (col ++ "=" ++ func)%string with (col ++ String "="%char func)%string.
  rewrite contains_app, contains_cons_same, orb_true_r. cbn [negb].
  now rewrite (split1_app _ _ _ Hc).
Qed.

(** The list [aggregate] collects is the list of the number cells of the
    column: the same numbers, in the same order, as often. *)
Lemma numeric_values_number_cells column rows :
  numeric_values column rows = number_cells column rows.
Proof.
  unfold number_cells. induction rows as [|r rows IH]; simpl; [reflexivity|].
  unfold holds_number at 1.
  destruct (r !! column) as [[x|s]|] eqn:E; simpl; rewrite IH;
    try reflexivity.
  unfold number_in. now rewrite E.
Qed.

(** When a list with a row, or no list, is passed, the rows used are the
    ones the docstring names. *)
Lemma data_or_self_rows_in_use self d :
  d <> Some [] -> data_or_self self d = rows_in_use self d.
Proof. destruct d as [[|r l]|]; [congruence | reflexivity | reflexivity]. Qed.

(** C2 (as the code has it). For a spec [column=function] with a function
    among avg, min, max:
    - the CSVProcessor variant never raises; from the rows in use (the list
      passed, which has a row, or the stored rows when none is passed) it
      collects the numbers of the column, one for each row whose cell is a
      number, in the order of the rows and as often as they occur, and
      answers 0.0 when there is none, the function of that list otherwise;
    - main.py answers the function of the cells when every row has a cell
      of the column that is a number, and raises the [ValueError] of a
      column that is not numeric when a cell is not a number. *)
Theorem C2_aggregate_collects_numbers
  (self : t) (rows : list Main.row) (column function : string)
  (d : option (list row)) :
  contains "="%char column = false ->
  contains "="%char function = false ->
  d <> Some [] ->
  let operation := lower (strip function) in
  let col := strip column in
  let collected := number_cells col (rows_in_use self d) in
  In operation ["avg"; "min"; "max"] ->
  (exists x,
     aggregate self (column ++ "=" ++ function)%string d
     = Ok {[ operation := x ]}
     /\ (collected = [] -> x = zero)
     /\ (collected <> [] -> function_result operation collected x))
  /\ ((forall r, In r rows ->
         exists cell x, r !! col = Some cell /\ float_of_string cell = Some x) ->
      rows <> [] ->
      exists x,
        Main.aggregate rows (column ++ "=" ++ function)%string
        = Ok {[ operation := Some x ]}
        /\ function_result operation (coerced_cells col rows) x)
  /\ ((forall r, In r rows -> r !! col <> None) ->
      (exists r cell, In r rows /\ r !! col = Some cell
                      /\ float_of_string cell = None) ->
      Main.aggregate rows (column ++ "=" ++ function)%string
      = Raise (ValueError (ColumnNotNumeric column))).
Proof.
  intros Hc Hf Hd operation col collected Hop.
  split; [|split].
  - rewrite (aggregate_spec _ _ _ _ Hc Hf). cbv zeta.
    rewrite (data_or_self_rows_in_use _ _ Hd), numeric_values_number_cells.
    fold operation col collected.
    destruct collected as [|x rest].
    + exists zero. split; [reflexivity|]. split; [reflexivity | congruence].
    + destruct (operations_nonempty operation x rest Hop)
        as (f & y & -> & -> & Hy).
      exists y. split; [reflexivity|]. split; [discriminate | intros _; exact Hy].
  - intros Hall Hne.
    rewrite (main_aggregate_spec _ _ _ Hc). cbv zeta. fold operation col.
    rewrite (mapM_cells_numbers col rows Hall). cbn [bind].
    assert (Hcells : coerced_cells col rows <> []).
    { destruct rows as [|r rows]; [congruence|]. simpl.
      destruct (Hall r (or_introl eq_refl)) as (cell & x & -> & ->).
      discriminate. }
    destruct (coerced_cells col rows) as [|x rest]; [congruence|].
    destruct (AGGREGATIONS_nonempty operation x rest Hop)
      as (f & y & -> & E & Hy).
    rewrite E. cbn [bind]. now exists y.
  - intros Hall Hbad.
    rewrite (main_aggregate_spec _ _ _ Hc). cbv zeta. fold operation col.
    rewrite (mapM_cells_not_number col rows Hall Hbad).
    destruct Hop as [<-|[<-|[<-|[]]]]; reflexivity.
Qed.

Lemma C2_witness :
  let cheap : Main.row := {[ "name" := "poco"; "price" := "299" ]} in
  let dear : Main.row := {[ "name" := "iphone"; "price" := "999" ]} in
  let odd : Main.row := {[ "name" := "redmi"; "price" := "n/a" ]} in
  let one : row := {[ "price" := VFloat 1 ]} in
  let four : row := {[ "price" := VFloat 4 ]} in
  let text : row := {[ "price" := VStr "n/a" ]} in
  let bare : row := {[ "name" := VStr "nokia" ]} in
  let self := {| data := [one; text; one; bare; four] |} in
  (exists x,
     aggregate self "price = AVG" None = Ok {[ "avg" := x ]}
     /\ function_result "avg" [1; 1; 4]%float x)
  /\ (exists x,
        aggregate self "price=min" (Some [four; one]) = Ok {[ "min" := x ]}
        /\ function_result "min" [4; 1]%float x)
  /\ (exists x,
        Main.aggregate [cheap; dear] "price = MAX" = Ok {[ "max" := Some x ]}
        /\ function_result "max" (coerced_cells "price" [cheap; dear]) x)
  /\ Main.aggregate [cheap; odd; dear] "price = MAX"
     = Raise (ValueError (ColumnNotNumeric "price ")).
Proof.
  intros cheap dear odd one four text bare self.
  pose proof (C2_aggregate_collects_numbers self [cheap; dear]
                "price " " AVG" None eq_refl eq_refl ltac:(discriminate)
                (or_introl eq_refl)) as H0.
  pose proof (C2_aggregate_collects_numbers self [cheap; dear]
                "price" "min" (Some [four; one]) eq_refl eq_refl
                ltac:(discriminate)
                (or_intror (or_introl eq_refl))) as H3.
  pose proof (C2_aggregate_collects_numbers self [cheap; dear]
                "price " " MAX" None eq_refl eq_refl ltac:(discriminate)
                (or_intror (or_intror (or_introl eq_refl)))) as H1.
  pose proof (C2_aggregate_collects_numbers self [cheap; odd; dear]
                "price " " MAX" None eq_refl eq_refl ltac:(discriminate)
                (or_intror (or_intror (or_introl eq_refl)))) as H2.
  split; [|split; [|split]].
  - destruct (proj1 H0) as (x & E & _ & Hx). exists x. split; [exact E|].
    apply Hx. discriminate.
  - destruct (proj1 H3) as (x & E & _ & Hx). exists x. split; [exact E|].
    apply Hx. discriminate.
  - apply (proj1 (proj2 H1)); [|discriminate].
    intros r [<-|[<-|[]]].
    + exists "299", 299%float. split; reflexivity.
    + exists "999", 999%float. split; reflexivity.
  - apply (proj2 (proj2 H2)).
    + intros r [<-|[<-|[<-|[]]]]; vm_compute; discriminate.
    + exists odd, "n/a". split; [right; now left | split; reflexivity].
Defined.

(** C2 as stated fails: in main.py the row whose price is not a number is
    not skipped, the aggregation ends with an error. *)
Lemma C2_counterexample :
  let dear : Main.row := {[ "price" := "999" ]} in
  let odd : Main.row := {[ "price" := "n/a" ]} in
  float_of_string "n/a" = None
  /\ Main.aggregate [dear; odd] "price=avg"
     = Raise (ValueError (ColumnNotNumeric "price")).
Proof. vm_compute. auto. Qed.

(** C7 (as the code has it). When a number at least is collected and none
    of the numbers collected is a NaN, the minimum and the maximum are
    numbers of the column with minimum <= x <= maximum for every number x
    collected, so minimum <= maximum; the average is the quotient
    [sum(values) / len(values)] of floats (nothing is said of its place: see
    [C7_counterexample]). *)
Theorem C7_minimum_le_maximum
  (self : t) (rows : list Main.row) (column : string)
  (d : option (list row)) :
  contains "="%char column = false ->
  let col := strip column in
  (let values := numeric_values col (data_or_self self d) in
   values <> [] -> Forall not_nan values ->
   exists mn mx,
     aggregate self (column ++ "=min")%string d = Ok {[ "min" := mn ]}
     /\ aggregate self (column ++ "=max")%string d = Ok {[ "max" := mx ]}
     /\ aggregate self (column ++ "=avg")%string d
        = Ok {[ "avg" := average values ]}
     /\ In mn values /\ In mx values
     /\ (forall x, In x values ->
           PrimFloat.leb mn x = true /\ PrimFloat.leb x mx = true)
     /\ PrimFloat.leb mn mx = true)
  /\ (let values := coerced_cells col rows in
      rows <> [] ->
      (forall r, In r rows ->
         exists cell x, r !! col = Some cell /\ float_of_string cell = Some x) ->
      Forall not_nan values ->
      exists mn mx,
        Main.aggregate rows (column ++ "=min")%string
        = Ok {[ "min" := Some mn ]}
        /\ Main.aggregate rows (column ++ "=max")%string
           = Ok {[ "max" := Some mx ]}
        /\ Main.aggregate rows (column ++ "=avg")%string
           = Ok {[ "avg" := Some (average values) ]}
        /\ In mn values /\ In mx values
        /\ (forall x, In x values ->
              PrimFloat.leb mn x = true /\ PrimFloat.leb x mx = true)
        /\ PrimFloat.leb mn mx = true).
Proof.
  intros Hc col. split.
  - intros values Hne Hnan.
    destruct (min_max_spec values Hne Hnan)
      as (mn & mx & Emin & Emax & Hmn & Hmx & Hall & Hle).
    exists mn, mx.
    change (column ++ "=min")%string with (column ++ "=" ++ "min")%string.
    change (column ++ "=max")%string with (column ++ "=" ++ "max")%string.
    change (column ++ "=avg")%string with (column ++ "=" ++ "avg")%string.
    rewrite (aggregate_spec self column "min" d Hc eq_refl),
      (aggregate_spec self column "max" d Hc eq_refl),
      (aggregate_spec self column "avg" d Hc eq_refl). cbv zeta.
    fold col values.
    change (lower (strip "min")) with "min".
    change (lower (strip "max")) with "max".
    change (lower (strip "avg")) with "avg".
    destruct values as [|x rest] eqn:Ev; [congruence|].
    unfold operations. cbn [lookup_assoc String.eqb Ascii.eqb Bool.eqb].
    rewrite Emin, Emax. cbn [bind].
    repeat (split; [first [reflexivity | assumption]|]). assumption.
  - intros values Hne Hall Hnan.
    assert (Hcells : values <> []).
    { unfold values. destruct rows as [|r rows']; [congruence|]. simpl.
      destruct (Hall r (or_introl eq_refl)) as (cell & x & -> & ->).
      discriminate. }
    destruct (min_max_spec values Hcells Hnan)
      as (mn & mx & Emin & Emax & Hmn & Hmx & Hbounds & Hle).
    exists mn, mx.
    change (column ++ "=min")%string with (column ++ "=" ++ "min")%string.
    change (column ++ "=max")%string with (column ++ "=" ++ "max")%string.
    change (column ++ "=avg")%string with (column ++ "=" ++ "avg")%string.
    rewrite !(main_aggregate_spec _ _ _ Hc). cbv zeta.
    fold col.
    change (lower (strip "min")) with "min".
    change (lower (strip "max")) with "max".
    change (lower (strip "avg")) with "avg".
    rewrite (mapM_cells_numbers col rows Hall). fold values.
    unfold Main.AGGREGATIONS.
    cbn [lookup_assoc String.eqb Ascii.eqb Bool.eqb bind].
    rewrite Emin, Emax. cbn [bind].
    destruct values as [|x rest] eqn:Ev; [congruence|].
    repeat (split; [first [reflexivity | assumption]|]). assumption.
Qed.

Lemma C7_witness :
  let cheap : Main.row := {[ "name" := "poco"; "price" := "299" ]} in
  let dear : Main.row := {[ "name" := "iphone"; "price" := "999" ]} in
  let odd : Main.row := {[ "name" := "redmi"; "price" := "n/a" ]} in
  (exists mn mx,
     aggregate (init [dear; odd; cheap]) "price=min" None
     = Ok {[ "min" := mn ]}
     /\ aggregate (init [dear; odd; cheap]) "price=max" None
        = Ok {[ "max" := mx ]}
     /\ PrimFloat.leb mn mx = true)
  /\ (exists mn mx,
        Main.aggregate [dear; cheap] "price=min" = Ok {[ "min" := Some mn ]}
        /\ Main.aggregate [dear; cheap] "price=max" = Ok {[ "max" := Some mx ]}
        /\ PrimFloat.leb mn mx = true).
Proof.
  intros cheap dear odd.
  pose proof (C7_minimum_le_maximum (init [dear; odd; cheap]) [dear; cheap]
                "price" None eq_refl) as [H1 H2].
  split.
  - destruct H1 as (mn & mx & E1 & E2 & _ & _ & _ & _ & Hle).
    + discriminate.
    + repeat constructor.
    + exists mn, mx. now repeat split.
  - destruct H2 as (mn & mx & E1 & E2 & _ & _ & _ & _ & Hle).
    + discriminate.
    + intros r [<-|[<-|[]]].
      * exists "999", 999%float. split; reflexivity.
      * exists "299", 299%float. split; reflexivity.
    + repeat constructor.
    + exists mn, mx. now repeat split.
Defined.

(** C7 as stated fails: three cells 0.1.  Their sum is rounded up to
    0.30000000000000004, and the third of it to 0.10000000000000002, above
    the maximum 0.1. *)
Lemma C7_counterexample :
  let r : Main.row := {[ "rating" := "0.1" ]} in
  exists av mx,
    Main.aggregate [r; r; r] "rating=avg" = Ok {[ "avg" := Some av ]}
    /\ Main.aggregate [r; r; r] "rating=max" = Ok {[ "max" := Some mx ]}
    /\ aggregate (init [r; r; r]) "rating=avg" None = Ok {[ "avg" := av ]}
    /\ aggregate (init [r; r; r]) "rating=max" None = Ok {[ "max" := mx ]}
    /\ float_of_string "0.10000000000000002" = Some av
    /\ float_of_string "0.1" = Some mx
    /\ PrimFloat.leb av mx = false.
Proof.
  eexists. eexists.
  split; [vm_compute; reflexivity|].
  split; [vm_compute; reflexivity|].
  repeat split; vm_compute; reflexivity.
Qed.

(** The same average under the plain summation of older interpreters. *)
Example average_of_three_tenths_plain :
  exists x, float_of_string "0.1" = Some x
            /\ sum [x; x; x] = sum_plain [x; x; x]
            /\ PrimFloat.leb (sum_plain [x; x; x] / float_of_nat 3) x = false.
Proof. eexists. split; [reflexivity|]. split; vm_compute; reflexivity. Qed.

(** Two other ways out of the interval: a cell [nan] (no comparison with a
    NaN holds), and a sum that overflows. *)
Example aggregate_nan :
  let r : Main.row := {[ "rating" := "nan" ]} in
  Main.aggregate [r] "rating=min" = Ok {[ "min" := Some nan ]}
  /\ Main.aggregate [r] "rating=avg" = Ok {[ "avg" := Some nan ]}
  /\ PrimFloat.leb nan nan = false.
Proof. vm_compute. auto. Qed.

Example aggregate_overflow :
  let r : Main.row := {[ "rating" := "1.7976931348623157e308" ]} in
  exists mx,
    Main.aggregate [r; r] "rating=max" = Ok {[ "max" := Some mx ]}
    /\ Main.aggregate [r; r] "rating=avg" = Ok {[ "avg" := Some infinity ]}
    /\ PrimFloat.leb infinity mx = false.
Proof. eexists. split; [vm_compute; reflexivity|]. split; vm_compute; reflexivity. Qed.

(** With no number collected, the three functions give the same 0.0. *)
Lemma aggregate_empty_zero self column function d :
  contains "="%char column = false ->
  contains "="%char function = false ->
  numeric_values (strip column) (data_or_self self d) = [] ->
  aggregate self (column ++ "=" ++ function)%string d
  = Ok {[ lower (strip function) := zero ]}.
Proof.
  intros Hc Hf Hv. rewrite (aggregate_spec _ _ _ _ Hc Hf). cbv zeta.
  now rewrite Hv.
Qed.

(** C3: in main.py the rows are an empty list (a filter that kept none):
    avg answers [None], min and max end with the [ValueError] of the
    built-ins on an empty sequence.  The CSVProcessor variant answers 0.0
    for the three. *)
Theorem C3_main_empty_aggregation_avg_None_min_max_raise :
  Main.aggregate [] "price=avg" = Ok {[ "avg" := None ]}
  /\ Main.aggregate [] "price=min" = Raise (ValueError EmptySequence)
  /\ Main.aggregate [] "price=max" = Raise (ValueError EmptySequence)
  /\ aggregate {| data := [] |} "price=avg" None = Ok {[ "avg" := zero ]}
  /\ aggregate {| data := [] |} "price=min" None = Ok {[ "min" := zero ]}
  /\ aggregate {| data := [] |} "price=max" None = Ok {[ "max" := zero ]}.
Proof. vm_compute. auto 7. Qed.



End Aggregation.

(** ** Filtering *)

Section Comprehensions.
Context {A : Type}.

Lemma filterM_pure (p : A -> result bool) (q : A -> bool) l :
  (forall x, In x l -> p x = Ok (q x)) ->
  filterM p l = Ok (List.filter q l).
Proof.
  induction l as [|x l IH]; simpl; intros H; [reflexivity|].
  rewrite (H x (or_introl eq_refl)). simpl.
  rewrite IH by (intros y Hy; apply H; now right). reflexivity.
Qed.

(** When the only exception the condition can raise is [e], and it does
    raise it on some item, the comprehension ends with [e]. *)
Lemma filterM_some_raise (p : A -> result bool) l e :
  (forall x, In x l -> (exists b, p x = Ok b) \/ p x = Raise e) ->
  (exists x, In x l /\ p x = Raise e) ->
  filterM p l = Raise e.
Proof.
  induction l as [|x l IH]; simpl; intros Hall (y & Hin & Hy); [tauto|].
  destruct (Hall x (or_introl eq_refl)) as [[b Hb]|Hx].
  - rewrite Hb. simpl. rewrite IH; [reflexivity| |].
    + intros z Hz. apply Hall. now right.
    + destruct Hin as [->|Hin]; [congruence|]. now exists y.
  - now rewrite Hx.
Qed.

End Comprehensions.

Section MainFilter.
Import Main.

Lemma parse_condition_nonempty cond x :
  parse_condition cond = Ok x -> cond <> EmptyString.
Proof. intros H ->. discriminate. Qed.

(** Number literal, every cell a number: the rows are compared as numbers. *)
Lemma filter_rows_numbers data cond col op lit v :
  parse_condition cond = Ok (col, op, lit) ->
  float_of_string lit = Some v ->
  (forall r, In r data ->
     exists cell x, r !! col = Some cell /\ float_of_string cell = Some x) ->
  filter_rows data (Some cond) = Ok (List.filter (number_test col op v) data).
Proof.
  intros Hp Hv Hall. unfold filter_rows.
  destruct cond as [|c cond]; [discriminate|].
  rewrite Hp. cbn [bind]. unfold to_float at 1. rewrite Hv.
  rewrite (filterM_pure _ (number_test col op v)); [reflexivity|].
  intros r Hr. destruct (Hall r Hr) as (cell & x & Hc & Hx).
  unfold getitem, number_test, to_float. rewrite Hc. cbn [bind].
  rewrite Hx. cbn [bind]. now destruct op.
Qed.

(** Text literal, every row with the column: the rows are compared as text. *)
Lemma filter_rows_text_literal data cond col op lit :
  parse_condition cond = Ok (col, op, lit) ->
  float_of_string lit = None ->
  (forall r, In r data -> r !! col <> None) ->
  filter_rows data (Some cond) = Ok (List.filter (text_test col op lit) data).
Proof.
  intros Hp Hv Hall. unfold filter_rows.
  destruct cond as [|c cond]; [discriminate|].
  rewrite Hp. cbn [bind]. unfold to_float at 1. rewrite Hv.
  apply filterM_pure. intros r Hr. specialize (Hall r Hr).
  unfold getitem, text_test. destruct (r !! col) as [cell|]; [|congruence].
  cbn [bind]. now destruct op.
Qed.

(** Number literal with [=], and a cell of the column that is not a number:
    every cell is then compared, as text, with the number, and no row is
    kept. *)
Lemma filter_rows_eq_number_mixed data cond col lit v :
  parse_condition cond = Ok (col, eq, lit) ->
  float_of_string lit = Some v ->
  (forall r, In r data -> r !! col <> None) ->
  (exists r cell, In r data /\ r !! col = Some cell
                  /\ float_of_string cell = None) ->
  filter_rows data (Some cond) = Ok [].
Proof.
  intros Hp Hv Hall (r & cell & Hin & Hc & Hx). unfold filter_rows.
  destruct cond as [|c cond]; [discriminate|].
  rewrite Hp. cbn [bind]. unfold to_float at 1. rewrite Hv.
  rewrite (filterM_some_raise _ data (ValueError CouldNotConvert)).
  - cbn [except_ValueError].
    rewrite (filterM_pure _ (fun _ => false)).
    + clear. induction data as [|r data IH]; simpl; [reflexivity | exact IH].
    + intros r' Hr'. specialize (Hall r' Hr'). unfold getitem.
      destruct (r' !! col); [reflexivity | congruence].
  - intros r' Hr'. specialize (Hall r' Hr'). unfold getitem, to_float.
    destruct (r' !! col) as [cell'|]; [|congruence]. cbn [bind].
    destruct (float_of_string cell'); [left; eexists; reflexivity | now right].
  - exists r. split; [exact Hin|]. unfold getitem, to_float.
    rewrite Hc. cbn [bind]. now rewrite Hx.
Qed.

(** C10. In main.py, with a number literal, whether [filter_rows] keeps a
    row depends on the other rows: the same row is kept in one list and
    dropped in another, where a cell of the column that is not a number
    makes every cell be compared, as text, with the number
    ([filter_rows_eq_number_mixed]). *)
Theorem C10_filter_rows_depends_on_other_rows :
  exists (cond col lit : string) (v : float) (r : row)
         (d1 d2 out1 out2 : list row),
    parse_condition cond = Ok (col, eq, lit)
    /\ float_of_string lit = Some v
    /\ In r d1 /\ In r d2
    /\ filter_rows d1 (Some cond) = Ok out1 /\ In r out1
    /\ filter_rows d2 (Some cond) = Ok out2 /\ ~ In r out2.
Proof.
  pose (r := ({[ "price" := "5" ]} : row)).
  pose (other := ({[ "price" := "n/a" ]} : row)).
  exists "price=5", "price", "5", 5%float, r, [r], [r; other], [r], [].
  repeat split; try (vm_compute; reflexivity); try (now left).
  intros [].
Qed.

End MainFilter.

(** ** Parsing a condition *)

Section ParseCondition.

Lemma split_two c s a b : split c s = [a; b] -> cut_once c s a b.
Proof.
  revert a. induction s as [|d s IH]; simpl; intros a; [discriminate|].
  destruct (Ascii.eqb d c) eqn:E.
  - apply Ascii.eqb_eq in E. subst d. intros H. injection H as <- H.
    destruct (contains c s) eqn:Hc.
    + destruct (split1_present c s Hc) as (a' & b' & -> & Ha & _).
      rewrite (split_app _ _ _ Ha) in H.
      injection H as _ H. now destruct (split_ne_nil c b').
    + rewrite (split_absent _ _ Hc) in H. injection H as <-.
      now repeat split.
  - destruct (split c s) as [|p ps] eqn:Es; [discriminate|].
    intros H. injection H as <- ->.
    destruct (IH p eq_refl) as (-> & Ha & Hb).
    repeat split; simpl; [now rewrite E | exact Hb].
Qed.

Lemma cut_once_split c s a b : cut_once c s a b -> split c s = [a; b].
Proof. intros (-> & Ha & Hb). now apply split_once. Qed.

Lemma cut_once_contains c s a b : cut_once c s a b -> contains c s = true.
Proof.
  intros (-> & _ & _). now rewrite contains_app, contains_cons_same, orb_true_r.
Qed.

Lemma not_once_split c s :
  ~ occurs_once c s ->
  match split c s with [_; _] => False | _ => True end.
Proof.
  intros H. destruct (split c s) as [|a [|b [|x l]]] eqn:E; auto.
  apply H. exists a, b. now apply split_two.
Qed.

Import CSVProcessor.

Lemma _parse_condition_from_none ops cond :
  (forall c, In c ops -> ~ occurs_once c cond) ->
  _parse_condition_from ops cond = Raise (ValueError BadCondition).
Proof.
  induction ops as [|c ops IH]; simpl; intros H; [reflexivity|].
  pose proof (not_once_split c cond (H c (or_introl eq_refl))) as Hs.
  rewrite IH by (intros c' Hc'; apply H; now right).
  destruct (contains c cond); [|reflexivity].
  destruct (split c cond) as [|a [|b [|x l]]]; try reflexivity. contradiction.
Qed.

Lemma _parse_condition_from_first pre c post cond a b :
  (forall c', In c' pre -> ~ occurs_once c' cond) ->
  cut_once c cond a b ->
  _parse_condition_from (pre ++ c :: post)%list cond
  = Ok (strip a, String c EmptyString, coerce (strip b)).
Proof.
  intros Hpre Hcut. induction pre as [|c' pre IH]; simpl.
  - rewrite (cut_once_contains _ _ _ _ Hcut), (cut_once_split _ _ _ _ Hcut).
    reflexivity.
  - pose proof (not_once_split c' cond (Hpre c' (or_introl eq_refl))) as Hs.
    rewrite IH by (intros c'' Hc''; apply Hpre; now right).
    destruct (contains c' cond); [|reflexivity].
    destruct (split c' cond) as [|a' [|b' [|x l]]]; try reflexivity.
    contradiction.
Qed.

Lemma _parse_condition_from_Ok ops cond column operator v :
  _parse_condition_from ops cond = Ok (column, operator, v) ->
  exists pre c post a b,
    ops = (pre ++ c :: post)%list
    /\ (forall c', In c' pre -> ~ occurs_once c' cond)
    /\ cut_once c cond a b
    /\ column = strip a /\ operator = String c EmptyString
    /\ v = coerce (strip b).
Proof.
  induction ops as [|c ops IH]; simpl; [discriminate|].
  assert (Hrec : ~ occurs_once c cond ->
                 _parse_condition_from ops cond = Ok (column, operator, v) ->
                 exists pre c0 post a b,
                   c :: ops = (pre ++ c0 :: post)%list
                   /\ (forall c', In c' pre -> ~ occurs_once c' cond)
                   /\ cut_once c0 cond a b
                   /\ column = strip a /\ operator = String c0 EmptyString
                   /\ v = coerce (strip b)).
  { intros Hn H. destruct (IH H) as (pre & c0 & post & a & b & -> & Hp & R).
    exists (c :: pre), c0, post, a, b. split; [reflexivity|].
    split; [|exact R]. intros c' [<-|Hc']; auto. }
  destruct (contains c cond) eqn:Hc.
  - destruct (split c cond) as [|a [|b [|x l]]] eqn:Es.
    + now destruct (split_ne_nil c cond).
    + apply Hrec. intros (a' & b' & Hcut).
      rewrite (cut_once_split _ _ _ _ Hcut) in Es. discriminate.
    + intros H. injection H as <- <- <-.
      exists [], c, ops, a, b. split; [reflexivity|].
      split; [intros c' []|]. split; [now apply split_two|]. now repeat split.
    + apply Hrec. intros (a' & b' & Hcut).
      rewrite (cut_once_split _ _ _ _ Hcut) in Es. discriminate.
  - apply Hrec. intros (a' & b' & Hcut).
    rewrite (cut_once_contains _ _ _ _ Hcut) in Hc. discriminate.
Qed.

Lemma _parse_condition_from_Raise ops cond e :
  _parse_condition_from ops cond = Raise e ->
  e = ValueError BadCondition
  /\ forall c, In c ops -> ~ occurs_once c cond.
Proof.
  induction ops as [|c ops IH]; simpl.
  - intros H. injection H as <-. split; [reflexivity | intros c []].
  - assert (Hrec : ~ occurs_once c cond ->
                   _parse_condition_from ops cond = Raise e ->
                   e = ValueError BadCondition
                   /\ forall c', In c' (c :: ops) -> ~ occurs_once c' cond).
    { intros Hn H. destruct (IH H) as [-> Hall]. split; [reflexivity|].
      intros c' [<-|Hc']; auto. }
    destruct (contains c cond) eqn:Hc.
    + destruct (split c cond) as [|a [|b [|x l]]] eqn:Es; try discriminate;
        apply Hrec; intros (a' & b' & Hcut);
        rewrite (cut_once_split _ _ _ _ Hcut) in Es; discriminate.
    + apply Hrec. intros (a' & b' & Hcut).
      rewrite (cut_once_contains _ _ _ _ Hcut) in Hc. discriminate.
Qed.

Import Main.

Lemma parse_condition_from_none ops cond :
  (forall c, In c (map fst ops) -> contains c cond = false) ->
  parse_condition_from ops cond = Raise (ValueError BadCondition).
Proof.
  induction ops as [|[c f] ops IH]; simpl; intros H; [reflexivity|].
  rewrite (H c (or_introl eq_refl)). apply IH. intros c' Hc'. apply H. now right.
Qed.

Lemma parse_condition_from_first pre c f post cond a b :
  (forall c', In c' (map fst pre) -> contains c' cond = false) ->
  cond = (a ++ String c b)%string -> contains c a = false ->
  parse_condition_from (pre ++ (c, f) :: post)%list cond
  = Ok (strip a, f, strip b).
Proof.
  intros Hpre -> Ha. induction pre as [|[c' f'] pre IH]; simpl.
  - rewrite contains_app, contains_cons_same, orb_true_r.
    now rewrite (split1_app _ _ _ Ha).
  - simpl in Hpre. rewrite (Hpre c' (or_introl eq_refl)).
    apply IH. intros c'' Hc''. apply Hpre. now right.
Qed.

Lemma parse_condition_from_Raise ops cond e :
  parse_condition_from ops cond = Raise e ->
  e = ValueError BadCondition
  /\ forall c, In c (map fst ops) -> contains c cond = false.
Proof.
  induction ops as [|[c f] ops IH]; simpl.
  - intros H. injection H as <-. split; [reflexivity | intros c []].
  - destruct (contains c cond) eqn:Hc.
    + destruct (split1_present c cond Hc) as (a & b & _ & _ & ->).
      discriminate.
    + intros H. destruct (IH H) as [-> Hall]. split; [reflexivity|].
      intros c' [<-|Hc']; auto.
Qed.

Lemma parse_condition_from_Ok ops cond col op lit :
  parse_condition_from ops cond = Ok (col, op, lit) ->
  exists pre c post a b,
    ops = (pre ++ (c, op) :: post)%list
    /\ (forall c', In c' (map fst pre) -> contains c' cond = false)
    /\ cond = (a ++ String c b)%string /\ contains c a = false
    /\ col = strip a /\ lit = strip b.
Proof.
  induction ops as [|[c f] ops IH]; simpl; [discriminate|].
  destruct (contains c cond) eqn:Hc.
  - destruct (split1_present c cond Hc) as (a & b & E & Ha & ->).
    cbn [unpack2 bind]. intros H. injection H as <- <- <-.
    exists [], c, ops, a, b. repeat split; auto. intros c' [].
  - intros H. destruct (IH H) as (pre & c0 & post & a & b & -> & Hp & R).
    exists ((c, f) :: pre), c0, post, a, b. split; [reflexivity|].
    split; [|exact R]. intros c' [<-|Hc']; auto.
Qed.

(** C4 (as the code has it).  [_parse_condition] of the CSVProcessor variant
    fails, with the [ValueError] of its last line and no other exception,
    exactly when none of [>], [<], [=] occurs exactly once in the text; it
    returns otherwise, for the first of the three, in this order, that
    occurs exactly once, the text before it and the text after it, both
    stripped, the second coerced to a number when it reads as one.
    [parse_condition] of main.py fails exactly when none of the three occurs
    at all; it cuts otherwise at the first occurrence of the first of the
    three that occurs, and returns the two parts stripped, the second as
    text.  A part may be empty in both. *)
Theorem C4_parse_condition (cond : string) :
  (_parse_condition cond = Raise (ValueError BadCondition)
   <-> forall c, In c operators -> ~ occurs_once c cond)
  /\ (forall e, _parse_condition cond = Raise e -> e = ValueError BadCondition)
  /\ (forall column operator v,
        _parse_condition cond = Ok (column, operator, v)
        <-> exists pre c post a b,
              operators = (pre ++ c :: post)%list
              /\ (forall c', In c' pre -> ~ occurs_once c' cond)
              /\ cut_once c cond a b
              /\ column = strip a /\ operator = String c EmptyString
              /\ v = coerce (strip b))
  /\ (parse_condition cond = Raise (ValueError BadCondition)
      <-> forall c, In c (map fst OPERATORS) -> contains c cond = false)
  /\ (forall e, parse_condition cond = Raise e -> e = ValueError BadCondition)
  /\ (forall col op lit,
        parse_condition cond = Ok (col, op, lit)
        <-> exists pre c post a b,
              OPERATORS = (pre ++ (c, op) :: post)%list
              /\ (forall c', In c' (map fst pre) -> contains c' cond = false)
              /\ cond = (a ++ String c b)%string /\ contains c a = false
              /\ col = strip a /\ lit = strip b).
Proof.
  unfold _parse_condition, parse_condition.
  split; [|split; [|split; [|split; [|split]]]].
  - split.
    + intros H. now apply _parse_condition_from_Raise in H.
    + apply _parse_condition_from_none.
  - intros e H. now apply _parse_condition_from_Raise in H.
  - intros column operator v. split.
    + apply _parse_condition_from_Ok.
    + intros (pre & c & post & a & b & -> & Hpre & Hcut & -> & -> & ->).
      now apply _parse_condition_from_first.
  - split.
    + intros H. now apply parse_condition_from_Raise in H.
    + apply parse_condition_from_none.
  - intros e H. now apply parse_condition_from_Raise in H.
  - intros col op lit. split.
    + apply parse_condition_from_Ok.
    + intros (pre & c & post & a & b & -> & Hpre & E & Ha & -> & ->).
      now apply parse_condition_from_first.
Qed.

Lemma C4_witness :
  _parse_condition "a>b>c = 7 " = Ok ("a>b>c", "=", VFloat 7%float)
  /\ parse_condition "a>b>c = 7 " = Ok ("a", gt, "b>c = 7")
  /\ parse_condition "price" = Raise (ValueError BadCondition).
Proof.
  split; [|split].
  - apply (proj1 (proj2 (proj2 (C4_parse_condition "a>b>c = 7 ")))).
    exists [">"%char; "<"%char], "="%char, [], "a>b>c ", " 7 ".
    split; [reflexivity|]. split.
    + intros c' [<-|[<-|[]]] (a & b & Hcut);
        apply cut_once_split in Hcut; discriminate.
    + repeat split.
  - apply (proj2 (proj2 (proj2 (proj2 (proj2
             (C4_parse_condition "a>b>c = 7 ")))))).
    exists [], ">"%char, [("<"%char, lt); ("="%char, eq)], "a", "b>c = 7 ".
    split; [reflexivity|]. split; [intros c' []|]. now repeat split.
  - apply (proj1 (proj2 (proj2 (proj2 (C4_parse_condition "price"))))).
    intros c [<-|[<-|[<-|[]]]]; reflexivity.
Defined.

(** C4 as stated fails: a condition that starts with its operator is cut in
    an empty column and a literal, and is accepted; and when the first
    operator found occurs twice, the next one is tried. *)
Lemma C4_counterexample :
  split ">"%char ">5" = [""; "5"]
  /\ _parse_condition ">5" = Ok ("", ">", VFloat 5%float)
  /\ parse_condition ">5" = Ok ("", gt, "5")
  /\ split ">"%char "a>b>c=d" = ["a"; "b"; "c=d"]
  /\ _parse_condition "a>b>c=d" = Ok ("a>b>c", "=", VStr "d").
Proof. vm_compute. auto 6. Qed.

End ParseCondition.

Section CSVProcessorFilter.
Import CSVProcessor.

Lemma filter_data_number_literal self cond column operator v :
  _parse_condition cond = Ok (column, operator, VFloat v) ->
  In operator [">"; "<"] ->
  filter_data self cond
  = Ok (List.filter (number_cell_test column operator v) (data self)).
Proof.
  intros Hp Hop. unfold filter_data. rewrite Hp. cbn [bind].
  apply filterM_pure. intros r _. unfold matches, number_cell_test.
  destruct (r !! column) as [[x|t]|]; [| |reflexivity];
    destruct Hop as [<-|[<-|[]]]; cbn; try reflexivity.
  now destruct (PrimFloat.ltb v x).
Qed.

(** Rows whose cell is text, or that have no such cell, are never kept. *)
Lemma number_cell_test_text column operator v r :
  (forall x, r !! column <> Some (VFloat x)) ->
  number_cell_test column operator v r = false.
Proof.
  intros H. unfold number_cell_test.
  destruct (r !! column) as [[x|t]|]; try reflexivity. now destruct (H x).
Qed.

(** C1 (as the code has it). For a condition with [>] or [<]:
    - CSVProcessor variant, the literal being a number: [filter_data] never
      raises and keeps exactly the rows whose cell is a number above (below)
      the literal; a row whose cell is text, or absent, is left out;
    - main.py, every row having the column: when the literal is not a
      number the cells are compared with it as text, and the rows above
      (below) are kept; when the literal and every cell are numbers they are
      compared as numbers. *)
Theorem C1_ordering_filter
  (self : t) (rows : list Main.row) (cond : string) :
  (forall column operator v,
     _parse_condition cond = Ok (column, operator, VFloat v) ->
     In operator [">"; "<"] ->
     filter_data self cond
     = Ok (List.filter (number_cell_test column operator v) (data self)))
  /\ (forall col op lit,
        Main.parse_condition cond = Ok (col, op, lit) -> op <> Main.eq ->
        float_of_string lit = None ->
        (forall r, In r rows -> r !! col <> None) ->
        Main.filter_rows rows (Some cond)
        = Ok (List.filter (text_test col op lit) rows))
  /\ (forall col op lit v,
        Main.parse_condition cond = Ok (col, op, lit) -> op <> Main.eq ->
        float_of_string lit = Some v ->
        (forall r, In r rows ->
           exists cell x,
             r !! col = Some cell /\ float_of_string cell = Some x) ->
        Main.filter_rows rows (Some cond)
        = Ok (List.filter (number_test col op v) rows)).
Proof.
  split; [|split].
  - intros column operator v. apply filter_data_number_literal.
  - intros col op lit Hp _. now apply filter_rows_text_literal.
  - intros col op lit v Hp _. now apply filter_rows_numbers.
Qed.

Lemma C1_witness :
  let cheap : Main.row := {[ "name" := "poco"; "price" := "299" ]} in
  let dear : Main.row := {[ "name" := "iphone"; "price" := "999" ]} in
  let odd : Main.row := {[ "name" := "redmi"; "price" := "n/a" ]} in
  filter_data (init [cheap; odd; dear]) "price > 500"
  = Ok [_convert_numeric_values dear]
  /\ Main.filter_rows [cheap; odd; dear] (Some "name<poco") = Ok [dear]
  /\ Main.filter_rows [cheap; dear] (Some "price > 500") = Ok [dear].
Proof.
  intros cheap dear odd. split; [|split].
  - exact (proj1 (C1_ordering_filter (init [cheap; odd; dear]) []
                    "price > 500")
             "price" ">" 500%float eq_refl (or_introl eq_refl)).
  - refine (proj1 (proj2 (C1_ordering_filter (init []) [cheap; odd; dear]
                            "name<poco"))
              "name" Main.lt "poco" eq_refl _ eq_refl _).
    + discriminate.
    + intros r [<-|[<-|[<-|[]]]]; vm_compute; discriminate.
  - refine (proj2 (proj2 (C1_ordering_filter (init []) [cheap; dear]
                            "price > 500"))
              "price" Main.gt "500" 500%float eq_refl _ eq_refl _).
    + discriminate.
    + intros r [<-|[<-|[]]].
      * exists "299", 299%float. split; reflexivity.
      * exists "999", 999%float. split; reflexivity.
Defined.

(** C1 as stated fails: in main.py the literal [apple] is not a number, and
    the row is kept, its name coming after [apple] in the order of text. *)
Lemma C1_counterexample :
  let r : Main.row := {[ "name" := "redmi" ]} in
  float_of_string "apple" = None
  /\ Main.filter_rows [r] (Some "name>apple") = Ok [r].
Proof. vm_compute. auto. Qed.

(** The two other ways [>] and [<] depart from it end in a [TypeError]: in
    main.py a number literal and a cell that is not a number, in the
    CSVProcessor variant a text literal and a cell that is a number. *)
Example filter_rows_number_literal_text_cell :
  Main.filter_rows [ {[ "price" := "999" ]}; {[ "price" := "n/a" ]} ]
                   (Some "price>500")
  = Raise TypeError.
Proof. vm_compute. reflexivity. Qed.

Example filter_data_text_literal_number_cell :
  filter_data (init [ {[ "price" := "999" ]} ]) "price>abc" = Raise TypeError.
Proof. vm_compute. reflexivity. Qed.

End CSVProcessorFilter.

(** ** Sorting *)

Section MainSort.
Import Main.

(** Whenever [sort_data] of main.py returns, it returns a rearrangement of
    its input. *)
Lemma sort_data_Permutation data order out :
  sort_data data order = Ok out -> Permutation data out.
Proof.
  unfold sort_data.
  destruct order as [[|c order]|];
    try (intros H; injection H as <-; apply Permutation_refl).
  destruct (parse_order _) as [[col asc]|e]; simpl; try discriminate.
  destruct (sorted _ (fun x => bind (getitem x col) to_float) _ _)
    as [r|[m| |k]] eqn:E1; simpl; try discriminate.
  - intros H. injection H as <-. eapply sorted_Permutation, E1.
  - apply sorted_Permutation.
Qed.

End MainSort.

Section MainDirection.
Import Main.

Lemma parse_order_spec col direction :
  contains "="%char col = false ->
  parse_order (col ++ "=" ++ direction)%string
  = Ok (strip col, String.eqb (lower (strip direction)) "asc").
Proof.
  intros Hc. unfold parse_order.
  change (col ++ "=" ++ direction)%string
    with (col ++ String "="%char direction)%string.
  rewrite contains_app, contains_cons_same, orb_true_r. cbn [negb].
  now rewrite (split1_app _ _ _ Hc).
Qed.

(** Any direction other than a spelling of asc sorts as desc does. *)
Lemma sort_data_direction_not_asc data col direction :
  contains "="%char col = false ->
  lower (strip direction) <> "asc" ->
  sort_data data (Some (col ++ "=" ++ direction)%string)
  = sort_data data (Some (col ++ "=desc")%string).
Proof.
  intros Hc Hd. unfold sort_data.
  change (col ++ "=desc")%string with (col ++ "=" ++ "desc")%string.
  rewrite !(parse_order_spec _ _ Hc).
  apply String.eqb_neq in Hd. rewrite Hd.
  change (String.eqb (lower (strip "desc")) "asc") with false.
  destruct col; reflexivity.
Qed.

(** C5: main.py takes a direction that is neither asc nor desc for desc;
    the CSVProcessor variant refuses it. *)
Theorem C5_main_sorts_descending_on_unknown_direction :
  let cheap : row := {[ "price" := "199" ]} in
  let dear : row := {[ "price" := "999" ]} in
  parse_order "price=bogus" = Ok ("price", false)
  /\ sort_data [cheap; dear] (Some "price=bogus") = Ok [dear; cheap]
  /\ sort_data [dear; cheap] (Some "price=asc") = Ok [cheap; dear]
  /\ CSVProcessor.sort_data (CSVProcessor.init [cheap; dear]) "price=bogus"
       None
     = Raise (ValueError BadDirection).
Proof. vm_compute. auto. Qed.

End MainDirection.

Section CSVProcessorSort.
Import CSVProcessor.

(** What [sort_data] computes on a well-formed [column=direction]. *)
Lemma sort_data_spec self column direction d :
  contains "="%char column = false ->
  contains "="%char direction = false ->
  sort_data self (column ++ "=" ++ direction)%string d =
  let dir := lower (strip direction) in
  if negb (String.eqb dir "asc" || String.eqb dir "desc")
  then Raise (ValueError BadDirection)
  else
    let rows := data_or_self self d in
    sorted key_lt (sort_key (strip column) (is_numeric (strip column) rows))
           (String.eqb dir "desc") rows.
Proof.
  intros Hc Hd. unfold sort_data.
  change (column ++ "=" ++ direction)%string
    with (column ++ String "="%char direction)%string.
  rewrite (split_once _ _ _ Hc Hd). reflexivity.
Qed.

(** Whenever [sort_data] returns, it returns a rearrangement of the rows it
    sorted, which are [data_or_self self d]. *)
Lemma sort_data_Permutation_in_use self order_by d out :
  sort_data self order_by d = Ok out ->
  Permutation (data_or_self self d) out.
Proof.
  unfold sort_data.
  destruct (unpack2 _) as [[column direction]|e]; simpl; try discriminate.
  destruct (negb _); try discriminate.
  apply sorted_Permutation.
Qed.

Lemma insert_none_item x l :
  none_item x -> Forall (fun y => text_item y \/ none_item y) l ->
  insert key_lt x l = Ok (l ++ [x])%list.
Proof.
  unfold none_item. intros Hx Hl.
  induction Hl as [|y l Hy Hl IH]; simpl; [reflexivity|].
  rewrite Hx. destruct Hy as [[s Hy]|Hy]; rewrite Hy; cbn.
  - rewrite IH. reflexivity.
  - rewrite IH. reflexivity.
Qed.

Lemma insert_text_item x texts nones :
  text_item x -> Forall text_item texts -> Forall none_item nones ->
  exists texts',
    insert key_lt x (texts ++ nones)%list = Ok (texts' ++ nones)%list
    /\ Forall text_item texts'.
Proof.
  intros Hx Ht Hn. induction Ht as [|y texts Hy Ht IH]; simpl.
  - destruct Hn as [|y nones Hy Hn]; simpl.
    + exists [x]. split; [reflexivity | now constructor].
    + destruct Hx as [s Hs]. red in Hy. rewrite Hs, Hy. cbn.
      exists [x]. split; [reflexivity|]. constructor; [now exists s | constructor].
  - destruct IH as (texts' & E & Ht').
    pose proof Hx as [s Hs]. pose proof Hy as [u Hu].
    rewrite Hs, Hu. cbn.
    destruct (String.eqb s u); cbn.
    + rewrite E. cbn. exists (y :: texts'). split; [reflexivity | now constructor].
    + destruct (str_lt s u); cbn.
      * exists (x :: y :: texts). split; [reflexivity|].
        now repeat constructor.
      * rewrite E. cbn. exists (y :: texts').
        split; [reflexivity | now constructor].
Qed.

Lemma filter_none_item l :
  Forall none_item l -> List.filter missing_item l = l.
Proof.
  induction 1 as [|y l Hy _ IH]; simpl; [reflexivity|].
  unfold missing_item at 1. rewrite Hy. simpl. now rewrite IH.
Qed.

Lemma Forall_filter_none_item l :
  Forall (fun y => text_item y \/ none_item y) l ->
  Forall none_item (List.filter missing_item l).
Proof.
  induction 1 as [|y l Hy _ IH]; simpl; [constructor|].
  destruct Hy as [[s Hy]|Hy]; unfold missing_item at 1; rewrite Hy; simpl.
  - exact IH.
  - now constructor.
Qed.

(** Sorting such items: the text items come first, the items without a
    value follow in the order they had. *)
Lemma fold_insert_text l :
  Forall (fun y => text_item y \/ none_item y) l ->
  forall texts nones,
    Forall text_item texts -> Forall none_item nones ->
    exists texts',
      fold_left (fun acc x => bind acc (insert key_lt x)) l
                (Ok (texts ++ nones)%list)
      = Ok (texts' ++ nones ++ List.filter missing_item l)%list
      /\ Forall text_item texts'.
Proof.
  induction 1 as [|x l Hx Hl IH]; intros texts nones Ht Hn; simpl.
  - exists texts. now rewrite app_nil_r.
  - destruct Hx as [Hx|Hx].
    + destruct (insert_text_item x texts nones Hx Ht Hn) as (t' & E & Ht').
      rewrite E. destruct Hx as [s Hs].
      unfold missing_item at 1. rewrite Hs. simpl.
      now apply IH.
    + rewrite insert_none_item; [|exact Hx|].
      * unfold missing_item at 1. red in Hx. rewrite Hx. simpl.
        rewrite <- app_assoc.
        destruct (IH texts (nones ++ [x])%list Ht) as (t' & E & Ht').
        { apply Forall_app. split; [exact Hn | now repeat constructor]. }
        exists t'. rewrite E. split; [|exact Ht'].
        now rewrite <- app_assoc.
      * apply Forall_app. split.
        -- eapply Forall_impl; [exact Ht|]. now left.
        -- eapply Forall_impl; [exact Hn|]. now right.
Qed.

Lemma sort_text_items l :
  Forall (fun y => text_item y \/ none_item y) l ->
  exists texts,
    sort key_lt l = Ok (texts ++ List.filter missing_item l)%list
    /\ Forall text_item texts.
Proof.
  intros Hl.
  destruct (fold_insert_text l Hl [] []) as (t & E & Ht); [constructor ..|].
  exists t. split; [exact E | exact Ht].
Qed.


Lemma mapM_sort_key_text column rows :
  mapM (sort_key column false) rows = Ok (map (text_key column) rows).
Proof.
  induction rows as [|r rows IH]; simpl; [reflexivity|].
  rewrite IH. unfold sort_key, text_key, lacks. simpl.
  destruct (r !! column); reflexivity.
Qed.

Lemma combine_keyed column rows :
  combine (map (text_key column) rows) rows = keyed column rows.
Proof. induction rows as [|r rows IH]; simpl; [|rewrite IH]; reflexivity. Qed.

Lemma map_snd_keyed column rows : map snd (keyed column rows) = rows.
Proof. induction rows as [|r rows IH]; simpl; [|rewrite IH]; reflexivity. Qed.

Lemma filter_missing_keyed column rows :
  List.filter missing_item (keyed column rows)
  = keyed column (List.filter (lacks column) rows).
Proof.
  induction rows as [|r rows IH]; simpl; [reflexivity|].
  unfold missing_item at 1. simpl. destruct (lacks column r); simpl;
    now rewrite IH.
Qed.

Lemma keyed_text_or_none column rows :
  (forall r v, In r rows -> r !! column = Some v -> exists s, v = VStr s) ->
  Forall (fun y => text_item y \/ none_item y) (keyed column rows).
Proof.
  intros H. apply List.Forall_forall. intros [k r] Hin.
  apply in_map_iff in Hin as (r' & E & Hr). injection E as <- <-.
  unfold text_item, none_item, text_key, lacks. simpl.
  destruct (r' !! column) as [v|] eqn:Ev.
  - destruct (H r' v Hr Ev) as [s ->]. left. now exists s.
  - now right.
Qed.

Lemma is_numeric_text column rows r s :
  In r rows -> r !! column = Some (VStr s) -> is_numeric column rows = false.
Proof.
  intros Hin E. unfold is_numeric.
  destruct (forallb _ rows) eqn:F; [|reflexivity].
  rewrite forallb_forall in F. specialize (F r Hin). now rewrite E in F.
Qed.

(** The text items of a list of keyed rows are rows that have the column. *)
Lemma text_items_have_value column (items texts rest : list (key * row)) :
  Forall (fun it => fst it = text_key column (snd it)) items ->
  Permutation items (texts ++ rest)%list ->
  Forall text_item texts ->
  Forall (fun r => r !! column <> None) (map snd texts).
Proof.
  intros Hk Hp Ht. apply List.Forall_forall. intros r Hin.
  apply in_map_iff in Hin as ([k r'] & E & Hin). simpl in E. subst r'.
  rewrite List.Forall_forall in Hk, Ht.
  destruct (Ht _ Hin) as [s Hs]. simpl in Hs.
  assert (Hin' : In (k, r) items).
  { eapply Permutation_in; [apply Permutation_sym, Hp|].
    apply in_or_app. now left. }
  specialize (Hk _ Hin'). simpl in Hk. rewrite Hs in Hk.
  unfold text_key in Hk. injection Hk as _ Hk. now rewrite <- Hk.
Qed.

Lemma keyed_fst column rows :
  Forall (fun it => fst it = text_key column (snd it)) (keyed column rows).
Proof.
  apply List.Forall_forall. intros [k r] Hin.
  apply in_map_iff in Hin as (r' & E & _). now injection E as <- <-.
Qed.

(** Sorting the rows of a text column, in one direction and in the other. *)
Lemma sorted_text_column column rows (reverse : bool) :
  (forall r v, In r rows -> r !! column = Some v -> exists s, v = VStr s) ->
  let without := List.filter (lacks column) rows in
  exists with_value,
    sorted key_lt (sort_key column false) reverse rows
    = Ok (if reverse then without ++ with_value
          else with_value ++ without)%list
    /\ Forall (fun r => r !! column <> None) with_value.
Proof.
  intros Htext without. unfold sorted.
  rewrite mapM_sort_key_text. cbn [bind]. rewrite combine_keyed.
  pose proof (keyed_text_or_none column rows Htext) as Hitems.
  destruct reverse.
  - assert (Hrev : Forall (fun y => text_item y \/ none_item y)
                          (rev (keyed column rows))).
    { apply List.Forall_forall. intros y Hy. apply in_rev in Hy.
      rewrite List.Forall_forall in Hitems. auto. }
    destruct (sort_text_items _ Hrev) as (texts & E & Ht).
    rewrite E. cbn [bind].
    exists (map snd (rev texts)). split.
    + rewrite rev_app_distr, filter_rev, rev_involutive, map_app.
      now rewrite filter_missing_keyed, map_snd_keyed.
    + eapply (text_items_have_value column (keyed column rows) (rev texts)
                (rev (List.filter missing_item (rev (keyed column rows))))).
      * apply keyed_fst.
      * rewrite <- rev_app_distr.
        apply Permutation_trans with (rev (keyed column rows));
          [apply Permutation_rev|].
        apply Permutation_trans
          with (texts ++ List.filter missing_item (rev (keyed column rows)))%list;
          [now apply (sort_Permutation key_lt)|].
        eapply Permutation_trans;
          [apply Permutation_app_comm | apply Permutation_rev].
      * apply List.Forall_forall. intros y Hy. apply in_rev in Hy.
        rewrite List.Forall_forall in Ht. auto.
  - destruct (sort_text_items _ Hitems) as (texts & E & Ht).
    rewrite E. cbn [bind].
    exists (map snd texts). split.
    + rewrite map_app. now rewrite filter_missing_keyed, map_snd_keyed.
    + eapply text_items_have_value; [apply keyed_fst| |exact Ht].
      apply (sort_Permutation key_lt). exact E.
Qed.


Lemma mapM_sort_key_numeric_missing column rows r :
  is_numeric column rows = true -> In r rows -> r !! column = None ->
  mapM (sort_key column true) rows = Raise TypeError.
Proof.
  unfold is_numeric.
  induction rows as [|r' rows IH]; simpl; [tauto|].
  intros Hn Hin Hr. apply andb_prop in Hn as [Hn' Hn].
  unfold sort_key at 1. simpl.
  destruct (r' !! column) as [[x|t]|] eqn:E; simpl; try discriminate.
  - destruct Hin as [->|Hin]; [congruence|]. now rewrite (IH Hn Hin Hr).
  - reflexivity.
Qed.

(** When every value of the column is a number, a row without the column
    ends the sort with a [TypeError], in both directions. *)
Lemma sort_data_numeric_missing self column direction d r :
  contains "="%char column = false ->
  contains "="%char direction = false ->
  In (lower (strip direction)) ["asc"; "desc"] ->
  is_numeric (strip column) (data_or_self self d) = true ->
  In r (data_or_self self d) -> r !! strip column = None ->
  sort_data self (column ++ "=" ++ direction)%string d = Raise TypeError.
Proof.
  intros Hc Hd Hdir Hn Hin Hr.
  rewrite (sort_data_spec _ _ _ _ Hc Hd). cbv zeta.
  replace (negb _) with false.
  2:{ destruct Hdir as [<-|[<-|[]]]; reflexivity. }
  rewrite Hn. unfold sorted.
  now rewrite (mapM_sort_key_numeric_missing _ _ _ Hn Hin Hr).
Qed.

(** C6 (as the code has it). In the CSVProcessor variant, for a column whose
    values are all text, one row at least having one: ascending order puts
    the rows without the column after all the rows that have it, descending
    order puts them before all the rows that have it; the rows without the
    column keep the order they had, in both directions. *)
Theorem C6_rows_without_value_last_asc_first_desc
  self column asc desc d :
  contains "="%char column = false ->
  contains "="%char asc = false -> lower (strip asc) = "asc" ->
  contains "="%char desc = false -> lower (strip desc) = "desc" ->
  let col := strip column in
  let rows := data_or_self self d in
  let without := List.filter (lacks col) rows in
  (forall r v, In r rows -> r !! col = Some v -> exists s, v = VStr s) ->
  (exists r s, In r rows /\ r !! col = Some (VStr s)) ->
  Forall (fun r => r !! col = None) without
  /\ (exists with_value,
        sort_data self (column ++ "=" ++ asc)%string d
        = Ok (with_value ++ without)%list
        /\ Forall (fun r => r !! col <> None) with_value)
  /\ (exists with_value,
        sort_data self (column ++ "=" ++ desc)%string d
        = Ok (without ++ with_value)%list
        /\ Forall (fun r => r !! col <> None) with_value).
Proof.
  intros Hc Ha Easc Hd Edesc col rows without Htext (r & s & Hin & Hr).
  pose proof (is_numeric_text col rows r s Hin Hr) as Hnum.
  split; [|split].
  - apply List.Forall_forall. intros r' Hr'.
    apply filter_In in Hr' as [_ Hr']. unfold lacks in Hr'.
    now destruct (r' !! col).
  - rewrite (sort_data_spec _ _ _ _ Hc Ha). cbv zeta.
    rewrite Easc. fold col rows. rewrite Hnum. cbn [String.eqb negb orb].
    change (String.eqb "asc" "desc") with false.
    change (String.eqb "asc" "asc") with true. cbn [negb orb].
    exact (sorted_text_column col rows false Htext).
  - rewrite (sort_data_spec _ _ _ _ Hc Hd). cbv zeta.
    rewrite Edesc. fold col rows. rewrite Hnum.
    change (String.eqb "desc" "desc") with true.
    change (String.eqb "desc" "asc") with false. cbn [negb orb].
    exact (sorted_text_column col rows true Htext).
Qed.

Lemma C6_witness :
  let b : row := {[ "name" := VStr "b" ]} in
  let n : row := {[ "brand" := VStr "x" ]} in
  let a : row := {[ "name" := VStr "a" ]} in
  let self := {| data := [b; n; a] |} in
  Forall (fun r => r !! "name" = None) [n]
  /\ (exists with_value,
        sort_data self "name=asc" None = Ok (with_value ++ [n])%list
        /\ Forall (fun r => r !! "name" <> None) with_value)
  /\ (exists with_value,
        sort_data self "name= DESC" None = Ok ([n] ++ with_value)%list
        /\ Forall (fun r => r !! "name" <> None) with_value).
Proof.
  intros b n a self.
  apply (C6_rows_without_value_last_asc_first_desc
           self "name" "asc" " DESC" None);
    try reflexivity.
  - intros r v [<-|[<-|[<-|[]]]] H; vm_compute in H;
      try discriminate; injection H as <-; eexists; reflexivity.
  - exists b, "b". split; [now left | reflexivity].
Defined.

(** C6 as stated fails: in descending order the row without a name comes
    first. *)
Lemma C6_counterexample :
  let with_name : row := {[ "name" := VStr "redmi" ]} in
  let without_name : row := {[ "brand" := VStr "apple" ]} in
  without_name !! "name" = None
  /\ with_name !! "name" = Some (VStr "redmi")
  /\ sort_data {| data := [with_name; without_name] |} "name=desc" None
     = Ok [without_name; with_name].
Proof. vm_compute. auto. Qed.

(** C8: the list passed is the empty list (a filter that kept no row), the
    rows of the object are sorted and returned instead. *)
Theorem C8_sort_data_of_no_rows_returns_stored_rows :
  let r : row := {[ "price" := VFloat 1%float ]} in
  sort_data {| data := [r] |} "price=asc" (Some []) = Ok [r]
  /\ ~ Permutation [] [r].
Proof.
  split; [vm_compute; reflexivity | apply Permutation_nil_cons].
Qed.

Lemma sort_data_empty_list self order_by :
  sort_data self order_by (Some []) = sort_data self order_by None.
Proof. reflexivity. Qed.

End CSVProcessorSort.

(** ** Sorting: the order of the result *)

Lemma StronglySorted_rev {A} (R : A -> A -> Prop) l :
  StronglySorted R l -> StronglySorted (fun a b => R b a) (rev l).
Proof.
  induction 1 as [|x l Hs IH Hx]; simpl; [constructor|].
  apply StronglySorted_app. split; [|split].
  - intros a b Ha Hb. apply list_elem_of_In in Ha. apply in_rev in Ha.
    apply list_elem_of_In in Hb. destruct Hb as [<-|[]].
    rewrite List.Forall_forall in Hx. now apply Hx.
  - exact IH.
  - repeat constructor.
Qed.

Lemma mapM_pure {A B} (f : A -> result B) (g : A -> B) l :
  (forall x, In x l -> f x = Ok (g x)) -> mapM f l = Ok (map g l).
Proof.
  induction l as [|x l IH]; simpl; intros H; [reflexivity|].
  rewrite (H x (or_introl eq_refl)). cbn [bind].
  rewrite IH by (intros y Hy; apply H; now right). reflexivity.
Qed.

Lemma combine_map_self {A K} (kf : A -> K) l :
  combine (map kf l) l = map (fun a => (kf a, a)) l.
Proof. induction l as [|x l IH]; simpl; [|rewrite IH]; reflexivity. Qed.

Lemma map_snd_tagged {A K} (kf : A -> K) (l : list A) :
  map snd (map (fun a => (kf a, a)) l) = l.
Proof. induction l as [|x l IH]; simpl; [|rewrite IH]; reflexivity. Qed.

Lemma tagged_of_consistent {A K} (kf : A -> K) (r : list (K * A)) :
  Forall (fun it => fst it = kf (snd it)) r ->
  r = map (fun a => (kf a, a)) (map snd r).
Proof.
  induction 1 as [|[k a] r Hk _ IH]; simpl; [reflexivity|].
  simpl in Hk. subst k. now rewrite <- IH.
Qed.

Section TotalOrderSort.
Context {K A : Type}.
Variable lt : K -> K -> result bool.
Variable ltb : K -> K -> bool.
Variable P : K -> Prop.
Hypothesis lt_ltb : forall a b, P a -> P b -> lt a b = Ok (ltb a b).
Hypothesis ltb_asym :
  forall a b, P a -> P b -> ltb a b = true -> ltb b a = false.
Hypothesis le_trans :
  forall a b c, P a -> P b -> P c ->
                ltb b a = false -> ltb c b = false -> ltb c a = false.

Lemma insert_sorted (x : K * A) l :
  valid_item P x -> Forall (@valid_item K A P) l ->
  StronglySorted (@item_le K A ltb) l ->
  exists r, insert lt x l = Ok r /\ StronglySorted (@item_le K A ltb) r.
Proof.
  intros Hx Hl Hs. induction l as [|y l IH]; simpl.
  - exists [x]. split; [reflexivity | repeat constructor].
  - apply Forall_cons in Hl as [Hy Hl].
    apply StronglySorted_inv in Hs as [Hs Hyl].
    rewrite (lt_ltb _ _ Hx Hy). cbn [bind].
    destruct (ltb (fst x) (fst y)) eqn:E.
    + exists (x :: y :: l). split; [reflexivity|].
      constructor; [constructor; [exact Hs | exact Hyl]|].
      constructor; [now apply ltb_asym|].
      rewrite List.Forall_forall in Hyl, Hl |- *. intros z Hz.
      unfold item_le.
      apply (le_trans (fst x) (fst y) (fst z));
        [exact Hx | exact Hy | exact (Hl z Hz)
        | apply ltb_asym; assumption | exact (Hyl z Hz)].
    + destruct (IH Hl Hs) as (r & Er & Hr). rewrite Er. cbn [bind].
      exists (y :: r). split; [reflexivity|]. constructor; [exact Hr|].
      apply insert_Permutation in Er.
      rewrite List.Forall_forall in Hyl |- *. intros z Hz.
      apply (Permutation_in _ (Permutation_sym Er)) in Hz as [<-|Hz].
      * exact E.
      * now apply Hyl.
Qed.

Lemma sort_sorted_from l :
  Forall (@valid_item K A P) l ->
  forall acc,
    Forall (@valid_item K A P) acc ->
    StronglySorted (@item_le K A ltb) acc ->
  exists r, fold_left (fun acc x => bind acc (insert lt x)) l (Ok acc) = Ok r
            /\ StronglySorted (@item_le K A ltb) r.
Proof.
  induction 1 as [|x l Hx Hl IH]; intros acc Ha Hs; simpl.
  - now exists acc.
  - destruct (insert_sorted x acc Hx Ha Hs) as (r & Er & Hr). rewrite Er.
    apply IH; [|exact Hr].
    apply insert_Permutation in Er.
    rewrite List.Forall_forall in Ha |- *. intros z Hz.
    apply (Permutation_in _ (Permutation_sym Er)) in Hz as [<-|Hz]; auto.
Qed.

Lemma sort_sorted l :
  Forall (@valid_item K A P) l ->
  exists r, sort lt l = Ok r /\ StronglySorted (@item_le K A ltb) r
            /\ Permutation l r.
Proof.
  intros Hl.
  destruct (sort_sorted_from l Hl [] (List.Forall_nil _) (SSorted_nil _))
    as (r & Er & Hr).
  exists r. split; [exact Er|]. split; [exact Hr|].
  now apply (sort_Permutation lt).
Qed.

Lemma insert_last (x : K * A) l :
  valid_item P x -> Forall (@valid_item K A P) l ->
  Forall (fun y => (@item_le K A ltb) y x) l ->
  insert lt x l = Ok (l ++ [x])%list.
Proof.
  intros Hx Hl Hle. induction l as [|y l IH]; simpl; [reflexivity|].
  apply Forall_cons in Hl as [Hy Hl]. apply Forall_cons in Hle as [Hyx Hle].
  rewrite (lt_ltb _ _ Hx Hy). cbn [bind]. unfold item_le in Hyx. rewrite Hyx.
  now rewrite (IH Hl Hle).
Qed.

Lemma sort_of_sorted_from l :
  forall acc,
    Forall (@valid_item K A P) (acc ++ l)%list ->
    StronglySorted (@item_le K A ltb) (acc ++ l)%list ->
  fold_left (fun acc x => bind acc (insert lt x)) l (Ok acc)
  = Ok (acc ++ l)%list.
Proof.
  induction l as [|x l IH]; intros acc Hv Hs; simpl.
  - now rewrite app_nil_r.
  - rewrite insert_last.
    + cbn [bind]. rewrite (IH (acc ++ [x])%list); rewrite <- app_assoc; auto.
    + rewrite List.Forall_forall in Hv. apply Hv. apply in_or_app. right.
      now left.
    + rewrite List.Forall_forall in Hv |- *. intros z Hz. apply Hv.
      apply in_or_app. now left.
    + apply StronglySorted_app in Hs as (Hx & _ & _).
      rewrite List.Forall_forall. intros z Hz.
      apply Hx; [now apply list_elem_of_In | left].
Qed.

Lemma sort_of_sorted l :
  Forall (@valid_item K A P) l -> StronglySorted (@item_le K A ltb) l ->
  sort lt l = Ok l.
Proof. intros Hv Hs. exact (sort_of_sorted_from l [] Hv Hs). Qed.

Variable key : A -> result K.
Variable kf : A -> K.


Lemma tagged_sorted_asc l :
  StronglySorted (@item_le K A ltb) (map (fun a : A => (kf a, a)) l)
  <-> key_sorted ltb kf false l.
Proof.
  unfold key_sorted. induction l as [|x l IH]; simpl.
  - split; constructor.
  - rewrite !StronglySorted_cons, IH, !List.Forall_forall. split.
    + intros [H Hs]. split; [|exact Hs]. intros y Hy.
      apply (H (kf y, y)). apply in_map_iff. now exists y.
    + intros [H Hs]. split; [|exact Hs]. intros [k y] Hy.
      apply in_map_iff in Hy as (y' & E & Hy). injection E as <- <-.
      now apply H.
Qed.

Lemma tagged_sorted_desc l :
  StronglySorted (fun a b => @item_le K A ltb b a)
                 (map (fun a : A => (kf a, a)) l)
  <-> key_sorted ltb kf true l.
Proof.
  unfold key_sorted. induction l as [|x l IH]; simpl.
  - split; constructor.
  - rewrite !StronglySorted_cons, IH, !List.Forall_forall. split.
    + intros [H Hs]. split; [|exact Hs]. intros y Hy.
      apply (H (kf y, y)). apply in_map_iff. now exists y.
    + intros [H Hs]. split; [|exact Hs]. intros [k y] Hy.
      apply in_map_iff in Hy as (y' & E & Hy). injection E as <- <-.
      now apply H.
Qed.

Lemma tagged_valid l :
  (forall a, In a l -> key a = Ok (kf a) /\ P (kf a)) ->
  Forall (@valid_item K A P) (map (fun a : A => (kf a, a)) l).
Proof.
  intros H. apply List.Forall_forall. intros [k a] Hin.
  apply in_map_iff in Hin as (a' & E & Ha). injection E as <- <-.
  now apply H.
Qed.

Lemma tagged_consistent l :
  Forall (fun it : K * A => fst it = kf (snd it))
         (map (fun a : A => (kf a, a)) l).
Proof.
  apply List.Forall_forall. intros [k a] Hin.
  apply in_map_iff in Hin as (a' & E & _). now injection E as <- <-.
Qed.

(** On keys that [lt] orders, [sorted] returns the rows rearranged in the
    order of their keys. *)
Lemma sorted_total reverse data :
  (forall a, In a data -> key a = Ok (kf a) /\ P (kf a)) ->
  exists out,
    sorted lt key reverse data = Ok out
    /\ Permutation data out /\ key_sorted ltb kf reverse out.
Proof.
  intros H. unfold sorted.
  rewrite (mapM_pure key kf) by (intros a Ha; now apply H).
  cbn [bind]. rewrite combine_map_self.
  pose proof (tagged_valid data H) as Hv.
  pose proof (tagged_consistent data) as Hc.
  destruct reverse.
  - destruct (sort_sorted (rev (map (fun a : A => (kf a, a)) data)))
      as (r & Er & Hs & Hp).
    { apply List.Forall_forall. intros it Hit. apply in_rev in Hit.
      rewrite List.Forall_forall in Hv. now apply Hv. }
    rewrite Er. cbn [bind]. eexists. split; [reflexivity|].
    assert (Hp' : Permutation (map (fun a : A => (kf a, a)) data) (rev r)).
    { eapply Permutation_trans; [apply Permutation_rev|].
      eapply Permutation_trans; [exact Hp | apply Permutation_rev]. }
    split.
    + rewrite <- (map_snd_tagged kf data) at 1. now apply Permutation_map.
    + apply tagged_sorted_desc. rewrite <- tagged_of_consistent.
      * now apply StronglySorted_rev.
      * eapply Permutation_Forall; [exact Hp' | exact Hc].
  - destruct (sort_sorted (map (fun a : A => (kf a, a)) data) Hv)
      as (r & Er & Hs & Hp).
    rewrite Er. cbn [bind]. eexists. split; [reflexivity|]. split.
    + rewrite <- (map_snd_tagged kf data) at 1. now apply Permutation_map.
    + apply tagged_sorted_asc. rewrite <- tagged_of_consistent; [exact Hs|].
      eapply Permutation_Forall; [exact Hp | exact Hc].
Qed.

(** Rows already in the order of their keys are returned as they are. *)
Lemma sorted_of_sorted reverse data :
  (forall a, In a data -> key a = Ok (kf a) /\ P (kf a)) ->
  key_sorted ltb kf reverse data ->
  sorted lt key reverse data = Ok data.
Proof.
  intros H Hs. unfold sorted.
  rewrite (mapM_pure key kf) by (intros a Ha; now apply H).
  cbn [bind]. rewrite combine_map_self.
  pose proof (tagged_valid data H) as Hv.
  destruct reverse.
  - rewrite sort_of_sorted.
    + cbn [bind]. now rewrite rev_involutive, map_snd_tagged.
    + apply List.Forall_forall. intros it Hit. apply in_rev in Hit.
      rewrite List.Forall_forall in Hv. now apply Hv.
    + apply tagged_sorted_desc in Hs. apply StronglySorted_rev in Hs.
      exact Hs.
  - rewrite sort_of_sorted; [|exact Hv|now apply tagged_sorted_asc].
    cbn [bind]. now rewrite map_snd_tagged.
Qed.

End TotalOrderSort.

(** *** The orders of the keys *)

Section KeyOrders.

Lemma float_ltb_asym a b :
  not_nan a -> not_nan b ->
  PrimFloat.ltb a b = true -> PrimFloat.ltb b a = false.
Proof.
  intros Ha Hb H. apply (ltb_rank a b Ha Hb) in H.
  destruct (PrimFloat.ltb b a) eqn:E; [|reflexivity].
  apply (ltb_rank b a Hb Ha) in E.
  destruct (rank (Prim2SF a)) as [[x y] z], (rank (Prim2SF b)) as [[x' y'] z'].
  simpl in *. lia.
Qed.

Lemma float_le_trans a b c :
  not_nan a -> not_nan b -> not_nan c ->
  PrimFloat.ltb b a = false -> PrimFloat.ltb c b = false ->
  PrimFloat.ltb c a = false.
Proof.
  intros Ha Hb Hc H1 H2.
  destruct (PrimFloat.ltb c a) eqn:E; [|reflexivity].
  apply (ltb_rank c a Hc Ha) in E.
  assert (N1 : ~ lex_lt (rank (Prim2SF b)) (rank (Prim2SF a))).
  { intros H. apply (ltb_rank b a Hb Ha) in H. congruence. }
  assert (N2 : ~ lex_lt (rank (Prim2SF c)) (rank (Prim2SF b))).
  { intros H. apply (ltb_rank c b Hc Hb) in H. congruence. }
  destruct (rank (Prim2SF a)) as [[x y] z], (rank (Prim2SF b)) as [[x' y'] z'],
    (rank (Prim2SF c)) as [[x'' y''] z''].
  simpl in *. lia.
Qed.

Lemma ltb_false_iff_leb a b :
  not_nan a -> not_nan b ->
  (PrimFloat.ltb b a = false <-> PrimFloat.leb a b = true).
Proof.
  intros Ha Hb. split.
  - now apply not_ltb_leb.
  - intros H. apply (leb_rank a b Ha Hb) in H.
    destruct (PrimFloat.ltb b a) eqn:E; [|reflexivity].
    apply (ltb_rank b a Hb Ha) in E.
    destruct (rank (Prim2SF a)) as [[x y] z],
             (rank (Prim2SF b)) as [[x' y'] z'].
    simpl in *. lia.
Qed.

Lemma eqb_true_ltb_false a b :
  PrimFloat.eqb a b = true -> PrimFloat.ltb a b = false.
Proof.
  rewrite FloatAxioms.eqb_spec, FloatAxioms.ltb_spec. unfold SFeqb, SFltb.
  now destruct (SFcompare (Prim2SF a) (Prim2SF b)) as [[| |]|].
Qed.

(** The order of text. *)
Lemma ascii_compare_refl c : Ascii.compare c c = Eq.
Proof. apply N.compare_refl. Qed.

Lemma str_compare_refl s : String.compare s s = Eq.
Proof.
  induction s as [|c s IH]; simpl; [reflexivity|].
  now rewrite ascii_compare_refl.
Qed.

Lemma str_compare_le_trans a :
  forall b c, String.compare a b <> Gt -> String.compare b c <> Gt ->
              String.compare a c <> Gt.
Proof.
  induction a as [|x a IH]; intros [|y b] [|z c]; simpl; try congruence.
  unfold Ascii.compare.
  destruct (N.compare_spec (N_of_ascii x) (N_of_ascii y)) as [E1|L1|G1];
    destruct (N.compare_spec (N_of_ascii y) (N_of_ascii z)) as [E2|L2|G2];
    try congruence; intros H1 H2.
  - rewrite E1, E2, N.compare_refl. now apply (IH b c).
  - rewrite E1. apply N.compare_lt_iff in L2. now rewrite L2.
  - rewrite <- E2. apply N.compare_lt_iff in L1. now rewrite L1.
  - assert (L : (N_of_ascii x < N_of_ascii z)%N) by lia.
    apply N.compare_lt_iff in L. now rewrite L.
Qed.

Lemma str_lt_asym a b : str_lt a b = true -> str_lt b a = false.
Proof.
  unfold str_lt. rewrite (String.compare_antisym b a).
  now destruct (String.compare a b).
Qed.

Lemma str_le_trans a b c :
  str_lt b a = false -> str_lt c b = false -> str_lt c a = false.
Proof.
  unfold str_lt. intros H1 H2.
  assert (N1 : String.compare a b <> Gt).
  { rewrite String.compare_antisym.
    destruct (String.compare b a); simpl; congruence. }
  assert (N2 : String.compare b c <> Gt).
  { rewrite String.compare_antisym.
    destruct (String.compare c b); simpl; congruence. }
  pose proof (str_compare_le_trans a b c N1 N2) as N.
  rewrite String.compare_antisym in N.
  destruct (String.compare c a); simpl in N; congruence.
Qed.

End KeyOrders.

(** ** Sorting in main.py: the order of the result *)

Section MainSortKeys.
Import Main.

Lemma StronglySorted_impl_in {A} (R R' : A -> A -> Prop) l :
  (forall a b, In a l -> In b l -> R a b -> R' a b) ->
  StronglySorted R l -> StronglySorted R' l.
Proof.
  intros H Hs. induction Hs as [|x l Hs IH Hx]; constructor.
  - apply IH. intros a b Ha Hb. apply H; now right.
  - rewrite List.Forall_forall in Hx |- *. intros y Hy.
    apply H; [now left | now right | now apply Hx].
Qed.

Lemma spec_nonempty column direction :
  (column ++ "=" ++ direction)%string <> EmptyString.
Proof. destruct column; discriminate. Qed.

Lemma sort_data_unfold data column direction :
  contains "="%char column = false ->
  sort_data data (Some (column ++ "=" ++ direction)%string) =
  let col := strip column in
  let reverse := negb (String.eqb (lower (strip direction)) "asc") in
  except_ValueError
    (sorted (fun a b => Ok (PrimFloat.ltb a b))
            (fun x => bind (getitem x col) to_float) reverse data)
    (sorted (fun a b => Ok (str_lt a b))
            (fun x => getitem x col) reverse data).
Proof.
  intros Hc. unfold sort_data.
  destruct (column ++ "=" ++ direction)%string as [|c s] eqn:E.
  - now destruct (spec_nonempty column direction).
  - rewrite <- E. now rewrite (parse_order_spec _ _ Hc).
Qed.

Lemma number_key col (rows : list row) :
  all_numbers col rows ->
  forall r, In r rows ->
    bind (getitem r col) to_float = Ok (number_of col r)
    /\ not_nan (number_of col r).
Proof.
  intros H r Hr. destruct (H r Hr) as (cell & x & Hc & Hx & Hn).
  unfold getitem, to_float, number_of. rewrite Hc. cbn [bind]. now rewrite Hx.
Qed.

Lemma text_key_main col (rows : list row) :
  (forall r, In r rows -> r !! col <> None) ->
  forall r, In r rows -> getitem r col = Ok (text_of col r) /\ True.
Proof.
  intros H r Hr. specialize (H r Hr). unfold getitem, text_of.
  now destruct (r !! col).
Qed.

Lemma sorted_numbers col reverse (rows : list row) :
  all_numbers col rows ->
  exists out,
    sorted (fun a b => Ok (PrimFloat.ltb a b))
           (fun x => bind (getitem x col) to_float) reverse rows = Ok out
    /\ Permutation rows out
    /\ key_sorted PrimFloat.ltb (number_of col) reverse out.
Proof.
  intros H.
  apply (sorted_total (fun a b => Ok (PrimFloat.ltb a b)) PrimFloat.ltb
           not_nan).
  - reflexivity.
  - apply float_ltb_asym.
  - apply float_le_trans.
  - now apply number_key.
Qed.

Lemma sorted_numbers_again col reverse (rows : list row) :
  all_numbers col rows ->
  key_sorted PrimFloat.ltb (number_of col) reverse rows ->
  sorted (fun a b => Ok (PrimFloat.ltb a b))
         (fun x => bind (getitem x col) to_float) reverse rows = Ok rows.
Proof.
  intros H.
  apply (sorted_of_sorted (fun a b => Ok (PrimFloat.ltb a b)) PrimFloat.ltb
           not_nan).
  - reflexivity.
  - now apply number_key.
Qed.

Lemma sorted_texts col reverse (rows : list row) :
  (forall r, In r rows -> r !! col <> None) ->
  exists out,
    sorted (fun a b => Ok (str_lt a b)) (fun x => getitem x col) reverse rows
    = Ok out
    /\ Permutation rows out
    /\ key_sorted str_lt (text_of col) reverse out.
Proof.
  intros H.
  apply (sorted_total (fun a b => Ok (str_lt a b)) str_lt (fun _ => True)).
  - reflexivity.
  - intros a b _ _. apply str_lt_asym.
  - intros a b c _ _ _. apply str_le_trans.
  - now apply text_key_main.
Qed.

Lemma sorted_texts_again col reverse (rows : list row) :
  (forall r, In r rows -> r !! col <> None) ->
  key_sorted str_lt (text_of col) reverse rows ->
  sorted (fun a b => Ok (str_lt a b)) (fun x => getitem x col) reverse rows
  = Ok rows.
Proof.
  intros H.
  apply (sorted_of_sorted (fun a b => Ok (str_lt a b)) str_lt (fun _ => True)).
  - reflexivity.
  - now apply text_key_main.
Qed.

(** The numeric attempt of a column with a cell that is not a number. *)
Lemma sorted_numbers_ValueError col reverse (rows : list row) :
  some_text col rows ->
  sorted (fun a b => Ok (PrimFloat.ltb a b))
         (fun x => bind (getitem x col) to_float) reverse rows
  = Raise (ValueError CouldNotConvert).
Proof.
  intros [Hall Hbad]. unfold sorted.
  now rewrite (mapM_cells_not_number col rows Hall Hbad).
Qed.

End MainSortKeys.

Section MainSortOrder.
Import Main.

Lemma str_lt_false_leb a b : str_lt b a = false <-> String.leb a b = true.
Proof.
  unfold str_lt, String.leb. rewrite (String.compare_antisym a b).
  destruct (String.compare b a); simpl; split; congruence.
Qed.

Lemma Permutation_all_numbers col (rows out : list row) :
  Permutation rows out -> all_numbers col rows -> all_numbers col out.
Proof.
  intros Hp H r Hr. apply H. eapply Permutation_in; [|exact Hr].
  now apply Permutation_sym.
Qed.

Lemma Permutation_some_text col (rows out : list row) :
  Permutation rows out -> some_text col rows -> some_text col out.
Proof.
  intros Hp [Hall (r & cell & Hr & Hc & Hx)]. split.
  - intros r' Hr'. apply Hall. eapply Permutation_in; [|exact Hr'].
    now apply Permutation_sym.
  - exists r, cell. split; [|now split]. eapply Permutation_in; eauto.
Qed.

(** X1. main.py [sort_data] on a column whose cells all read as numbers,
    none a NaN: the call returns, the result is a rearrangement of the rows,
    and the numbers are in ascending order for the direction asc, in
    descending order for any other direction. *)
Theorem sort_data_numbers_in_order data column direction :
  contains "="%char column = false ->
  all_numbers (strip column) data ->
  exists out,
    sort_data data (Some (column ++ "=" ++ direction)%string) = Ok out
    /\ Permutation data out
    /\ StronglySorted
         (fun a b =>
            if String.eqb (lower (strip direction)) "asc"
            then PrimFloat.leb (number_of (strip column) a)
                               (number_of (strip column) b) = true
            else PrimFloat.leb (number_of (strip column) b)
                               (number_of (strip column) a) = true) out.
Proof.
  intros Hc Hn. rewrite (sort_data_unfold _ _ _ Hc). cbv zeta.
  destruct (sorted_numbers (strip column)
              (negb (String.eqb (lower (strip direction)) "asc")) data Hn)
    as (out & E & Hp & Hs).
  rewrite E. cbn [except_ValueError]. exists out.
  split; [reflexivity|]. split; [exact Hp|].
  pose proof (Permutation_all_numbers _ _ _ Hp Hn) as Hout.
  unfold key_sorted in Hs. revert Hs. apply StronglySorted_impl_in.
  intros a b Ha Hb.
  destruct (number_key _ _ Hout a Ha) as [_ Na].
  destruct (number_key _ _ Hout b Hb) as [_ Nb].
  destruct (String.eqb (lower (strip direction)) "asc"); cbn [negb].
  - now apply ltb_false_iff_leb.
  - now apply ltb_false_iff_leb.
Qed.

Lemma sort_data_numbers_in_order_witness :
  let cheap : row := {[ "price" := "199" ]} in
  let dear : row := {[ "price" := "999" ]} in
  exists out,
    sort_data [dear; cheap; dear] (Some "price = ASC") = Ok out
    /\ Permutation [dear; cheap; dear] out
    /\ StronglySorted
         (fun a b => PrimFloat.leb (number_of "price" a)
                                   (number_of "price" b) = true) out.
Proof.
  intros cheap dear.
  apply (sort_data_numbers_in_order [dear; cheap; dear] "price " " ASC"
           eq_refl).
  intros r [<-|[<-|[<-|[]]]].
  - exists "999", 999%float. now repeat split.
  - exists "199", 199%float. now repeat split.
  - exists "999", 999%float. now repeat split.
Defined.

(** X2. main.py [sort_data] on a column where every row has a cell and one
    cell at least does not read as a number: the call returns a rearrangement
    of the rows in the order of the text of the cells (code point by code
    point), ascending for asc and descending otherwise; the cells that read
    as numbers are ordered as text too. *)
Theorem sort_data_text_in_order data column direction :
  contains "="%char column = false ->
  some_text (strip column) data ->
  exists out,
    sort_data data (Some (column ++ "=" ++ direction)%string) = Ok out
    /\ Permutation data out
    /\ StronglySorted
         (fun a b =>
            if String.eqb (lower (strip direction)) "asc"
            then String.leb (text_of (strip column) a)
                            (text_of (strip column) b) = true
            else String.leb (text_of (strip column) b)
                            (text_of (strip column) a) = true) out.
Proof.
  intros Hc Ht. rewrite (sort_data_unfold _ _ _ Hc). cbv zeta.
  rewrite (sorted_numbers_ValueError _ _ _ Ht). cbn [except_ValueError].
  destruct (sorted_texts (strip column)
              (negb (String.eqb (lower (strip direction)) "asc")) data
              (proj1 Ht))
    as (out & E & Hp & Hs).
  exists out. split; [exact E|]. split; [exact Hp|].
  unfold key_sorted in Hs. revert Hs. apply StronglySorted_impl_in.
  intros a b _ _.
  destruct (String.eqb (lower (strip direction)) "asc"); cbn [negb];
    apply str_lt_false_leb.
Qed.

Lemma sort_data_text_in_order_witness :
  let nine : row := {[ "price" := "9" ]} in
  let ten : row := {[ "price" := "10" ]} in
  let none : row := {[ "price" := "n/a" ]} in
  exists out,
    sort_data [nine; none; ten] (Some "price=asc") = Ok out
    /\ Permutation [nine; none; ten] out
    /\ StronglySorted
         (fun a b => String.leb (text_of "price" a) (text_of "price" b) = true)
         out.
Proof.
  intros nine ten none.
  apply (sort_data_text_in_order [nine; none; ten] "price" "asc" eq_refl).
  split.
  - intros r [<-|[<-|[<-|[]]]]; vm_compute; discriminate.
  - exists none, "n/a". split; [right; now left | split; reflexivity].
Defined.

End MainSortOrder.

Section MainSortOutcome.
Import Main.

Lemma mapM_getitem_missing col (rows : list row) :
  (exists r, In r rows /\ r !! col = None) ->
  mapM (fun r => getitem r col) rows = Raise (KeyError col).
Proof.
  induction rows as [|r rows IH]; intros (r0 & Hin & H0); simpl;
    [destruct Hin|].
  unfold getitem at 1. destruct (r !! col) as [cell|] eqn:E; [|reflexivity].
  cbn [bind]. rewrite IH; [reflexivity|].
  destruct Hin as [->|Hin]; [congruence | now exists r0].
Qed.

Lemma mapM_number_missing col (rows : list row) :
  (exists r, In r rows /\ r !! col = None) ->
  mapM (fun r => bind (getitem r col) to_float) rows = Raise (KeyError col)
  \/ mapM (fun r => bind (getitem r col) to_float) rows
     = Raise (ValueError CouldNotConvert).
Proof.
  induction rows as [|r rows IH]; intros (r0 & Hin & H0); simpl;
    [destruct Hin|].
  unfold getitem at 1 3. destruct (r !! col) as [cell|] eqn:E; [|now left].
  cbn [bind]. unfold to_float at 1 3.
  destruct (float_of_string cell); [|now right]. cbn [bind].
  destruct IH as [-> | ->]; [| now left | now right].
  destruct Hin as [->|Hin]; [congruence | now exists r0].
Qed.

Lemma sort_never_raises {K A} (f : K -> K -> bool) (l : list (K * A)) :
  exists r, sort (fun a b => Ok (f a b)) l = Ok r.
Proof.
  unfold sort. generalize (@nil (K * A)) as acc.
  induction l as [|x l IH]; intros acc; simpl; [now exists acc|].
  assert (H : exists r, insert (fun a b => Ok (f a b)) x acc = Ok r).
  { clear. induction acc as [|y acc IH]; simpl; [now eexists|].
    destruct (f (fst x) (fst y)); [now eexists|].
    destruct IH as [r ->]. now eexists. }
  destruct H as [r ->]. apply IH.
Qed.

Lemma mapM_getitem_total col (rows : list row) :
  (forall r, In r rows -> r !! col <> None) ->
  exists cells, mapM (fun r => getitem r col) rows = Ok cells.
Proof.
  induction rows as [|r rows IH]; intros H; simpl; [now eexists|].
  pose proof (H r (or_introl eq_refl)) as Hr. unfold getitem at 1.
  destruct (r !! col); [|congruence]. cbn [bind].
  destruct IH as [cells ->]; [intros r' Hr'; apply H; now right|].
  now eexists.
Qed.

Lemma mapM_number_total col (rows : list row) :
  (forall r, In r rows -> r !! col <> None) ->
  (exists xs, mapM (fun r => bind (getitem r col) to_float) rows = Ok xs)
  \/ mapM (fun r => bind (getitem r col) to_float) rows
     = Raise (ValueError CouldNotConvert).
Proof.
  induction rows as [|r rows IH]; intros H; simpl; [left; now eexists|].
  pose proof (H r (or_introl eq_refl)) as Hr. unfold getitem at 1 3.
  destruct (r !! col) as [cell|]; [|congruence]. cbn [bind].
  unfold to_float at 1 3. destruct (float_of_string cell); [|now right].
  cbn [bind].
  destruct IH as [[xs ->] | ->]; [intros r' Hr'; apply H; now right| |].
  - left. now eexists.
  - now right.
Qed.

Lemma sort_data_total data column direction :
  contains "="%char column = false ->
  (forall r, In r data -> r !! strip column <> None) ->
  exists out,
    sort_data data (Some (column ++ "=" ++ direction)%string) = Ok out
    /\ Permutation data out.
Proof.
  intros Hc Hall.
  assert (exists out,
            sort_data data (Some (column ++ "=" ++ direction)%string)
            = Ok out) as [out E].
  { rewrite (sort_data_unfold _ _ _ Hc). cbv zeta. unfold sorted.
    destruct (mapM_number_total _ _ Hall) as [[xs ->] | ->]; cbn [bind].
    - destruct (sort_never_raises PrimFloat.ltb
                  (if negb (String.eqb (lower (strip direction)) "asc")
                   then rev (combine xs data) else combine xs data))
        as [r ->].
      cbn [bind except_ValueError]. now eexists.
    - cbn [except_ValueError].
      destruct (mapM_getitem_total _ _ Hall) as [cells ->]. cbn [bind].
      destruct (sort_never_raises str_lt
                  (if negb (String.eqb (lower (strip direction)) "asc")
                   then rev (combine cells data) else combine cells data))
        as [r ->].
      cbn [bind]. now eexists. }
  exists out. split; [exact E|]. now apply sort_data_Permutation in E.
Qed.

Lemma sort_data_missing_column data column direction :
  contains "="%char column = false ->
  (exists r, In r data /\ r !! strip column = None) ->
  sort_data data (Some (column ++ "=" ++ direction)%string)
  = Raise (KeyError (strip column)).
Proof.
  intros Hc Hmiss. rewrite (sort_data_unfold _ _ _ Hc). cbv zeta.
  unfold sorted. rewrite (mapM_getitem_missing _ _ Hmiss).
  now destruct (mapM_number_missing _ _ Hmiss) as [-> | ->].
Qed.

(** X3. main.py [sort_data] with a spec [column=direction] returns when
    every row has the column, and what it returns is a rearrangement of the
    rows; a row without the column ends it with [KeyError], whatever the
    other cells hold. *)
Theorem sort_data_returns_iff_column_everywhere data column direction :
  contains "="%char column = false ->
  ((forall r, In r data -> r !! strip column <> None) ->
   exists out,
     sort_data data (Some (column ++ "=" ++ direction)%string) = Ok out
     /\ Permutation data out)
  /\ ((exists r, In r data /\ r !! strip column = None) ->
      sort_data data (Some (column ++ "=" ++ direction)%string)
      = Raise (KeyError (strip column))).
Proof.
  intros Hc. split.
  - now apply sort_data_total.
  - now apply sort_data_missing_column.
Qed.

Lemma sort_data_returns_iff_column_everywhere_witness :
  let cheap : row := {[ "name" := "poco"; "price" := "199" ]} in
  let odd : row := {[ "name" := "redmi"; "price" := "n/a" ]} in
  let bare : row := {[ "name" := "nokia" ]} in
  (exists out,
     sort_data [odd; cheap] (Some "price=desc") = Ok out
     /\ Permutation [odd; cheap] out)
  /\ sort_data [odd; bare; cheap] (Some "price=desc")
     = Raise (KeyError "price").
Proof.
  intros cheap odd bare. split.
  - apply (proj1 (sort_data_returns_iff_column_everywhere [odd; cheap]
                    "price" "desc" eq_refl)).
    intros r [<-|[<-|[]]]; vm_compute; discriminate.
  - apply (proj2 (sort_data_returns_iff_column_everywhere [odd; bare; cheap]
                    "price" "desc" eq_refl)).
    exists bare. split; [right; now left | reflexivity].
Defined.

Lemma column_everywhere_dec col (rows : list row) :
  (forall r, In r rows -> r !! col <> None)
  \/ (exists r, In r rows /\ r !! col = None).
Proof.
  induction rows as [|r rows [IH|(r0 & Hin & H0)]].
  - left. intros r [].
  - destruct (r !! col) as [cell|] eqn:E.
    + left. intros r' [<-|Hr']; [congruence | now apply IH].
    + right. exists r. split; [now left | exact E].
  - right. exists r0. split; [now right | exact H0].
Qed.

Lemma numbers_or_text col (rows : list row) :
  (forall r, In r rows -> r !! col <> None) ->
  (forall r cell x, In r rows -> r !! col = Some cell ->
                    float_of_string cell = Some x -> not_nan x) ->
  all_numbers col rows \/ some_text col rows.
Proof.
  intros Hall Hnan.
  induction rows as [|r rows IH].
  - left. intros r [].
  - destruct IH as [IH|[_ (r0 & c0 & Hin & Hc & Hx)]].
    + intros r' Hr'. apply Hall. now right.
    + intros r' cell x Hr'. apply Hnan. now right.
    + pose proof (Hall r (or_introl eq_refl)) as Hr.
      destruct (r !! col) as [cell|] eqn:E; [|congruence].
      destruct (float_of_string cell) as [x|] eqn:Ex.
      * left. intros r' [<-|Hr']; [|now apply IH].
        exists cell, x. split; [exact E|]. split; [exact Ex|].
        apply (Hnan r cell x); auto. now left.
      * right. split; [exact Hall|]. exists r, cell. split; [now left|].
        now split.
    + right. split; [exact Hall|]. exists r0, c0. split; [now right|].
      now split.
Qed.

(** X4. main.py: sorting again what [sort_data] returned, with the same
    spec, changes nothing, provided no cell of the column reads as a NaN. *)
Theorem sort_data_idempotent data column direction out :
  contains "="%char column = false ->
  (forall r cell x, In r data -> r !! strip column = Some cell ->
                    float_of_string cell = Some x -> not_nan x) ->
  sort_data data (Some (column ++ "=" ++ direction)%string) = Ok out ->
  sort_data out (Some (column ++ "=" ++ direction)%string) = Ok out.
Proof.
  intros Hc Hnan E.
  destruct (column_everywhere_dec (strip column) data) as [Hall|Hmiss].
  2:{ rewrite (sort_data_missing_column data column direction Hc Hmiss) in E.
      discriminate. }
  revert E. rewrite !(sort_data_unfold _ _ _ Hc). cbv zeta.
  set (reverse := negb (String.eqb (lower (strip direction)) "asc")).
  destruct (numbers_or_text _ _ Hall Hnan) as [Hn|Ht].
  - destruct (sorted_numbers (strip column) reverse data Hn)
      as (out' & E' & Hp & Hs).
    rewrite E'. cbn [except_ValueError]. intros H. injection H as <-.
    rewrite (sorted_numbers_again (strip column) reverse out'); auto.
    now apply (Permutation_all_numbers _ data).
  - rewrite (sorted_numbers_ValueError _ _ _ Ht). cbn [except_ValueError].
    destruct (sorted_texts (strip column) reverse data (proj1 Ht))
      as (out' & E' & Hp & Hs).
    rewrite E'. intros H. injection H as <-.
    pose proof (Permutation_some_text _ _ _ Hp Ht) as Ht'.
    rewrite (sorted_numbers_ValueError _ _ _ Ht'). cbn [except_ValueError].
    apply sorted_texts_again; [exact (proj1 Ht') | exact Hs].
Qed.

Lemma sort_data_idempotent_witness :
  let cheap : row := {[ "price" := "199" ]} in
  let dear : row := {[ "price" := "999" ]} in
  sort_data [cheap; dear] (Some "price=asc") = Ok [cheap; dear].
Proof.
  intros cheap dear.
  apply (sort_data_idempotent [dear; cheap] "price" "asc" [cheap; dear]
           eq_refl).
  - intros r cell x [<-|[<-|[]]] Hc Hx; vm_compute in Hc;
      injection Hc as <-; vm_compute in Hx; injection Hx as <-; reflexivity.
  - vm_compute. reflexivity.
Defined.

End MainSortOutcome.

(** ** Filtering: what is kept *)

Section MainFilterKept.

Lemma filterM_sublist {A} (p : A -> result bool) l out :
  filterM p l = Ok out -> sublist out l.
Proof.
  revert out. induction l as [|x l IH]; simpl; intros out H.
  - injection H as <-. constructor.
  - destruct (p x) as [b|e]; [|discriminate]. cbn [bind] in H.
    destruct (filterM p l) as [xs|e]; [|discriminate]. cbn [bind] in H.
    injection H as <-. destruct b; [apply sublist_skip | apply sublist_cons];
      now apply IH.
Qed.

Lemma filterM_again {A} (p : A -> result bool) l out :
  filterM p l = Ok out -> filterM p out = Ok out.
Proof.
  revert out. induction l as [|x l IH]; simpl; intros out H.
  - now injection H as <-.
  - destruct (p x) as [b|e] eqn:E; [|discriminate]. cbn [bind] in H.
    destruct (filterM p l) as [xs|e]; [|discriminate]. cbn [bind] in H.
    injection H as <-. destruct b; [|now apply IH].
    simpl. rewrite E. cbn [bind]. now rewrite (IH xs eq_refl).
Qed.

Lemma filterM_never_true {A} (p : A -> result bool) l out :
  (forall x, p x <> Ok true) -> filterM p l = Ok out -> out = [].
Proof.
  intros Hp. revert out. induction l as [|x l IH]; simpl; intros out H.
  - now injection H as <-.
  - destruct (p x) as [b|e] eqn:E; [|discriminate]. cbn [bind] in H.
    destruct (filterM p l) as [xs|e]; [|discriminate]. cbn [bind] in H.
    injection H as <-. destruct b; [now destruct (Hp x) | now apply IH].
Qed.

Import Main.

Lemma text_against_number_never_true col op v (r : row) :
  bind (getitem r col) (fun cell => call op (VStr cell) (VFloat v)) <> Ok true.
Proof.
  unfold getitem. destruct (r !! col); [|discriminate]. cbn [bind].
  destruct op; discriminate.
Qed.

(** X5. main.py: whatever [filter_rows] returns is a subsequence of the
    rows it was given (rows are neither added, changed nor reordered), and
    filtering the result again with the same condition gives it back. *)
Theorem filter_rows_subsequence_idempotent data condition out :
  filter_rows data condition = Ok out ->
  sublist out data /\ filter_rows out condition = Ok out.
Proof.
  unfold filter_rows.
  destruct condition as [[|c cond]|];
    try (intros H; injection H as <-; split; reflexivity).
  destruct (parse_condition (String c cond)) as [[[col op] lit]|e];
    [|discriminate].
  cbn [bind]. destruct (to_float lit) as [v|[m| |k]]; try discriminate.
  - destruct (filterM _ data) as [xs|[m| |k]] eqn:E1 at 1;
      cbn [except_ValueError]; try discriminate.
    + intros H. injection H as <-. split; [now apply filterM_sublist in E1|].
      now rewrite (filterM_again _ _ _ E1).
    + intros E2.
      assert (out = []) as ->.
      { eapply filterM_never_true; [|exact E2].
        intros r. apply text_against_number_never_true. }
      split; [apply sublist_nil_l | reflexivity].
  - intros E. split; [now apply filterM_sublist in E|].
    now apply filterM_again in E.
Qed.

Lemma filter_rows_subsequence_idempotent_witness :
  let cheap : row := {[ "price" := "199" ]} in
  let dear : row := {[ "price" := "999" ]} in
  sublist [dear; dear] [dear; cheap; dear]
  /\ filter_rows [dear; dear] (Some "price>500") = Ok [dear; dear].
Proof.
  intros cheap dear.
  apply (filter_rows_subsequence_idempotent [dear; cheap; dear]
           (Some "price>500")).
  vm_compute. reflexivity.
Defined.

(** X6. main.py: when the first row has no cell for the column of the
    condition, [filter_rows] ends with [KeyError], whatever the operator and
    the literal; on no row at all it returns no row. *)
Theorem filter_rows_missing_column r rest cond col op lit :
  parse_condition cond = Ok (col, op, lit) ->
  r !! col = None ->
  filter_rows (r :: rest) (Some cond) = Raise (KeyError col)
  /\ filter_rows [] (Some cond) = Ok [].
Proof.
  intros Hp Hr. unfold filter_rows.
  destruct cond as [|c cond]; [discriminate|]. rewrite Hp. cbn [bind].
  destruct (to_float lit) as [v|[m| |k]] eqn:Ef;
    try (unfold to_float in Ef; destruct (float_of_string lit); discriminate);
    simpl; unfold getitem; rewrite Hr; split; reflexivity.
Qed.

Lemma filter_rows_missing_column_witness :
  let r : row := {[ "name" := "poco" ]} in
  filter_rows [r] (Some "price>500") = Raise (KeyError "price")
  /\ filter_rows [] (Some "price>500") = Ok [].
Proof.
  intros r.
  exact (filter_rows_missing_column r [] "price>500" "price" gt "500"
           eq_refl eq_refl).
Defined.

End MainFilterKept.

Section CSVProcessorFilterKept.
Import CSVProcessor.

(** X7. CSVProcessor: whatever [filter_data] returns is a subsequence of the
    stored rows, and an object holding the result filters it to itself. *)
Theorem filter_data_subsequence_idempotent self condition out :
  filter_data self condition = Ok out ->
  sublist out (data self)
  /\ filter_data {| data := out |} condition = Ok out.
Proof.
  unfold filter_data.
  destruct (_parse_condition condition) as [[[column operator] v]|e];
    [|discriminate].
  cbn [bind data]. intros E. split; [now apply filterM_sublist in E|].
  now apply filterM_again in E.
Qed.

Lemma filter_data_subsequence_idempotent_witness :
  let cheap : row := {[ "price" := VFloat 199 ]} in
  let dear : row := {[ "price" := VFloat 999 ]} in
  sublist [dear] [cheap; dear]
  /\ filter_data {| data := [dear] |} "price>500" = Ok [dear].
Proof.
  intros cheap dear.
  apply (filter_data_subsequence_idempotent {| data := [cheap; dear] |}
           "price>500").
  vm_compute. reflexivity.
Defined.

(** X8. CSVProcessor: with the operator [=], [filter_data] never raises; it
    keeps exactly the rows whose cell equals the literal, a number cell
    against a number literal and a text cell against a text literal, and
    leaves out the rows without the column. *)
Theorem filter_data_equals self condition column v :
  _parse_condition condition = Ok (column, "=", v) ->
  filter_data self condition
  = Ok (List.filter (equal_cell_test column v) (data self)).
Proof.
  intros Hp. unfold filter_data. rewrite Hp. cbn [bind].
  apply filterM_pure. intros r _. unfold matches, equal_cell_test.
  destruct (r !! column) as [cell|]; [|reflexivity].
  cbn. now destruct (py_eq cell v).
Qed.

Lemma filter_data_equals_witness :
  let redmi : row := {[ "brand" := VStr "xiaomi"; "price" := VFloat 199 ]} in
  let bare : row := {[ "price" := VFloat 999 ]} in
  filter_data {| data := [redmi; bare] |} "brand = xiaomi"
  = Ok (List.filter (equal_cell_test "brand" (VStr "xiaomi")) [redmi; bare]).
Proof.
  intros redmi bare.
  exact (filter_data_equals {| data := [redmi; bare] |} "brand = xiaomi"
           "brand" (VStr "xiaomi") eq_refl).
Defined.

Lemma matches_text_literal column operator lit (r : row) :
  In operator [">"; "<"] ->
  matches column operator (VStr lit) r
  = match r !! column with
    | Some (VFloat _) => Raise TypeError
    | _ => Ok false
    end.
Proof.
  intros Hop. unfold matches.
  destruct (r !! column) as [[x|t]|]; [| |reflexivity];
    destruct Hop as [<-|[<-|[]]]; reflexivity.
Qed.

(** X9. CSVProcessor: with [>] or [<] and a literal that is text,
    [filter_data] keeps no row: it returns the empty list when no stored row
    holds a number in the column, and ends with [TypeError] as soon as one
    does. *)
Theorem filter_data_text_literal self condition column operator lit :
  _parse_condition condition = Ok (column, operator, VStr lit) ->
  In operator [">"; "<"] ->
  ((forall r, In r (data self) -> ~ has_number column r) ->
   filter_data self condition = Ok [])
  /\ ((exists r, In r (data self) /\ has_number column r) ->
      filter_data self condition = Raise TypeError).
Proof.
  intros Hp Hop. unfold filter_data. rewrite Hp. cbn [bind]. split.
  - intros Hnone. rewrite (filterM_pure _ (fun _ => false)).
    + clear. induction (data self) as [|r l IH]; simpl;
        [reflexivity | exact IH].
    + intros r Hr. rewrite (matches_text_literal _ _ _ _ Hop).
      destruct (r !! column) as [[x|t]|] eqn:E; try reflexivity.
      destruct (Hnone r Hr). now exists x.
  - intros (r & Hr & x & Hx). apply filterM_some_raise.
    + intros r' _. rewrite (matches_text_literal _ _ _ _ Hop).
      destruct (r' !! column) as [[y|t]|]; [now right | left | left];
        now eexists.
    + exists r. split; [exact Hr|].
      rewrite (matches_text_literal _ _ _ _ Hop). now rewrite Hx.
Qed.

Lemma filter_data_text_literal_witness :
  let redmi : row := {[ "name" := VStr "redmi"; "price" := VFloat 199 ]} in
  filter_data {| data := [redmi] |} "name>poco" = Ok []
  /\ filter_data {| data := [redmi] |} "price>poco" = Raise TypeError.
Proof.
  intros redmi. split.
  - apply (proj1 (filter_data_text_literal {| data := [redmi] |} "name>poco"
                     "name" ">" "poco" eq_refl (or_introl eq_refl))).
    intros r [<-|[]] [x Hx]. vm_compute in Hx. discriminate.
  - apply (proj2 (filter_data_text_literal {| data := [redmi] |} "price>poco"
                     "price" ">" "poco" eq_refl (or_introl eq_refl))).
    exists redmi. split; [now left|]. exists 199%float. reflexivity.
Defined.

End CSVProcessorFilterKept.

(** ** Malformed specs and unreadable cells *)

Section MainSpecErrors.

Lemma mapM_Raise {A B} (f : A -> result B) l e :
  mapM f l = Raise e -> exists x, In x l /\ f x = Raise e.
Proof.
  induction l as [|x l IH]; simpl; [discriminate|].
  destruct (f x) as [y|e'] eqn:E; cbn [bind].
  - destruct (mapM f l) as [ys|e']; cbn [bind]; [discriminate|].
    intros H. injection H as <-. destruct (IH eq_refl) as (z & Hz & Ez).
    exists z. split; [now right | exact Ez].
  - intros H. injection H as <-. exists x. split; [now left | exact E].
Qed.

Lemma insert_Raise {K A} (lt : K -> K -> result bool) (x : K * A) l e :
  insert lt x l = Raise e -> exists a b, lt a b = Raise e.
Proof.
  induction l as [|y l IH]; simpl; [discriminate|].
  destruct (lt (fst x) (fst y)) as [[|]|e'] eqn:E; cbn [bind].
  - discriminate.
  - destruct (insert lt x l) as [r|e']; cbn [bind]; [discriminate|].
    intros H. injection H as <-. now apply IH.
  - intros H. injection H as <-. now exists (fst x), (fst y).
Qed.

Lemma sort_Raise {K A} (lt : K -> K -> result bool) (l : list (K * A)) e :
  sort lt l = Raise e -> exists a b, lt a b = Raise e.
Proof.
  unfold sort. generalize (@nil (K * A)) as acc.
  induction l as [|x l IH]; intros acc; simpl; [discriminate|].
  destruct (insert lt x acc) as [r|e'] eqn:E.
  - apply IH.
  - rewrite fold_insert_Raise. intros H. injection H as <-.
    now apply insert_Raise in E.
Qed.

Lemma sorted_Raise {K A} (lt : K -> K -> result bool) (key : A -> result K)
  reverse (data : list A) e :
  sorted lt key reverse data = Raise e ->
  (exists x, In x data /\ key x = Raise e) \/ (exists a b, lt a b = Raise e).
Proof.
  unfold sorted. destruct (mapM key data) as [keys|e'] eqn:E; cbn [bind].
  - destruct (sort lt _) as [r|e'] eqn:Es; cbn [bind]; [discriminate|].
    intros H. injection H as <-. right. now apply sort_Raise in Es.
  - intros H. injection H as <-. left. now apply mapM_Raise in E.
Qed.

Import Main.

(** X10. main.py [parse_order] fails, with the [ValueError] of the sort
    format and no other exception, exactly when the text has no [=];
    otherwise it cuts at the first [=] and returns the stripped text before
    it with the flag: the stripped text after it, in lower case, is [asc]. *)
Theorem parse_order_characterised (order_str : string) :
  (parse_order order_str = Raise (ValueError BadOrderFormat)
   <-> contains "="%char order_str = false)
  /\ (forall e, parse_order order_str = Raise e
                -> e = ValueError BadOrderFormat)
  /\ (forall col asc,
        parse_order order_str = Ok (col, asc)
        <-> exists a b,
              order_str = (a ++ String "="%char b)%string
              /\ contains "="%char a = false
              /\ col = strip a
              /\ asc = String.eqb (lower (strip b)) "asc").
Proof.
  unfold parse_order. destruct (contains "="%char order_str) eqn:Hc; cbn [negb].
  - destruct (split1_present _ _ Hc) as (a & b & E & Ha & Hs).
    rewrite Hs. cbn [unpack2 bind].
    split; [split; discriminate|]. split; [discriminate|].
    intros col asc. split.
    + intros H. injection H as <- <-. now exists a, b.
    + intros (a' & b' & E' & Ha' & -> & ->).
      rewrite E', (split1_app _ _ _ Ha') in Hs. now injection Hs as -> ->.
  - split; [split; reflexivity|]. split; [now intros e [= <-]|].
    intros col asc. split; [discriminate|].
    intros (a & b & -> & _). rewrite contains_app, contains_cons_same in Hc.
    now rewrite orb_true_r in Hc.
Qed.

Lemma parse_order_characterised_witness :
  parse_order "price" = Raise (ValueError BadOrderFormat)
  /\ parse_order " price = Asc=x" = Ok ("price", false)
  /\ parse_order "price= ASC " = Ok ("price", true).
Proof.
  split; [|split].
  - now apply (proj1 (parse_order_characterised "price")).
  - apply (proj2 (proj2 (parse_order_characterised " price = Asc=x"))).
    now exists " price ", " Asc=x".
  - apply (proj2 (proj2 (parse_order_characterised "price= ASC "))).
    now exists "price", " ASC ".
Defined.

Lemma mapM_cells_first_bad col (pre : list row) r post :
  Forall (reads_as_number col) pre ->
  mapM (fun r => bind (getitem r col) to_float) (pre ++ r :: post)%list
  = match r !! col with
    | None => Raise (KeyError col)
    | Some cell =>
        match float_of_string cell with
        | None => Raise (ValueError CouldNotConvert)
        | Some x =>
            bind (mapM (fun r => bind (getitem r col) to_float) post)
                 (fun xs => Ok (coerced_cells col pre ++ x :: xs)%list)
        end
    end.
Proof.
  induction 1 as [|r' pre (cell & x & Hc & Hx) _ IH]; simpl.
  - unfold getitem at 1, to_float at 1. destruct (r !! col) as [cell|];
      [|reflexivity]. cbn [bind].
    destruct (float_of_string cell); [|reflexivity]. cbn [bind].
    now destruct (mapM _ post).
  - unfold getitem at 1, to_float at 1. rewrite Hc. cbn [bind].
    rewrite Hx. cbn [bind]. rewrite IH.
    destruct (r !! col) as [cell'|]; [|reflexivity].
    destruct (float_of_string cell'); [|reflexivity].
    now destruct (mapM _ post).
Qed.

(** X11. main.py [aggregate], what is decided before any cell is read: a
    spec without [=] fails with the [ValueError] of the aggregation format,
    and a function name outside avg, min, max (after stripping and lower
    case) with the [ValueError] of the unsupported function, for every list
    of rows; on an empty list of rows avg answers [None] and min and max end
    with the [ValueError] of the built-ins on an empty sequence. *)
Theorem aggregate_before_reading_cells data col func :
  contains "="%char col = false ->
  let operation := lower (strip func) in
  (forall instruction,
     contains "="%char instruction = false ->
     aggregate data instruction = Raise (ValueError BadAggregateFormat))
  /\ (~ In operation ["avg"; "min"; "max"] ->
      aggregate data (col ++ "=" ++ func)%string
      = Raise (ValueError (UnsupportedFunction operation)))
  /\ (operation = "avg" ->
      aggregate [] (col ++ "=" ++ func)%string = Ok {[ "avg" := None ]})
  /\ (operation = "min" \/ operation = "max" ->
      aggregate [] (col ++ "=" ++ func)%string
      = Raise (ValueError EmptySequence)).
Proof.
  intros Hc operation. split; [|split; [|split]].
  - intros instruction Hi. unfold aggregate. now rewrite Hi.
  - intros Hop. rewrite (main_aggregate_spec _ _ _ Hc). cbv zeta.
    fold operation. unfold AGGREGATIONS. cbn [lookup_assoc].
    destruct (String.eqb operation "avg") eqn:E1;
      [apply String.eqb_eq in E1; exfalso; apply Hop; simpl; auto|].
    destruct (String.eqb operation "min") eqn:E2;
      [apply String.eqb_eq in E2; exfalso; apply Hop; simpl; auto|].
    destruct (String.eqb operation "max") eqn:E3;
      [apply String.eqb_eq in E3; exfalso; apply Hop; simpl; auto|].
    reflexivity.
  - intros E. rewrite (main_aggregate_spec _ _ _ Hc). cbv zeta.
    fold operation. now rewrite E.
  - intros E. rewrite (main_aggregate_spec _ _ _ Hc). cbv zeta.
    fold operation. now destruct E as [-> | ->].
Qed.

Lemma aggregate_before_reading_cells_witness :
  let odd : row := {[ "price" := "n/a" ]} in
  aggregate [odd] "price" = Raise (ValueError BadAggregateFormat)
  /\ aggregate [odd] "nosuch = Median"
     = Raise (ValueError (UnsupportedFunction "median"))
  /\ aggregate [] "price= AVG" = Ok {[ "avg" := None ]}
  /\ aggregate [] "price=max" = Raise (ValueError EmptySequence).
Proof.
  intros odd.
  pose proof (aggregate_before_reading_cells [odd] "nosuch " " Median"
                eq_refl) as (H1 & H2 & _).
  pose proof (aggregate_before_reading_cells [odd] "price" " AVG"
                eq_refl) as (_ & _ & H3 & _).
  pose proof (aggregate_before_reading_cells [odd] "price" "max"
                eq_refl) as (_ & _ & _ & H4).
  split; [now apply H1|]. split; [apply H2|split; [now apply H3|apply H4]].
  - intros [H|[H|[H|[]]]]; discriminate.
  - now right.
Defined.

(** X12. main.py [aggregate] with a function among avg, min, max: the first
    row whose cell in the column is absent or is not a number decides the
    exception, whatever the rows after it hold: [KeyError] when the cell is
    absent, the [ValueError] of a column that is not numeric when it is not
    a number. *)
Theorem aggregate_first_bad_row pre r post col func :
  contains "="%char col = false ->
  In (lower (strip func)) ["avg"; "min"; "max"] ->
  Forall (reads_as_number (strip col)) pre ->
  (r !! strip col = None ->
   aggregate (pre ++ r :: post)%list (col ++ "=" ++ func)%string
   = Raise (KeyError (strip col)))
  /\ (forall cell,
        r !! strip col = Some cell -> float_of_string cell = None ->
        aggregate (pre ++ r :: post)%list (col ++ "=" ++ func)%string
        = Raise (ValueError (ColumnNotNumeric col))).
Proof.
  intros Hc Hop Hpre.
  rewrite (main_aggregate_spec _ _ _ Hc). cbv zeta.
  rewrite (mapM_cells_first_bad _ _ _ _ Hpre).
  split.
  - intros ->. now destruct Hop as [<-|[<-|[<-|[]]]].
  - intros cell -> ->. now destruct Hop as [<-|[<-|[<-|[]]]].
Qed.

Lemma aggregate_first_bad_row_witness :
  let dear : row := {[ "name" := "iphone"; "price" := "999" ]} in
  let bare : row := {[ "name" := "nokia" ]} in
  let odd : row := {[ "name" := "redmi"; "price" := "n/a" ]} in
  aggregate [dear; bare; odd] "price=min" = Raise (KeyError "price")
  /\ aggregate [dear; odd; bare] "price=min"
     = Raise (ValueError (ColumnNotNumeric "price")).
Proof.
  intros dear bare odd.
  assert (Hpre : Forall (reads_as_number (strip "price")) [dear]).
  { repeat constructor. exists "999", 999%float. split; reflexivity. }
  split.
  - apply (proj1 (aggregate_first_bad_row [dear] bare [odd] "price" "min"
                    eq_refl (or_intror (or_introl eq_refl)) Hpre)).
    reflexivity.
  - apply (proj2 (aggregate_first_bad_row [dear] odd [bare] "price" "min"
                    eq_refl (or_intror (or_introl eq_refl)) Hpre) "n/a");
      reflexivity.
Defined.

End MainSpecErrors.

Section CSVProcessorSpecErrors.
Import CSVProcessor.

Lemma unpack2_split_Unpack c s :
  ~ occurs_once c s -> unpack2 (split c s) = Raise (ValueError Unpack).
Proof.
  intros H. pose proof (not_once_split c s H) as Hs.
  now destruct (split c s) as [|a [|b [|x l]]].
Qed.

Lemma aggregate_not_Unpack self column function d :
  contains "="%char column = false -> contains "="%char function = false ->
  aggregate self (column ++ "=" ++ function)%string d
  <> Raise (ValueError Unpack).
Proof.
  intros Hc Hf. rewrite (aggregate_spec _ _ _ _ Hc Hf). cbv zeta.
  destruct (numeric_values _ _) as [|x rest]; [discriminate|].
  unfold operations. cbn [lookup_assoc].
  destruct (String.eqb _ "avg"); [discriminate|].
  destruct (String.eqb _ "min"); [discriminate|].
  destruct (String.eqb _ "max"); discriminate.
Qed.

Lemma sort_key_Raise column numeric (r : row) e :
  sort_key column numeric r = Raise e ->
  e = TypeError \/ e = ValueError CouldNotConvert.
Proof.
  unfold sort_key. destruct numeric; cbn [negb]; [|discriminate].
  destruct (r !! column) as [[x|s]|]; simpl; try discriminate.
  - unfold to_float. destruct (float_of_string s); simpl; [discriminate|].
    intros H. injection H as <-. now right.
  - intros H. injection H as <-. now left.
Qed.

Lemma key_lt_Raise k1 k2 e : key_lt k1 k2 = Raise e -> e = TypeError.
Proof.
  unfold key_lt. destruct (negb _); [discriminate|].
  destruct (opt_eq _ _); [discriminate|].
  destruct (snd k1) as [[x|s]|], (snd k2) as [[y|t]|]; simpl;
    try discriminate; now intros [= <-].
Qed.

Lemma sort_data_Raise_sorted column numeric reverse (rows : list row) e :
  sorted key_lt (sort_key column numeric) reverse rows = Raise e ->
  e = TypeError \/ e = ValueError CouldNotConvert.
Proof.
  intros H. apply sorted_Raise in H as [(r & _ & Hr)|(a & b & Hab)].
  - now apply sort_key_Raise in Hr.
  - left. now apply key_lt_Raise in Hab.
Qed.

(** X13. CSVProcessor: [aggregate] and [sort_data] end with the
    [ValueError] of the failed unpacking exactly when [=] does not occur
    exactly once in the spec, whatever the rows. *)
Theorem spec_without_one_equals_sign self spec d :
  (aggregate self spec d = Raise (ValueError Unpack)
   <-> ~ occurs_once "="%char spec)
  /\ (sort_data self spec d = Raise (ValueError Unpack)
      <-> ~ occurs_once "="%char spec).
Proof.
  split; split.
  - intros H (a & b & -> & Ha & Hb). now apply aggregate_not_Unpack in H.
  - intros H. unfold aggregate. now rewrite (unpack2_split_Unpack _ _ H).
  - intros H (a & b & -> & Ha & Hb).
    change (a ++ String "="%char b)%string with (a ++ "=" ++ b)%string in H.
    rewrite (sort_data_spec _ _ _ _ Ha Hb) in H. cbv zeta in H.
    destruct (negb _); [discriminate|].
    apply sort_data_Raise_sorted in H as [H|H]; discriminate.
  - intros H. unfold sort_data. now rewrite (unpack2_split_Unpack _ _ H).
Qed.

Lemma spec_without_one_equals_sign_witness :
  aggregate {| data := [] |} "price" None = Raise (ValueError Unpack)
  /\ sort_data {| data := [] |} "price=asc=x" None
     = Raise (ValueError Unpack).
Proof.
  split.
  - apply (proj1 (spec_without_one_equals_sign {| data := [] |} "price"
                    None)).
    intros (a & b & H). apply cut_once_contains in H. discriminate.
  - apply (proj2 (spec_without_one_equals_sign {| data := [] |}
                    "price=asc=x" None)).
    intros (a & b & H). apply cut_once_split in H. discriminate.
Defined.

(** X14. CSVProcessor [sort_data], on a spec [column=direction] with one
    [=]: it ends with the [ValueError] of the direction exactly when the
    direction, stripped and in lower case, is neither [asc] nor [desc], and
    it does so before looking at the rows. *)
Theorem sort_data_checks_direction self column direction d :
  contains "="%char column = false ->
  contains "="%char direction = false ->
  (sort_data self (column ++ "=" ++ direction)%string d
   = Raise (ValueError BadDirection)
   <-> ~ In (lower (strip direction)) ["asc"; "desc"]).
Proof.
  intros Hc Hd. rewrite (sort_data_spec _ _ _ _ Hc Hd). cbv zeta.
  destruct (String.eqb (lower (strip direction)) "asc") eqn:E1;
    [|destruct (String.eqb (lower (strip direction)) "desc") eqn:E2];
    cbn [orb negb].
  - apply String.eqb_eq in E1. split.
    + intros H. apply sort_data_Raise_sorted in H as [H|H]; discriminate.
    + intros H. destruct H. rewrite E1. now left.
  - apply String.eqb_eq in E2. split.
    + intros H. apply sort_data_Raise_sorted in H as [H|H]; discriminate.
    + intros H. destruct H. rewrite E2. right. now left.
  - apply String.eqb_neq in E1, E2. split; [|reflexivity].
    intros _ [H|[H|[]]]; congruence.
Qed.

Lemma sort_data_checks_direction_witness :
  let bare : row := {[ "name" := VStr "nokia" ]} in
  sort_data {| data := [bare] |} "price=up" None
  = Raise (ValueError BadDirection).
Proof.
  intros bare.
  apply (proj2 (sort_data_checks_direction {| data := [bare] |} "price" "up"
                  None eq_refl eq_refl)).
  intros [H|[H|[]]]; discriminate.
Defined.

End CSVProcessorSpecErrors.

(** ** Sorting in the CSVProcessor class: outcome and order *)

Section CSVProcessorSortKinds.
Import CSVProcessor.

Lemma key_lt_same_kind v w :
  isinstance_number v = isinstance_number w ->
  exists b, key_lt (false, Some v) (false, Some w) = Ok b.
Proof.
  destruct v as [x|s], w as [y|t]; try discriminate; intros _;
    unfold key_lt; cbn.
  - destruct (PrimFloat.eqb x y); eexists; reflexivity.
  - destruct (String.eqb s t); eexists; reflexivity.
Qed.

Lemma key_lt_clash v w :
  isinstance_number v = negb (isinstance_number w) ->
  key_lt (false, Some v) (false, Some w) = Raise TypeError.
Proof. destruct v, w; try discriminate; reflexivity. Qed.

Lemma insert_present kind x pres nones :
  present_of kind x -> Forall (present_of kind) pres ->
  Forall none_item nones ->
  exists pres',
    insert key_lt x (pres ++ nones)%list = Ok (pres' ++ nones)%list
    /\ Forall (present_of kind) pres' /\ pres' <> [].
Proof.
  intros Hx Hp Hn. induction Hp as [|y pres Hy Hp IH]; simpl.
  - exists [x]. split; [|split; [now constructor | discriminate]].
    destruct Hn as [|y nones Hy Hn]; simpl; [reflexivity|].
    destruct Hx as (v & Hv & _). red in Hy. rewrite Hv, Hy. reflexivity.
  - destruct IH as (pres' & E & Hp' & _).
    pose proof Hx as (v & Hv & Kv). pose proof Hy as (w & Hw & Kw).
    rewrite Hv, Hw.
    destruct (key_lt_same_kind v w) as [b ->]; [congruence|]. cbn [bind].
    destruct b.
    + exists (x :: y :: pres). split; [reflexivity|].
      split; [now repeat constructor | discriminate].
    + rewrite E. cbn [bind]. exists (y :: pres').
      split; [reflexivity|]. split; [now constructor | discriminate].
Qed.

Lemma insert_clash kind x y l :
  present_of kind x -> present_of (negb kind) y ->
  insert key_lt x (y :: l) = Raise TypeError.
Proof.
  intros (v & Hv & Kv) (w & Hw & Kw). simpl. rewrite Hv, Hw.
  rewrite key_lt_clash; [reflexivity|].
  rewrite Kv, Kw. now rewrite negb_involutive.
Qed.

Lemma insert_none_last kind x pres nones :
  none_item x -> Forall (present_of kind) pres -> Forall none_item nones ->
  insert key_lt x (pres ++ nones)%list = Ok (pres ++ nones ++ [x])%list.
Proof.
  unfold none_item. intros Hx Hp Hn.
  induction Hp as [|y pres Hy Hp IH]; simpl.
  - induction Hn as [|y nones Hy Hn IH]; simpl; [reflexivity|].
    rewrite Hx, Hy. cbn. now rewrite IH.
  - destruct Hy as (w & Hw & _). rewrite Hx, Hw. cbn. now rewrite IH.
Qed.

(** Sorting items of one kind, with items without a value: no comparison
    raises. *)
Lemma fold_insert_one_kind kind l :
  Forall (fun it => present_of kind it \/ none_item it) l ->
  forall pres nones,
    Forall (present_of kind) pres -> Forall none_item nones ->
    exists r,
      fold_left (fun acc x => bind acc (insert key_lt x)) l
                (Ok (pres ++ nones)%list) = Ok r.
Proof.
  induction 1 as [|x l Hx Hl IH]; intros pres nones Hp Hn; simpl.
  - now eexists.
  - destruct Hx as [Hx|Hx].
    + destruct (insert_present kind x pres nones Hx Hp Hn)
        as (pres' & -> & Hp' & _).
      now apply IH.
    + rewrite (insert_none_last kind x pres nones Hx Hp Hn).
      apply IH; [exact Hp|].
      apply Forall_app. split; [exact Hn | now repeat constructor].
Qed.

Lemma present_not_none kind it : present_of kind it -> ~ none_item it.
Proof. intros (v & Hv & _) Hn. red in Hn. congruence. Qed.

Lemma present_one_kind it : present_of true it -> ~ present_of false it.
Proof. intros (v & Hv & Kv) (w & Hw & Kw). congruence. Qed.

Lemma insert_first_present kind x nones :
  present_of kind x -> Forall none_item nones ->
  insert key_lt x nones = Ok (x :: nones).
Proof.
  intros (v & Hv & _) Hn. destruct Hn as [|y nones Hy Hn]; simpl;
    [reflexivity|].
  red in Hy. rewrite Hv, Hy. reflexivity.
Qed.

Lemma present_kept kind it x l pres pres' nones :
  Permutation (x :: pres ++ nones) (pres' ++ nones) ->
  Forall none_item nones -> present_of kind it ->
  In it ((x :: l) ++ pres)%list -> In it (l ++ pres')%list.
Proof.
  intros Hperm Hn Hit Hin. apply in_or_app.
  destruct Hin as [<-|Hin]; [|apply in_app_or in Hin as [Hin|Hin]].
  - right. assert (H : In x (pres' ++ nones)%list).
    { eapply Permutation_in; [exact Hperm | now left]. }
    apply in_app_or in H as [H|H]; [exact H|].
    rewrite List.Forall_forall in Hn.
    now destruct (present_not_none _ _ Hit (Hn _ H)).
  - now left.
  - right. assert (H : In it (pres' ++ nones)%list).
    { eapply Permutation_in; [exact Hperm|]. right. apply in_or_app.
      now left. }
    apply in_app_or in H as [H|H]; [exact H|].
    rewrite List.Forall_forall in Hn.
    now destruct (present_not_none _ _ Hit (Hn _ H)).
Qed.

(** Sorting items of both kinds: the first item that meets the other kind
    raises [TypeError]. *)
Lemma fold_insert_two_kinds l :
  Forall (fun it => present_of true it \/ present_of false it
                    \/ none_item it) l ->
  forall kind pres nones,
    Forall (present_of kind) pres -> Forall none_item nones ->
    (exists it, In it (l ++ pres)%list /\ present_of true it) ->
    (exists it, In it (l ++ pres)%list /\ present_of false it) ->
    fold_left (fun acc x => bind acc (insert key_lt x)) l
              (Ok (pres ++ nones)%list) = Raise TypeError.
Proof.
  induction 1 as [|x l Hx Hl IH]; intros kind pres nones Hp Hn Ht Hf.
  - destruct Ht as (a & Ha & Pa), Hf as (b & Hb & Pb). simpl in Ha, Hb.
    rewrite List.Forall_forall in Hp.
    pose proof (Hp a Ha) as Ka. pose proof (Hp b Hb) as Kb.
    destruct kind.
    + now destruct (present_one_kind b).
    + now destruct (present_one_kind a).
  - simpl.
    destruct Ht as (a & Ha & Pa), Hf as (b & Hb & Pb).
    assert (Hkx : (exists k, present_of k x) \/ none_item x).
    { destruct Hx as [Hx|[Hx|Hx]]; [left; now exists true
                                   | left; now exists false | now right]. }
    destruct Hkx as [[k Hkx]|Hkx].
    + destruct pres as [|y pres].
      * simpl. rewrite (insert_first_present k x nones Hkx Hn).
        assert (Hperm : Permutation (x :: [] ++ nones) ([x] ++ nones))
          by apply Permutation_refl.
        apply (IH k [x] nones); [now repeat constructor | exact Hn | |].
        -- exists a. split; [|exact Pa].
           exact (present_kept _ _ _ _ _ _ _ Hperm Hn Pa Ha).
        -- exists b. split; [|exact Pb].
           exact (present_kept _ _ _ _ _ _ _ Hperm Hn Pb Hb).
      * destruct (Bool.bool_dec k kind) as [->|Hk].
        -- destruct (insert_present kind x (y :: pres) nones Hkx Hp Hn)
             as (pres' & E & Hp' & _).
           rewrite E.
           pose proof (insert_Permutation key_lt _ _ _ E) as Hperm.
           apply (IH kind pres' nones); [exact Hp' | exact Hn | |].
           ++ exists a. split; [|exact Pa].
              exact (present_kept _ _ _ _ _ _ _ Hperm Hn Pa Ha).
           ++ exists b. split; [|exact Pb].
              exact (present_kept _ _ _ _ _ _ _ Hperm Hn Pb Hb).
        -- rewrite <- app_comm_cons. rewrite (insert_clash k x y).
           ++ apply fold_insert_Raise.
           ++ exact Hkx.
           ++ replace (negb k) with kind
                by (destruct k, kind; simpl; congruence).
              now inversion Hp.
    + rewrite (insert_none_last kind x pres nones Hkx Hp Hn).
      apply (IH kind pres (nones ++ [x])%list); [exact Hp | |..].
      * apply Forall_app. split; [exact Hn | now repeat constructor].
      * exists a. split; [|exact Pa].
        destruct Ha as [<-|Ha]; [|exact Ha].
        now destruct (present_not_none _ _ Pa Hkx).
      * exists b. split; [|exact Pb].
        destruct Hb as [<-|Hb]; [|exact Hb].
        now destruct (present_not_none _ _ Pb Hkx).
Qed.

Lemma sort_two_kinds l :
  Forall (fun it => present_of true it \/ present_of false it
                    \/ none_item it) l ->
  (exists it, In it l /\ present_of true it) ->
  (exists it, In it l /\ present_of false it) ->
  sort key_lt l = Raise TypeError.
Proof.
  intros Hl (a & Ha & Pa) (b & Hb & Pb).
  apply (fold_insert_two_kinds l Hl true [] []); try constructor.
  - exists a. now rewrite app_nil_r.
  - exists b. now rewrite app_nil_r.
Qed.

Lemma sort_one_kind kind l :
  Forall (fun it => present_of kind it \/ none_item it) l ->
  exists r, sort key_lt l = Ok r.
Proof.
  intros Hl. apply (fold_insert_one_kind kind l Hl [] []); constructor.
Qed.

End CSVProcessorSortKinds.

Section CSVProcessorSortOutcome.
Import CSVProcessor.

Lemma keyed_kinds column rows :
  Forall (fun it => present_of true it \/ present_of false it
                    \/ none_item it) (keyed column rows).
Proof.
  apply List.Forall_forall. intros [k r] Hin.
  apply in_map_iff in Hin as (r' & E & _). injection E as <- <-.
  unfold present_of, none_item, text_key, lacks. simpl.
  destruct (r' !! column) as [[x|s]|].
  - left. now eexists.
  - right. left. now eexists.
  - right. now right.
Qed.

Lemma keyed_number column rows r :
  In r rows -> has_number column r ->
  exists it, In it (keyed column rows) /\ present_of true it.
Proof.
  intros Hin [x Hx]. exists (text_key column r, r). split.
  - apply in_map_iff. now exists r.
  - exists (VFloat x). unfold text_key, lacks. simpl. now rewrite Hx.
Qed.

Lemma keyed_text column rows r :
  In r rows -> holds_text column r ->
  exists it, In it (keyed column rows) /\ present_of false it.
Proof.
  intros Hin [s Hs]. exists (text_key column r, r). split.
  - apply in_map_iff. now exists r.
  - exists (VStr s). unfold text_key, lacks. simpl. now rewrite Hs.
Qed.

Lemma Forall_rev' {A} (P : A -> Prop) l : Forall P l -> Forall P (rev l).
Proof.
  rewrite !List.Forall_forall. intros H x Hx. apply H. now apply in_rev.
Qed.

Lemma sorted_two_kinds column reverse rows :
  (exists r, In r rows /\ has_number column r) ->
  (exists r, In r rows /\ holds_text column r) ->
  sorted key_lt (sort_key column false) reverse rows = Raise TypeError.
Proof.
  intros (a & Ha & Na) (b & Hb & Tb). unfold sorted.
  rewrite mapM_sort_key_text. cbn [bind]. rewrite combine_keyed.
  destruct (keyed_number column rows a Ha Na) as (ia & Hia & Pa).
  destruct (keyed_text column rows b Hb Tb) as (ib & Hib & Pb).
  rewrite sort_two_kinds; [reflexivity| | |].
  - destruct reverse; [apply Forall_rev'|]; apply keyed_kinds.
  - exists ia. split; [|exact Pa]. destruct reverse; [|exact Hia].
    now apply -> in_rev.
  - exists ib. split; [|exact Pb]. destruct reverse; [|exact Hib].
    now apply -> in_rev.
Qed.

Lemma is_numeric_true column rows :
  is_numeric column rows = true <->
  (forall r, In r rows -> ~ holds_text column r).
Proof.
  unfold is_numeric. rewrite forallb_forall. split.
  - intros H r Hr [s Hs]. specialize (H r Hr). now rewrite Hs in H.
  - intros H r Hr. destruct (r !! column) as [[x|s]|] eqn:E; try reflexivity.
    destruct (H r Hr). now exists s.
Qed.

Lemma is_numeric_false column rows :
  is_numeric column rows = false ->
  exists r, In r rows /\ holds_text column r.
Proof.
  unfold is_numeric. induction rows as [|r rows IH]; simpl; [discriminate|].
  destruct (r !! column) as [[x|s]|] eqn:E; simpl.
  - intros H. destruct (IH H) as (r' & Hr' & Ht). exists r'. auto.
  - intros _. exists r. split; [now left | now exists s].
  - intros H. destruct (IH H) as (r' & Hr' & Ht). exists r'. auto.
Qed.

(** The keys of the numeric branch, when every row holds a number. *)
Lemma mapM_sort_key_numbers column rows :
  (forall r, In r rows -> has_number column r) ->
  mapM (sort_key column true) rows = Ok (map (text_key column) rows).
Proof.
  intros H. apply mapM_pure. intros r Hr. destruct (H r Hr) as [x Hx].
  unfold sort_key, text_key, lacks. rewrite Hx. reflexivity.
Qed.

Lemma keyed_one_kind kind column rows :
  (forall r, In r rows ->
             match r !! column with
             | Some v => isinstance_number v = kind
             | None => True
             end) ->
  Forall (fun it => present_of kind it \/ none_item it) (keyed column rows).
Proof.
  intros H. apply List.Forall_forall. intros [k r] Hin.
  apply in_map_iff in Hin as (r' & E & Hr). injection E as <- <-.
  specialize (H r' Hr).
  unfold present_of, none_item, text_key, lacks. simpl.
  destruct (r' !! column) as [v|]; [left; now exists v | now right].
Qed.

Lemma sorted_one_kind kind column numeric reverse rows :
  mapM (sort_key column numeric) rows = Ok (map (text_key column) rows) ->
  (forall r, In r rows ->
             match r !! column with
             | Some v => isinstance_number v = kind
             | None => True
             end) ->
  exists out, sorted key_lt (sort_key column numeric) reverse rows = Ok out.
Proof.
  intros Hk H. unfold sorted. rewrite Hk. cbn [bind]. rewrite combine_keyed.
  destruct (sort_one_kind kind
              (if reverse then rev (keyed column rows)
               else keyed column rows)) as [r ->].
  - destruct reverse; [apply Forall_rev'|]; now apply keyed_one_kind.
  - now eexists.
Qed.

Lemma direction_checked direction :
  In (lower (strip direction)) ["asc"; "desc"] ->
  negb (String.eqb (lower (strip direction)) "asc"
        || String.eqb (lower (strip direction)) "desc") = false.
Proof. intros [<-|[<-|[]]]; reflexivity. Qed.

Lemma sort_data_unorderable self column direction d :
  contains "="%char column = false ->
  contains "="%char direction = false ->
  In (lower (strip direction)) ["asc"; "desc"] ->
  unorderable (strip column) (data_or_self self d) ->
  sort_data self (column ++ "=" ++ direction)%string d = Raise TypeError.
Proof.
  intros Hc Hd Hdir [[Hn Ht]|[Hnt (r & Hr & Hmiss)]].
  - rewrite (sort_data_spec _ _ _ _ Hc Hd). cbv zeta.
    rewrite (direction_checked _ Hdir).
    destruct Ht as (b & Hb & s & Hs).
    rewrite (is_numeric_text _ _ b s Hb Hs).
    apply sorted_two_kinds; [exact Hn|]. exists b. split; [exact Hb|].
    now exists s.
  - apply (sort_data_numeric_missing self column direction d r); auto.
    now apply is_numeric_true.
Qed.

Lemma sort_data_orderable self column direction d :
  contains "="%char column = false ->
  contains "="%char direction = false ->
  In (lower (strip direction)) ["asc"; "desc"] ->
  ~ unorderable (strip column) (data_or_self self d) ->
  exists out, sort_data self (column ++ "=" ++ direction)%string d = Ok out.
Proof.
  intros Hc Hd Hdir Hno.
  rewrite (sort_data_spec _ _ _ _ Hc Hd). cbv zeta.
  rewrite (direction_checked _ Hdir).
  set (col := strip column) in *. set (rows := data_or_self self d) in *.
  destruct (is_numeric col rows) eqn:En.
  - pose proof (proj1 (is_numeric_true col rows) En) as Hnt.
    assert (Hall : forall r, In r rows -> has_number col r).
    { intros r Hr. destruct (r !! col) as [[x|s]|] eqn:E.
      - now exists x.
      - destruct (Hnt r Hr). now exists s.
      - destruct Hno. right. split; [exact Hnt|]. now exists r. }
    apply (sorted_one_kind true).
    + now apply mapM_sort_key_numbers.
    + intros r Hr. destruct (Hall r Hr) as [x ->]. reflexivity.
  - destruct (is_numeric_false col rows En) as (b & Hb & Tb).
    apply (sorted_one_kind false).
    + apply mapM_sort_key_text.
    + intros r Hr. destruct (r !! col) as [[x|s]|] eqn:E; try reflexivity.
      destruct Hno. left. split; [|now exists b].
      exists r. split; [exact Hr | now exists x].
Qed.

(** X16. CSVProcessor [sort_data], with a well-formed spec and the direction
    asc or desc: the call ends with a [TypeError] when the column holds a
    number in one row and text in another, and when no cell of it is text
    and some row lacks it; in every other case it returns a rearrangement of
    the rows it sorted. *)
Theorem sort_data_TypeError_or_rearranged self column direction d :
  contains "="%char column = false ->
  contains "="%char direction = false ->
  In (lower (strip direction)) ["asc"; "desc"] ->
  let rows := data_or_self self d in
  (unorderable (strip column) rows ->
   sort_data self (column ++ "=" ++ direction)%string d = Raise TypeError)
  /\ (~ unorderable (strip column) rows ->
      exists out,
        sort_data self (column ++ "=" ++ direction)%string d = Ok out
        /\ Permutation rows out).
Proof.
  intros Hc Hd Hdir rows. split.
  - now apply sort_data_unorderable.
  - intros Hno.
    destruct (sort_data_orderable self column direction d Hc Hd Hdir Hno)
      as [out E].
    exists out. split; [exact E|].
    exact (sort_data_Permutation_in_use self _ d out E).
Qed.

Lemma sort_data_TypeError_or_rearranged_witness :
  let priced : row := {[ "price" := VFloat 199 ]} in
  let unpriced : row := {[ "price" := VStr "n/a" ]} in
  let bare : row := {[ "name" := VStr "nokia" ]} in
  sort_data {| data := [priced; unpriced] |} "price=asc" None
  = Raise TypeError
  /\ sort_data {| data := [priced; bare] |} "price=desc" None
     = Raise TypeError
  /\ exists out,
       sort_data {| data := [bare; unpriced] |} "price=desc" None = Ok out
       /\ Permutation [bare; unpriced] out.
Proof.
  intros priced unpriced bare. split; [|split].
  - apply (proj1 (sort_data_TypeError_or_rearranged
                    {| data := [priced; unpriced] |} "price" "asc" None
                    eq_refl eq_refl (or_introl eq_refl))).
    left. split.
    + exists priced. split; [now left|]. now exists 199%float.
    + exists unpriced. split; [right; now left|]. now exists "n/a".
  - apply (proj1 (sort_data_TypeError_or_rearranged
                    {| data := [priced; bare] |} "price" "desc" None
                    eq_refl eq_refl (or_intror (or_introl eq_refl)))).
    right. split.
    + intros r [<-|[<-|[]]] [s Hs]; vm_compute in Hs; discriminate.
    + exists bare. split; [right; now left | reflexivity].
  - apply (proj2 (sort_data_TypeError_or_rearranged
                    {| data := [bare; unpriced] |} "price" "desc" None
                    eq_refl eq_refl (or_intror (or_introl eq_refl)))).
    intros [[(r & Hr & x & Hx) _]|[Hnt _]].
    + destruct Hr as [<-|[<-|[]]]; vm_compute in Hx; discriminate.
    + apply (Hnt unpriced); [right; now left | now exists "n/a"].
Defined.

End CSVProcessorSortOutcome.

Section CSVProcessorSortOrder.
Import CSVProcessor.

Lemma key_ltb_number x y :
  key_ltb (false, Some (VFloat x)) (false, Some (VFloat y))
  = PrimFloat.ltb x y.
Proof.
  unfold key_ltb, key_lt. cbn.
  destruct (PrimFloat.eqb x y) eqn:E; [|reflexivity].
  symmetry. now apply eqb_true_ltb_false.
Qed.

Lemma str_lt_irrefl s : str_lt s s = false.
Proof. unfold str_lt. now rewrite str_compare_refl. Qed.

Lemma key_ltb_text s t :
  key_ltb (false, Some (VStr s)) (false, Some (VStr t)) = str_lt s t.
Proof.
  unfold key_ltb, key_lt. cbn.
  destruct (String.eqb s t) eqn:E; [|reflexivity].
  apply String.eqb_eq in E as ->. symmetry. apply str_lt_irrefl.
Qed.

Lemma key_lt_number_ok a b :
  number_key_ok a -> number_key_ok b -> key_lt a b = Ok (key_ltb a b).
Proof.
  intros (x & -> & _) (y & -> & _). unfold key_ltb.
  destruct (key_lt_same_kind (VFloat x) (VFloat y) eq_refl) as [c ->].
  reflexivity.
Qed.

Lemma key_lt_text_ok a b :
  text_key_ok a -> text_key_ok b -> key_lt a b = Ok (key_ltb a b).
Proof.
  intros [[s ->]| ->] [[t ->]| ->]; unfold key_ltb; try reflexivity.
  destruct (key_lt_same_kind (VStr s) (VStr t) eq_refl) as [c ->].
  reflexivity.
Qed.

Lemma key_ltb_number_asym a b :
  number_key_ok a -> number_key_ok b ->
  key_ltb a b = true -> key_ltb b a = false.
Proof.
  intros (x & -> & Hx) (y & -> & Hy). rewrite !key_ltb_number.
  now apply float_ltb_asym.
Qed.

Lemma key_ltb_number_trans a b c :
  number_key_ok a -> number_key_ok b -> number_key_ok c ->
  key_ltb b a = false -> key_ltb c b = false -> key_ltb c a = false.
Proof.
  intros (x & -> & Hx) (y & -> & Hy) (z & -> & Hz). rewrite !key_ltb_number.
  now apply float_le_trans.
Qed.

Lemma key_ltb_text_asym a b :
  text_key_ok a -> text_key_ok b ->
  key_ltb a b = true -> key_ltb b a = false.
Proof.
  intros [[s ->]| ->] [[t ->]| ->]; try reflexivity; try discriminate.
  rewrite !key_ltb_text. apply str_lt_asym.
Qed.

Lemma key_ltb_text_trans a b c :
  text_key_ok a -> text_key_ok b -> text_key_ok c ->
  key_ltb b a = false -> key_ltb c b = false -> key_ltb c a = false.
Proof.
  intros [[s ->]| ->] [[t ->]| ->] [[u ->]| ->]; try reflexivity;
    try discriminate.
  rewrite !key_ltb_text. apply str_le_trans.
Qed.

Lemma number_keys column numeric rows :
  (forall r, In r rows ->
             exists x, r !! column = Some (VFloat x) /\ not_nan x) ->
  forall r, In r rows ->
    sort_key column numeric r = Ok (text_key column r)
    /\ number_key_ok (text_key column r).
Proof.
  intros H r Hr. destruct (H r Hr) as (x & Hx & Nx).
  unfold sort_key, text_key, lacks. rewrite Hx. split.
  - now destruct numeric.
  - now exists x.
Qed.

Lemma text_keys column rows :
  (forall r, In r rows -> ~ has_number column r) ->
  forall r, In r rows ->
    sort_key column false r = Ok (text_key column r)
    /\ text_key_ok (text_key column r).
Proof.
  intros H r Hr. unfold sort_key, text_key, lacks. cbn [negb].
  destruct (r !! column) as [[x|s]|] eqn:E.
  - destruct (H r Hr). now exists x.
  - split; [reflexivity|]. left. now exists s.
  - split; [reflexivity|]. now right.
Qed.

Lemma data_or_self_result self d out :
  Permutation (data_or_self self d) out -> data_or_self self (Some out) = out.
Proof.
  intros Hp. destruct out as [|r out]; [|reflexivity].
  apply Permutation_sym, Permutation_nil in Hp. simpl.
  destruct d as [[|r l]|]; simpl in Hp; [exact Hp | discriminate | exact Hp].
Qed.

Lemma is_numeric_Permutation column rows out :
  Permutation rows out -> is_numeric column rows = is_numeric column out.
Proof.
  intros Hp. unfold is_numeric.
  induction Hp as [|x l l' Hp IH|x y l|l l' l'' H1 IH1 H2 IH2]; simpl;
    [reflexivity | now rewrite IH | | congruence].
  destruct (match x !! column with Some v => _ | None => _ end),
           (match y !! column with Some v => _ | None => _ end); reflexivity.
Qed.

Lemma sort_data_numbers_sorted column reverse numeric rows :
  (forall r, In r rows ->
             exists x, r !! column = Some (VFloat x) /\ not_nan x) ->
  exists out,
    sorted key_lt (sort_key column numeric) reverse rows = Ok out
    /\ Permutation rows out
    /\ key_sorted key_ltb (text_key column) reverse out.
Proof.
  intros H.
  apply (sorted_total key_lt key_ltb number_key_ok key_lt_number_ok
           key_ltb_number_asym key_ltb_number_trans).
  now apply number_keys.
Qed.

Lemma sort_data_text_sorted column reverse rows :
  (forall r, In r rows -> ~ has_number column r) ->
  exists out,
    sorted key_lt (sort_key column false) reverse rows = Ok out
    /\ Permutation rows out
    /\ key_sorted key_ltb (text_key column) reverse out.
Proof.
  intros H.
  apply (sorted_total key_lt key_ltb text_key_ok key_lt_text_ok
           key_ltb_text_asym key_ltb_text_trans).
  now apply text_keys.
Qed.

(** X17. CSVProcessor [sort_data] on a column where every row holds a
    number, none a NaN: the call returns a rearrangement of the rows with
    the numbers in ascending order for asc and in descending order for
    desc, and sorting the result again returns it unchanged. *)
Theorem sort_data_numbers_ordered self column direction d :
  contains "="%char column = false ->
  contains "="%char direction = false ->
  In (lower (strip direction)) ["asc"; "desc"] ->
  let col := strip column in
  let rows := data_or_self self d in
  let spec := (column ++ "=" ++ direction)%string in
  (forall r, In r rows -> exists x, r !! col = Some (VFloat x) /\ not_nan x) ->
  exists out,
    sort_data self spec d = Ok out
    /\ Permutation rows out
    /\ StronglySorted
         (fun a b =>
            if String.eqb (lower (strip direction)) "desc"
            then PrimFloat.leb (number_in col b) (number_in col a) = true
            else PrimFloat.leb (number_in col a) (number_in col b) = true)
         out
    /\ sort_data self spec (Some out) = Ok out.
Proof.
  intros Hc Hd Hdir col rows spec Hn. unfold spec.
  rewrite (sort_data_spec _ _ _ _ Hc Hd). cbv zeta.
  rewrite (direction_checked _ Hdir). fold col rows.
  set (reverse := String.eqb (lower (strip direction)) "desc").
  destruct (sort_data_numbers_sorted col reverse (is_numeric col rows) rows Hn)
    as (out & E & Hp & Hs).
  assert (Hout : forall r, In r out ->
                   exists x, r !! col = Some (VFloat x) /\ not_nan x).
  { intros r Hr. apply Hn. eapply Permutation_in; [|exact Hr].
    now apply Permutation_sym. }
  exists out. split; [exact E|]. split; [exact Hp|]. split.
  - unfold key_sorted in Hs. revert Hs. apply StronglySorted_impl_in.
    intros a b Ha Hb.
    destruct (Hout a Ha) as (x & Hx & Nx), (Hout b Hb) as (y & Hy & Ny).
    unfold text_key, lacks, number_in. rewrite Hx, Hy.
    rewrite !key_ltb_number.
    destruct reverse; now apply ltb_false_iff_leb.
  - rewrite (sort_data_spec _ _ _ _ Hc Hd). cbv zeta.
    rewrite (direction_checked _ Hdir).
    rewrite (data_or_self_result self d out Hp).
    apply (sorted_of_sorted key_lt key_ltb number_key_ok key_lt_number_ok
             _ (text_key col));
      [now apply number_keys | exact Hs].
Qed.

Lemma sort_data_numbers_ordered_witness :
  let cheap : row := {[ "price" := VFloat 199 ]} in
  let dear : row := {[ "price" := VFloat 999 ]} in
  exists out,
    sort_data {| data := [cheap; dear; cheap] |} "price=desc" None = Ok out
    /\ Permutation [cheap; dear; cheap] out
    /\ StronglySorted
         (fun a b => PrimFloat.leb (number_in "price" b)
                                   (number_in "price" a) = true) out
    /\ sort_data {| data := [cheap; dear; cheap] |} "price=desc" (Some out)
       = Ok out.
Proof.
  intros cheap dear.
  apply (sort_data_numbers_ordered {| data := [cheap; dear; cheap] |}
           "price" "desc" None eq_refl eq_refl
           (or_intror (or_introl eq_refl))).
  intros r [<-|[<-|[<-|[]]]].
  - exists 199%float. now split.
  - exists 999%float. now split.
  - exists 199%float. now split.
Defined.

(** X18. CSVProcessor [sort_data] on a column where no row holds a number
    and one row at least holds text: the call returns a rearrangement of
    the rows in the order of the text (code point by code point), the rows
    without the column last, for asc, and in the opposite order for desc;
    sorting the result again returns it unchanged. *)
Theorem sort_data_text_ordered self column direction d :
  contains "="%char column = false ->
  contains "="%char direction = false ->
  In (lower (strip direction)) ["asc"; "desc"] ->
  let col := strip column in
  let rows := data_or_self self d in
  let spec := (column ++ "=" ++ direction)%string in
  (forall r, In r rows -> ~ has_number col r) ->
  (exists r, In r rows /\ holds_text col r) ->
  exists out,
    sort_data self spec d = Ok out
    /\ Permutation rows out
    /\ StronglySorted
         (fun a b =>
            if String.eqb (lower (strip direction)) "desc"
            then text_le col b a else text_le col a b) out
    /\ sort_data self spec (Some out) = Ok out.
Proof.
  intros Hc Hd Hdir col rows spec Hn (r0 & Hr0 & s0 & Hs0). unfold spec.
  rewrite (sort_data_spec _ _ _ _ Hc Hd). cbv zeta.
  rewrite (direction_checked _ Hdir). fold col rows.
  set (reverse := String.eqb (lower (strip direction)) "desc").
  rewrite (is_numeric_text col rows r0 s0 Hr0 Hs0).
  destruct (sort_data_text_sorted col reverse rows Hn)
    as (out & E & Hp & Hs).
  assert (Hout : forall r, In r out -> ~ has_number col r).
  { intros r Hr. apply Hn. eapply Permutation_in; [|exact Hr].
    now apply Permutation_sym. }
  exists out. split; [exact E|]. split; [exact Hp|]. split.
  - unfold key_sorted in Hs. revert Hs. apply StronglySorted_impl_in.
    intros a b Ha Hb.
    pose proof (Hout a Ha) as Na. pose proof (Hout b Hb) as Nb.
    unfold text_key, lacks, text_le.
    destruct (a !! col) as [[x|s]|] eqn:Ea;
      [destruct Na; now exists x | |];
      (destruct (b !! col) as [[y|t]|] eqn:Eb;
       [destruct Nb; now exists y | |]);
      destruct reverse; rewrite ?key_ltb_text; try apply str_lt_false_leb;
      try (intros _; exact I); try discriminate.
  - rewrite (sort_data_spec _ _ _ _ Hc Hd). cbv zeta.
    rewrite (direction_checked _ Hdir).
    rewrite (data_or_self_result self d out Hp). fold col.
    rewrite <- (is_numeric_Permutation col rows out Hp).
    rewrite (is_numeric_text col rows r0 s0 Hr0 Hs0).
    apply (sorted_of_sorted key_lt key_ltb text_key_ok key_lt_text_ok
             _ (text_key col));
      [now apply text_keys | exact Hs].
Qed.

Lemma sort_data_text_ordered_witness :
  let b : row := {[ "name" := VStr "b" ]} in
  let n : row := {[ "brand" := VStr "x" ]} in
  let a : row := {[ "name" := VStr "a" ]} in
  exists out,
    sort_data {| data := [b; n; a] |} "name=asc" None = Ok out
    /\ Permutation [b; n; a] out
    /\ StronglySorted (fun r1 r2 => text_le "name" r1 r2) out
    /\ sort_data {| data := [b; n; a] |} "name=asc" (Some out) = Ok out.
Proof.
  intros b n a.
  apply (sort_data_text_ordered {| data := [b; n; a] |} "name" "asc" None
           eq_refl eq_refl (or_introl eq_refl)).
  - intros r [<-|[<-|[<-|[]]]] [x Hx]; vm_compute in Hx; discriminate.
  - exists b. split; [now left | now exists "b"].
Defined.

End CSVProcessorSortOrder.

(** ** The programs *)

Section MainFilterOutcome.
Import Main.

(** Number literal with [>] or [<], and a cell of the column that is not a
    number: the first cell is compared, as text, with the number. *)
Lemma filter_rows_ordering_number_mixed data cond col op lit v :
  parse_condition cond = Ok (col, op, lit) ->
  op <> eq ->
  float_of_string lit = Some v ->
  (forall r, In r data -> r !! col <> None) ->
  (exists r cell, In r data /\ r !! col = Some cell
                  /\ float_of_string cell = None) ->
  filter_rows data (Some cond) = Raise TypeError.
Proof.
  intros Hp Hop Hv Hall (r & cell & Hin & Hc & Hx). unfold filter_rows.
  destruct cond as [|c cond]; [discriminate|].
  rewrite Hp. cbn [bind]. unfold to_float at 1. rewrite Hv.
  rewrite (filterM_some_raise _ data (ValueError CouldNotConvert)).
  - cbn [except_ValueError]. apply filterM_some_raise.
    + intros r' Hr'. right. specialize (Hall r' Hr'). unfold getitem.
      destruct (r' !! col); [|congruence]. cbn [bind].
      now destruct op.
    + exists r. split; [exact Hin|]. unfold getitem. rewrite Hc. cbn [bind].
      now destruct op.
  - intros r' Hr'. specialize (Hall r' Hr'). unfold getitem, to_float.
    destruct (r' !! col) as [cell'|]; [|congruence]. cbn [bind].
    destruct (float_of_string cell');
      [left; destruct op; eexists; reflexivity | now right].
  - exists r. split; [exact Hin|]. unfold getitem, to_float.
    rewrite Hc. cbn [bind]. now rewrite Hx.
Qed.

(** X19. main.py [filter_rows] when every row has the column of the
    condition.  A literal that is not a number: the rows whose cell passes
    the test as text are kept.  A literal that is a number: when every cell
    reads as a number, the rows whose number passes the test are kept; when
    one cell does not, [=] keeps no row at all and [>], [<] end with a
    [TypeError]. *)
Theorem filter_rows_every_row_has_column data cond col op lit :
  parse_condition cond = Ok (col, op, lit) ->
  (forall r, In r data -> r !! col <> None) ->
  (float_of_string lit = None ->
   filter_rows data (Some cond) = Ok (List.filter (text_test col op lit) data))
  /\ (forall v, float_of_string lit = Some v ->
        ((forall r, In r data ->
            exists cell x, r !! col = Some cell
                           /\ float_of_string cell = Some x) ->
         filter_rows data (Some cond)
         = Ok (List.filter (number_test col op v) data))
        /\ ((exists r cell, In r data /\ r !! col = Some cell
                            /\ float_of_string cell = None) ->
            filter_rows data (Some cond)
            = match op with eq => Ok [] | _ => Raise TypeError end)).
Proof.
  intros Hp Hall. split; [|intros v Hv; split].
  - intros Hlit. now apply filter_rows_text_literal.
  - intros Hnum. now apply (filter_rows_numbers data cond col op lit v).
  - intros Hbad. destruct op.
    + now apply (filter_rows_ordering_number_mixed data cond col gt lit v).
    + now apply (filter_rows_ordering_number_mixed data cond col lt lit v).
    + now apply (filter_rows_eq_number_mixed data cond col lit v).
Qed.

Lemma filter_rows_every_row_has_column_witness :
  let cheap : row := {[ "name" := "redmi"; "price" := "199" ]} in
  let dear : row := {[ "name" := "iphone"; "price" := "999" ]} in
  let odd : row := {[ "name" := "nokia"; "price" := "n/a" ]} in
  filter_rows [cheap; dear] (Some "name<poco") = Ok [dear]
  /\ filter_rows [cheap; dear] (Some "price>500") = Ok [dear]
  /\ filter_rows [cheap; dear; odd] (Some "price>500") = Raise TypeError.
Proof.
  intros cheap dear odd. split; [|split].
  - apply (proj1 (filter_rows_every_row_has_column [cheap; dear] "name<poco"
                    "name" lt "poco" eq_refl
                    ltac:(intros r [<-|[<-|[]]]; vm_compute; discriminate))).
    reflexivity.
  - apply (proj1 (proj2 (filter_rows_every_row_has_column [cheap; dear]
                           "price>500" "price" gt "500" eq_refl
                           ltac:(intros r [<-|[<-|[]]]; vm_compute;
                                 discriminate))
                   500%float eq_refl)).
    intros r [<-|[<-|[]]].
    + exists "199", 199%float. now split.
    + exists "999", 999%float. now split.
  - apply (proj2 (proj2 (filter_rows_every_row_has_column [cheap; dear; odd]
                           "price>500" "price" gt "500" eq_refl
                           ltac:(intros r [<-|[<-|[<-|[]]]]; vm_compute;
                                 discriminate))
                   500%float eq_refl)).
    exists odd, "n/a". split; [right; right; now left | now split].
Defined.

Lemma filter_rows_sublist data condition out :
  filter_rows data condition = Ok out -> sublist out data.
Proof.
  unfold filter_rows.
  destruct condition as [[|c cond]|];
    try (intros H; injection H as <-; reflexivity).
  destruct (parse_condition (String c cond)) as [[[col op] lit]|e];
    [|discriminate].
  cbn [bind]. destruct (to_float lit) as [v|[m| |k]]; try discriminate.
  - destruct (filterM _ data) as [xs|[m| |k]] eqn:E1 at 1;
      cbn [except_ValueError]; try discriminate.
    + intros H. injection H as <-. now apply filterM_sublist in E1.
    + intros E2.
      assert (out = []) as ->.
      { eapply filterM_never_true; [|exact E2].
        intros r. apply text_against_number_never_true. }
      apply sublist_nil_l.
  - intros E. now apply filterM_sublist in E.
Qed.

End MainFilterOutcome.

Section MainProgram.
Import Main.

Lemma main_Rows rows a out :
  main rows a = Printed (Rows out) ->
  exists kept,
    filter_rows rows (arg_where a) = Ok kept
    /\ sort_data kept (arg_order_by a) = Ok out.
Proof.
  unfold main.
  destruct (filter_rows rows (arg_where a)) as [kept|[m| |k]]; cbn [bind];
    try discriminate.
  destruct (arg_aggregate a) as [[|c agg]|].
  - destruct (sort_data kept (arg_order_by a)) as [out'|[m| |k]] eqn:Hs;
      cbn [bind]; try discriminate.
    intros H. injection H as <-. now exists kept.
  - destruct (aggregate kept (String c agg)) as [res|[m| |k]]; cbn [bind];
      discriminate.
  - destruct (sort_data kept (arg_order_by a)) as [out'|[m| |k]] eqn:Hs;
      cbn [bind]; try discriminate.
    intros H. injection H as <-. now exists kept.
Qed.

(** X20. main.py [main]: the rows it prints are rows of the file, none
    added and none repeated more often than in the file: a rearrangement of
    a subsequence of the rows read.  Without [--order-by] they are in the
    order of the file; without [--where] they are all there. *)
Theorem main_prints_rows_of_the_file rows a out :
  main rows a = Printed (Rows out) ->
  (exists kept, sublist kept rows /\ Permutation kept out)
  /\ (arg_order_by a = None -> sublist out rows)
  /\ (arg_where a = None -> Permutation rows out).
Proof.
  intros H. destruct (main_Rows rows a out H) as (kept & Hf & Hs).
  pose proof (filter_rows_sublist _ _ _ Hf) as Hsub.
  pose proof (sort_data_Permutation _ _ _ Hs) as Hperm.
  split; [now exists kept|]. split.
  - intros E. rewrite E in Hs. simpl in Hs. now injection Hs as <-.
  - intros E. rewrite E in Hf. simpl in Hf. now injection Hf as <-.
Qed.

Lemma main_prints_rows_of_the_file_witness :
  let cheap : row := {[ "name" := "redmi"; "price" := "199" ]} in
  let dear : row := {[ "name" := "iphone"; "price" := "999" ]} in
  let a := {| arg_where := Some "price>100"; arg_aggregate := None;
              arg_order_by := Some "name=asc" |} in
  (exists kept, sublist kept [cheap; dear]
                /\ Permutation kept [dear; cheap])
  /\ (arg_order_by a = None -> sublist [dear; cheap] [cheap; dear])
  /\ (arg_where a = None -> Permutation [cheap; dear] [dear; cheap]).
Proof.
  intros cheap dear a.
  apply (main_prints_rows_of_the_file [cheap; dear] a [dear; cheap]).
  vm_compute. reflexivity.
Defined.

Lemma aggregate_no_rows col func :
  contains "="%char col = false ->
  aggregate [] (col ++ "=" ++ func)%string
  = match lookup_assoc (lower (strip func)) AGGREGATIONS with
    | None => Raise (ValueError (UnsupportedFunction (lower (strip func))))
    | Some f => bind (f []) (fun x => Ok {[ lower (strip func) := x ]})
    end.
Proof.
  intros Hc. rewrite (main_aggregate_spec _ _ _ Hc). cbv zeta.
  now destruct (lookup_assoc _ AGGREGATIONS).
Qed.

(** X21. main.py [main] when the filter keeps no row.  With
    [--aggregate column=avg] it prints the table with [None] for avg; with
    min or max it exits with status 2, the [ValueError] of the built-in on
    an empty sequence being reported like a malformed expression; any other
    function name exits with status 2 as well.  Without [--aggregate] it
    prints the empty table when [--order-by] is absent or contains [=], and
    exits with status 2 otherwise. *)
Theorem main_when_no_row_is_kept rows a :
  filter_rows rows (arg_where a) = Ok [] ->
  (forall col func,
     arg_aggregate a = Some (col ++ "=" ++ func)%string ->
     contains "="%char col = false ->
     main rows a
     = if String.eqb (lower (strip func)) "avg"
       then Printed (Aggregate {[ "avg" := None ]})
       else Exit 2)
  /\ (arg_aggregate a = None ->
      main rows a
      = match arg_order_by a with
        | None => Printed (Rows [])
        | Some order =>
            if (String.eqb order "" || contains "="%char order)%bool
            then Printed (Rows []) else Exit 2
        end).
Proof.
  intros Hf. split.
  - intros col func Ha Hc. unfold main. rewrite Hf, Ha. cbn [bind].
    assert (Hne : (col ++ "=" ++ func)%string <> EmptyString).
    { destruct col; discriminate. }
    destruct (col ++ "=" ++ func)%string as [|c s] eqn:E; [congruence|].
    rewrite <- E. rewrite (aggregate_no_rows _ _ Hc).
    unfold AGGREGATIONS. cbn [lookup_assoc].
    destruct (String.eqb (lower (strip func)) "avg") eqn:E1.
    + apply String.eqb_eq in E1. now rewrite E1.
    + destruct (String.eqb (lower (strip func)) "min");
        [reflexivity|].
      destruct (String.eqb (lower (strip func)) "max"); reflexivity.
  - intros Ha. unfold main. rewrite Hf, Ha. cbn [bind].
    destruct (arg_order_by a) as [[|c order]|]; try reflexivity.
    unfold sort_data, parse_order.
    destruct (contains "="%char (String c order)) eqn:Ec; cbn [negb orb].
    + change (String.eqb (String c order) "") with false. cbn [orb].
      destruct (split1_present _ _ Ec) as (col & direction & _ & _ & ->).
      cbn [unpack2 bind]. destruct (negb _); reflexivity.
    + reflexivity.
Qed.

Lemma main_when_no_row_is_kept_witness :
  let cheap : row := {[ "name" := "redmi"; "price" := "199" ]} in
  main [cheap] {| arg_where := Some "price>500";
                  arg_aggregate := Some "price=min";
                  arg_order_by := None |} = Exit 2
  /\ main [cheap] {| arg_where := Some "price>500";
                     arg_aggregate := Some "price= AVG";
                     arg_order_by := Some "price" |}
     = Printed (Aggregate {[ "avg" := None ]}).
Proof.
  intros cheap. split.
  - exact (proj1 (main_when_no_row_is_kept [cheap]
                    {| arg_where := Some "price>500";
                       arg_aggregate := Some "price=min";
                       arg_order_by := None |} eq_refl)
             "price" "min" eq_refl eq_refl).
  - exact (proj1 (main_when_no_row_is_kept [cheap]
                    {| arg_where := Some "price>500";
                       arg_aggregate := Some "price= AVG";
                       arg_order_by := Some "price" |} eq_refl)
             "price" " AVG" eq_refl eq_refl).
Defined.

End MainProgram.

Section MainUnknownColumn.
Import Main.





End MainUnknownColumn.

Section ScriptProgram.
Import CSVProcessor Script.

Lemma data_or_self_data self : data_or_self self (Some (data self)) = data self.
Proof. unfold data_or_self. now destruct (data self). Qed.

Lemma sort_data_of_no_rows self order_by :
  sort_data self order_by (Some [])
  = sort_data self order_by (Some (data self)).
Proof. unfold sort_data. now rewrite data_or_self_data. Qed.

Lemma aggregate_of_no_rows self aggregation :
  aggregate self aggregation (Some [])
  = aggregate self aggregation (Some (data self)).
Proof. unfold aggregate. now rewrite data_or_self_data. Qed.

(** X23. The script [main] of the CSVProcessor file, when [--where] keeps
    no row: with [--order-by] or [--aggregate] the program goes on with all
    the rows of the file, exactly as if [--where] had not been given, since
    an empty list is replaced by the stored rows; with neither, it prints
    the no-data message. *)
Theorem main_where_without_match processor w g o :
  filter_data processor w = Ok [] ->
  w <> EmptyString ->
  let a := {| arg_where := Some w; arg_aggregate := g; arg_order_by := o |} in
  let a' := {| arg_where := None; arg_aggregate := g; arg_order_by := o |} in
  ((o <> None /\ o <> Some EmptyString)
   \/ (g <> None /\ g <> Some EmptyString) ->
   main processor a = main processor a')
  /\ ((o = None \/ o = Some EmptyString) ->
      (g = None \/ g = Some EmptyString) ->
      main processor a = Ok NoData).
Proof.
  intros Hf Hw a a'. subst a a'. unfold main.
  cbn [arg_where arg_aggregate arg_order_by].
  destruct w as [|c w]; [congruence|]. rewrite Hf. cbn [bind].
  split.
  - intros H. destruct o as [[|c' o]|].
    + destruct g as [[|c'' g]|]; [destruct H as [[_ H]|[_ H]]; congruence | |
                                  destruct H as [[_ H]|[H _]]; congruence].
      cbn [bind]. now rewrite aggregate_of_no_rows.
    + now rewrite sort_data_of_no_rows.
    + destruct g as [[|c'' g]|]; [destruct H as [[H _]|[_ H]]; congruence | |
                                  destruct H as [[H _]|[H _]]; congruence].
      cbn [bind]. now rewrite aggregate_of_no_rows.
  - intros [-> | ->] [-> | ->]; reflexivity.
Qed.

Lemma main_where_without_match_witness :
  let cheap : row := {[ "name" := VStr "redmi"; "price" := VFloat 199 ]} in
  let p := {| data := [cheap] |} in
  main p {| arg_where := Some "price>500"; arg_aggregate := Some "price=avg";
            arg_order_by := None |}
  = main p {| arg_where := None; arg_aggregate := Some "price=avg";
              arg_order_by := None |}
  /\ main p {| arg_where := Some "price>500";
               arg_aggregate := Some "price=avg"; arg_order_by := None |}
     = Ok (Aggregate {[ "avg" := 199%float ]}).
Proof.
  intros cheap p. split.
  - apply (proj1 (main_where_without_match p "price>500" (Some "price=avg")
                    None eq_refl ltac:(discriminate))).
    right. split; discriminate.
  - reflexivity.
Defined.

End ScriptProgram.
